(** * PmLogLib: a shallow embedding of [src/PmLogLib.c]

    The development follows the C file top to bottom: the data of the
    shared segment, the process state, the libc / glib / pbnjson calls the
    library relies on (taken as an interface), then the functions of the
    library, and finally the properties of the specification.

    Conventions.
    - A C string is the [string] of the bytes before its terminator; a
      [const char*] that may be NULL is an [option string].
    - [int], [size_t] and the [PmLogLevel] enumeration are [Z]; none of the
      modelled arithmetic leaves the range of its C type.
    - The build modelled is the default one: [DEBUG_ENABLED],
      [DEBUG_LOGGING] and [ENABLE_WHITELIST] are not defined, so [DbgPrint]
      expands to nothing and [ErrPrint] / [WarnPrint] call [CallSysLog]. *)

From Stdlib Require Import ZArith Ascii String.
From stdpp Require Import base tactics option list numbers strings pretty.

Local Open Scope Z_scope.

(** ** Error codes (the cases of [PmLogGetErrDbgString]) *)

Inductive PmLogErr : Set :=
  | kPmLogErr_None
  | kPmLogErr_InvalidParameter
  | kPmLogErr_InvalidContextIndex
  | kPmLogErr_InvalidContext
  | kPmLogErr_InvalidLevel
  | kPmLogErr_InvalidFormat
  | kPmLogErr_InvalidData
  | kPmLogErr_NoData
  | kPmLogErr_TooMuchData
  | kPmLogErr_LevelDisabled
  | kPmLogErr_FormatStringFailed
  | kPmLogErr_TooManyContexts
  | kPmLogErr_InvalidContextName
  | kPmLogErr_ContextNotFound
  | kPmLogErr_BufferTooSmall
  | kPmLogErr_InvalidMsgID
  | kPmLogErr_EmptyMsgID
  | kPmLogErr_LoggingDisabled
  | kPmLogErr_Unknown.

#[global] Instance PmLogErr_eq_dec : EqDecision PmLogErr.
Proof. solve_decision. Defined.

(** ** Levels

    The numbers are those written next to each label in [kLogLevelLabels]. *)

Definition kPmLogLevel_None      : Z := -1.
Definition kPmLogLevel_Emergency : Z := 0.
Definition kPmLogLevel_Alert     : Z := 1.
Definition kPmLogLevel_Critical  : Z := 2.
Definition kPmLogLevel_Error     : Z := 3.
Definition kPmLogLevel_Warning   : Z := 4.
Definition kPmLogLevel_Notice    : Z := 5.
Definition kPmLogLevel_Info      : Z := 6.
Definition kPmLogLevel_Debug     : Z := 7.

(** syslog priorities used by [ErrPrint] and [WarnPrint]. *)
Definition LOG_ERR     : Z := 3.
Definition LOG_WARNING : Z := 4.

(** ** Sizes defined in the C file *)

Definition BUFFER_LEN         : Z := 1024.
Definition MSGID_LEN          : Z := 32.
Definition PIDSTR_LEN         : Z := 32.
Definition TRUNCATED_MSG_SIZE : Z := 128.
Definition DEBUG_MSG_ID       : string := "DBGMSG".
Definition SOH                : ascii := "001"%char.

(** Modelled from the spec: the header that defines
    [PMLOG_MAX_CONTEXT_NAME_LEN] is not part of the sources; the spec bounds
    a context name by 31 characters, and so does the comment of
    [PmLogGetContext] ("Context names must be 1..31 characters long"). *)
Definition PMLOG_MAX_CONTEXT_NAME_LEN : Z := 31.

(** ** The shared segment *)

Record PmLogContextInfo : Set := mkInfo {
  enabledLevel : Z;
  flags        : Z }.

(** [PmLogContext_]: the public [info] record followed by the name. *)
Record PmLogContext_ : Set := mkContext {
  info      : PmLogContextInfo;
  component : string }.

Record PmLogConsole : Set := mkConsole {
  stdErrMinLevel : Z;
  stdErrMaxLevel : Z;
  stdOutMinLevel : Z;
  stdOutMaxLevel : Z }.

(** [PmLogGlobals]. [userContexts] is the whole array of the segment, used
    and unused slots alike; [numUserContexts] says how many are in use. *)
Record PmLogGlobals : Set := mkGlobals {
  signature       : Z;
  maxUserContexts : Z;
  numUserContexts : Z;
  contextLogging  : Z;
  consoleConf     : PmLogConsole;
  devMode         : bool;
  globalContext   : PmLogContext_;
  userContexts    : list PmLogContext_ }.

(** A non-NULL [PmLogContext_*] (equally a non-NULL public [PmLogContext],
    which is the address of the [info] member at offset 0): the address of
    the global context or of a slot of [userContexts]. *)
Inductive ctx_ptr : Set :=
  | GlobalCtx
  | UserCtx (i : nat).

#[global] Instance ctx_ptr_eq_dec : EqDecision ctx_ptr.
Proof. solve_decision. Defined.

(** The public handle; [None] is NULL ([kPmLogDefaultContext],
    [kPmLogGlobalContext]). *)
Definition PmLogContext : Set := option ctx_ptr.

(** ** Process state *)

Inductive sigset : Set :=
  | SigFull                (* every signal blocked ([sigfillset]) *)
  | SigMask (m : N).       (* some other mask *)

Record World : Type := mkWorld {
  w_errno           : Z;
  (** [gGlobalsP]; [gGlobalContextP] is the address of its [globalContext]
      and is NULL exactly when [gGlobalsP] is. *)
  w_globals         : option PmLogGlobals;
  w_syslogConnected : bool;
  w_sigmask         : sigset;
  (** what was handed to [syslog]: priority and text, newest first *)
  w_syslog          : list (Z * string);
  w_stderr          : list string;
  w_stdout          : list string;
  (** the memory a context pointer leads to while [gGlobalsP] is NULL:
      the segment as it is mapped. [init_function] leaves the segment
      mapped when it does not recognise the signature, and the code reads
      and writes a context through the pointer, not through [gGlobalsP]. *)
  w_mapped          : PmLogGlobals }.

Definition set_errno (e : Z) (w : World) : World :=
  mkWorld e (w_globals w) (w_syslogConnected w) (w_sigmask w)
          (w_syslog w) (w_stderr w) (w_stdout w) (w_mapped w).

Definition set_globals (g : option PmLogGlobals) (w : World) : World :=
  mkWorld (w_errno w) g (w_syslogConnected w) (w_sigmask w)
          (w_syslog w) (w_stderr w) (w_stdout w) (w_mapped w).

Definition set_syslogConnected (b : bool) (w : World) : World :=
  mkWorld (w_errno w) (w_globals w) b (w_sigmask w)
          (w_syslog w) (w_stderr w) (w_stdout w) (w_mapped w).

Definition set_sigmask (m : sigset) (w : World) : World :=
  mkWorld (w_errno w) (w_globals w) (w_syslogConnected w) m
          (w_syslog w) (w_stderr w) (w_stdout w) (w_mapped w).

Definition push_syslog (l : Z) (s : string) (w : World) : World :=
  mkWorld (w_errno w) (w_globals w) (w_syslogConnected w) (w_sigmask w)
          ((l, s) :: w_syslog w) (w_stderr w) (w_stdout w) (w_mapped w).

Definition push_stderr (s : string) (w : World) : World :=
  mkWorld (w_errno w) (w_globals w) (w_syslogConnected w) (w_sigmask w)
          (w_syslog w) (s :: w_stderr w) (w_stdout w) (w_mapped w).

Definition push_stdout (s : string) (w : World) : World :=
  mkWorld (w_errno w) (w_globals w) (w_syslogConnected w) (w_sigmask w)
          (w_syslog w) (w_stderr w) (s :: w_stdout w) (w_mapped w).

Definition set_mapped (g : PmLogGlobals) (w : World) : World :=
  mkWorld (w_errno w) (w_globals w) (w_syslogConnected w) (w_sigmask w)
          (w_syslog w) (w_stderr w) (w_stdout w) g.

(** ** A state monad over [World] *)

Definition M (A : Type) : Type := World -> A * World.

Definition ret {A} (a : A) : M A := fun w => (a, w).

Definition bind {A B} (m : M A) (f : A -> M B) : M B :=
  fun w => let (a, w') := m w in f a w'.

Definition gets {A} (f : World -> A) : M A := fun w => (f w, w).

Definition modify (f : World -> World) : M unit := fun w => (tt, f w).

Declare Scope pm_scope.
Delimit Scope pm_scope with pm.
Notation "x <- m ;; k" := (bind m (fun x => k))
  (at level 100, m at next level, right associativity) : pm_scope.
Notation "m ;;; k" := (bind m (fun _ => k))
  (at level 100, right associativity) : pm_scope.
Local Open Scope pm_scope.

(** ** What the library calls and the sources do not define *)

(** The libc calls after which [errno] may hold a new value. *)
Inductive libc_call : Set :=
  | call_lockf | call_openlog | call_syslog | call_fprintf
  | call_snprintf | call_sigmask.

(** Constants of [PmLogLib.h] and [PmLogLibPrv.h], which are not part of the
    sources, and the process identity. *)
Class Header : Type := {
  kPmLogFlag_LogProcessIds : Z;
  kPmLogFlag_LogThreadIds  : Z;
  kPmLogFlag_LogToConsole  : Z;
  kPmLogFlag_Overridden    : Z;
  kPmLogValidateFormatFlag_LogWithClock : Z;
  kPmLogGlobalContextName     : string;
  kPmLogDefaultLibContextName : string;
  PMLOG_IDENTIFIER : string;
  LEGACY_LOG       : string;
  progname : string;        (* glibc's [__progname] *)
  getpid   : Z;
  gettid   : Z }.

(** libc, glib and pbnjson, and the configuration loader, which the spec
    leaves outside the core. *)
Class Externals : Type := {
  (** [errno] after a libc call made in a given state *)
  libc_errno  : libc_call -> World -> Z;
  (** [jsax_parse] over the permissive schema: does the text parse? *)
  jsax_parse  : string -> bool;
  (** [g_strescape (s, NULL)] *)
  g_strescape : string -> string;
  strerror    : Z -> string;
  (** the arguments of a variadic call, and what [vsnprintf] would write
      for a format with them given room: [None] is a negative return *)
  va_list     : Type;
  vformat     : string -> va_list -> option string;
  (** [PmLogPrvReadConfigs (parse_json_file)] *)
  PmLogPrvReadConfigs : World -> World }.

(** ** String helpers of libc *)

Definition strlen (s : string) : Z := Z.of_nat (String.length s).

(** What [snprintf], [strncpy] and the like leave in a buffer of [size]
    bytes when asked to write [s]: at most [size - 1] bytes of it. *)
Definition c_truncate (size : Z) (s : string) : string :=
  String.substring 0 (Z.to_nat (size - 1)) s.

(** [strchr (set, c) != NULL] for a character [c] other than the terminator. *)
Fixpoint strchr (set : string) (c : ascii) : bool :=
  match set with
  | EmptyString => false
  | String a rest => if decide (a = c) then true else strchr rest c
  end.

(** [strrchr (s, c)]: the offset of the last [c] in [s], if there is one. *)
Fixpoint strrchr (s : string) (c : ascii) : option nat :=
  match s with
  | EmptyString => None
  | String a rest =>
      match strrchr rest c with
      | Some i => Some (S i)
      | None => if decide (a = c) then Some O else None
      end
  end.

(** [strncmp (s, prefix, strlen (prefix)) == 0] *)
Fixpoint has_prefix (pre s : string) : bool :=
  match pre, s with
  | EmptyString, _ => true
  | String a pre', String b s' => if decide (a = b) then has_prefix pre' s' else false
  | String _ _, EmptyString => false
  end.

(** The value of a [char] as an unsigned byte. Where the C code compares a
    [char] with a constant, the outcome is the same whether [char] is signed
    or not: the comparisons below only separate 0..127 from the rest. *)
Definition char_code (c : ascii) : Z := Z.of_N (N_of_ascii c).

(** The double quote, for the texts of the diagnostics. *)
Definition dq : string := String "034"%char EmptyString.

(** ["k":"v"] as the diagnostics print it. *)
Definition json_field (k v : string) : string :=
  dq +:+ k +:+ dq +:+ ":" +:+ dq +:+ v +:+ dq.

(** [%s] applied to a pointer that may be NULL (glibc prints "(null)"). *)
Definition show_ptr (s : option string) : string := default "(null)" s.

(** ** Access to the contexts of the segment *)

Definition null_context : PmLogContext_ := mkContext (mkInfo 0 0) "".

(** Reading through a [PmLogContext_*]. A pointer past the array has no
    meaning in C; the model reads [null_context] there. *)
Definition load_ctx (g : PmLogGlobals) (p : ctx_ptr) : PmLogContext_ :=
  match p with
  | GlobalCtx => globalContext g
  | UserCtx i => default null_context (userContexts g !! i)
  end.

Definition set_userContexts (l : list PmLogContext_) (g : PmLogGlobals) : PmLogGlobals :=
  mkGlobals (signature g) (maxUserContexts g) (numUserContexts g)
            (contextLogging g) (consoleConf g) (devMode g) (globalContext g) l.

Definition set_numUserContexts (n : Z) (g : PmLogGlobals) : PmLogGlobals :=
  mkGlobals (signature g) (maxUserContexts g) n
            (contextLogging g) (consoleConf g) (devMode g) (globalContext g)
            (userContexts g).

Definition set_globalContext (c : PmLogContext_) (g : PmLogGlobals) : PmLogGlobals :=
  mkGlobals (signature g) (maxUserContexts g) (numUserContexts g)
            (contextLogging g) (consoleConf g) (devMode g) c (userContexts g).

(** Writing through a [PmLogContext_*]. *)
Definition store_ctx (p : ctx_ptr) (c : PmLogContext_) (g : PmLogGlobals) : PmLogGlobals :=
  match p with
  | GlobalCtx => set_globalContext c g
  | UserCtx i => set_userContexts (<[i := c]> (userContexts g)) g
  end.

Definition set_component (s : string) (c : PmLogContext_) : PmLogContext_ :=
  mkContext (info c) s.
Definition set_enabledLevel (l : Z) (c : PmLogContext_) : PmLogContext_ :=
  mkContext (mkInfo l (flags (info c))) (component c).
Definition set_flags (f : Z) (c : PmLogContext_) : PmLogContext_ :=
  mkContext (mkInfo (enabledLevel (info c)) f) (component c).

(** [*p] for a context pointer, in the current state. The code reads
    through the pointer itself ([contextP->info.enabledLevel],
    [contextP->component]), not through [gGlobalsP]: while [gGlobalsP] is
    NULL a pointer still leads into the mapped memory. *)
Definition deref (p : ctx_ptr) : M PmLogContext_ :=
  gets (fun w => match w_globals w with
                 | Some g => load_ctx g p
                 | None => load_ctx (w_mapped w) p
                 end).

(** [p->... = ...]: an update of the context [p] points to, on the segment
    and as an effect. The write goes through the pointer too. *)
Definition update_ctx (p : ctx_ptr) (f : PmLogContext_ -> PmLogContext_)
    (g : PmLogGlobals) : PmLogGlobals :=
  store_ctx p (f (load_ctx g p)) g.

Definition update (p : ctx_ptr) (f : PmLogContext_ -> PmLogContext_) : M unit :=
  modify (fun w => match w_globals w with
                   | Some g => set_globals (Some (update_ctx p f g)) w
                   | None => set_mapped (update_ctx p f (w_mapped w)) w
                   end).

Section Library.

Context {hdr : Header} {ext : Externals}.

(** ** libc calls *)

Definition libc (c : libc_call) : M unit :=
  modify (fun w => set_errno (libc_errno c w) w).

Definition block_signals : M sigset :=
  old_set <- gets w_sigmask ;;
  libc call_sigmask ;;;
  modify (set_sigmask SigFull) ;;;
  ret old_set.

Definition unblock_signals (old_set : sigset) : M unit :=
  libc call_sigmask ;;;
  modify (set_sigmask old_set).

Definition syslog (level : Z) (text : string) : M unit :=
  modify (push_syslog level text) ;;;
  libc call_syslog.

(** [fprintf (out, ...)] with [out] one of [stderr] ([true]) and [stdout]. *)
Definition fprintf (to_stderr : bool) (text : string) : M unit :=
  modify (if to_stderr then push_stderr text else push_stdout text) ;;;
  libc call_fprintf.

(** ** [CallSysLog], [ErrPrint], [WarnPrint]

    [msg] is the expansion of the format with its arguments. The C code
    returns early when the first [snprintf] fails, which a format of three
    [%s] cannot do. *)
Definition CallSysLog (context : string) (level : Z) (pidtid : string)
    (msg : string) : M unit :=
  let head := pidtid +:+ " " +:+ PMLOG_IDENTIFIER +:+ " " +:+ context +:+ " " in
  let index := strlen head in
  let buffer :=
    if decide (index < 1024) then head +:+ c_truncate (1024 - index) msg
    else c_truncate 1024 head in
  old_set <- block_signals ;;
  syslog level buffer ;;;
  unblock_signals old_set.

Definition ErrPrint (context pidtid msg : string) : M unit :=
  CallSysLog context LOG_ERR pidtid msg.

Definition WarnPrint (context pidtid msg : string) : M unit :=
  CallSysLog context LOG_WARNING pidtid msg.

(** ** [GetPidStr] *)
Definition GetPidStr (context : PmLogContext_) (ptidStrLen : Z) : string :=
  let f := flags (info context) in
  if decide (Z.land f kPmLogFlag_LogProcessIds ≠ 0 ∨
             Z.land f kPmLogFlag_LogThreadIds ≠ 0) then
    if decide (Z.land f kPmLogFlag_LogThreadIds ≠ 0 ∧ gettid ≠ getpid) then
      c_truncate ptidStrLen
        ("[" +:+ pretty getpid +:+ ":" +:+ pretty gettid +:+ "]")
    else
      c_truncate ptidStrLen ("[" +:+ pretty getpid +:+ "]")
  else
    c_truncate ptidStrLen "[]".

(** ** [validate_msgid]

    The loop either returns from the function ([inl]) or runs to the
    terminator and leaves [msgid_len] ([inr]). *)
Fixpoint validate_msgid_loop (component ptidStr msgid : string)
    (ptr_index : string) (msgid_len : Z) : M (PmLogErr + Z) :=
  match ptr_index with
  | EmptyString => ret (inr msgid_len)
  | String c rest =>
      if decide (msgid_len >= MSGID_LEN) then
        ErrPrint component ptidStr
          ("LONG_MSGID {" +:+ json_field "MSGID" msgid +:+
           "} MSGID's length is restricted within 32 characters") ;;;
        ret (inl kPmLogErr_InvalidMsgID)
      else if strchr " {}" c then
        ErrPrint component ptidStr
          ("INVALID_MSGID {" +:+ json_field "MSGID" msgid +:+
           "} MSGID contains space, { or }.") ;;;
        ret (inl kPmLogErr_InvalidMsgID)
      else
        validate_msgid_loop component ptidStr msgid rest (msgid_len + 1)
  end.

Definition validate_msgid (msgid : option string) (context_ptr : ctx_ptr)
    : M PmLogErr :=
  context <- deref context_ptr ;;
  let ptidStr := GetPidStr context PIDSTR_LEN in
  match msgid with
  | None =>
      ErrPrint (component context) ptidStr
        "NULL_MSGID {} NULL MSGID provided for non-debug log" ;;;
      ret kPmLogErr_InvalidMsgID
  | Some id =>
      r <- validate_msgid_loop (component context) ptidStr id id 0 ;;
      match r with
      | inl err => ret err
      | inr msgid_len =>
          if decide (msgid_len = 0) then ret kPmLogErr_EmptyMsgID
          else ret kPmLogErr_None
      end
  end.

(** ** [mystrcpy]: the new contents of [dst], which is never NULL here *)
Definition mystrcpy (dst : string) (dstSize : Z) (src : option string) : string :=
  if decide (dstSize < 1) then dst
  else match src with
       | None => ""
       | Some s =>
           if decide (strlen s >= dstSize)
           then String.substring 0 (Z.to_nat (dstSize - 1)) s
           else s
       end.

(** ** [strtruncate_and_escape] *)
Definition strtruncate_and_escape (source : string) : string :=
  g_strescape (String.substring 0 (Z.to_nat (TRUNCATED_MSG_SIZE - 1)) source).

(** ** Locking *)

Definition PmLogPrvLock : M unit := libc call_lockf.
Definition PmLogPrvUnlock : M unit := libc call_lockf.

(** ** Pointers and handles *)

(** [gGlobalContextP] *)
Definition gGlobalContextP : M (option ctx_ptr) :=
  gets (fun w => match w_globals w with
                 | Some _ => Some GlobalCtx
                 | None => None
                 end).

Definition PrvResolveContext (context : PmLogContext) : M (option ctx_ptr) :=
  match context with
  | None => gGlobalContextP
  | Some p => ret (Some p)
  end.

Definition PrvExportContext (contextP : option ctx_ptr) : PmLogContext := contextP.

Definition PrvIsValidLevel (level : Z) : bool :=
  bool_decide (level >= kPmLogLevel_Emergency) &&
  bool_decide (level <= kPmLogLevel_Debug).

(** ** [PrvValidateContextName] *)

(** One turn of the loop over the characters: [true] is [continue]. *)
Definition name_char_ok (c : ascii) : bool :=
  bool_decide (char_code "A" <= char_code c <= char_code "Z") ||
  bool_decide (char_code "a" <= char_code c <= char_code "z") ||
  bool_decide (char_code "0" <= char_code c <= char_code "9") ||
  bool_decide (c = "."%char ∨ c = "-"%char ∨ c = "_"%char).

Fixpoint name_chars_loop (contextName : string) : PmLogErr :=
  match contextName with
  | EmptyString => kPmLogErr_None
  | String c rest =>
      if name_char_ok c then name_chars_loop rest
      else kPmLogErr_InvalidContextName
  end.

Definition PrvValidateContextName (contextName : string) : PmLogErr :=
  if decide (contextName = kPmLogGlobalContextName) then kPmLogErr_None
  else if decide (contextName = kPmLogDefaultLibContextName) then kPmLogErr_None
  else
    let n := strlen contextName in
    if decide (n < 1 ∨ n > PMLOG_MAX_CONTEXT_NAME_LEN)
    then kPmLogErr_InvalidContextName
    else name_chars_loop contextName.

(** ** [PmLogGetNumContexts], [PmLogGetIndContext]

    An out-parameter is passed as the old value it points to ([None] for a
    NULL pointer) and returned as the new one. *)

Definition PmLogGetNumContexts (pNumContexts : option Z) : M (PmLogErr * option Z) :=
  match pNumContexts with
  | None => ret (kPmLogErr_InvalidParameter, None)
  | Some _ =>
      g <- gets w_globals ;;
      match g with
      | None => ret (kPmLogErr_Unknown, Some 0)
      | Some g => ret (kPmLogErr_None, Some (1 + numUserContexts g))
      end
  end.

(** The C code reads [gGlobalsP->numUserContexts] without a NULL check; its
    one caller has checked before. Without a segment the model rejects the
    index. *)
Definition PmLogGetIndContext (contextIndex : Z) (pContext : option PmLogContext)
    : M (PmLogErr * option PmLogContext) :=
  let cleared := match pContext with Some _ => Some None | None => None end in
  g <- gets w_globals ;;
  match g with
  | None => ret (kPmLogErr_InvalidContextIndex, cleared)
  | Some g =>
      if decide (contextIndex < 0 ∨ contextIndex > numUserContexts g)
      then ret (kPmLogErr_InvalidContextIndex, cleared)
      else match pContext with
           | None => ret (kPmLogErr_InvalidParameter, None)
           | Some _ =>
               let theContextP :=
                 if decide (contextIndex = 0) then GlobalCtx
                 else UserCtx (Z.to_nat (contextIndex - 1)) in
               ret (kPmLogErr_None, Some (PrvExportContext (Some theContextP)))
           end
  end.

(** ** Looking a name up

    The slots in use: [userContexts[0 .. numUserContexts - 1]]. *)
Definition used_contexts (g : PmLogGlobals) : list PmLogContext_ :=
  take (Z.to_nat (numUserContexts g)) (userContexts g).

(** [for (i = 0; i < numUserContexts; i++) if (strcmp (name,
    userContexts[i].component) == 0) ...]: the first slot in use with that
    name. *)
Definition find_user_context (name : string) (g : PmLogGlobals) : option nat :=
  fst <$> list_find (fun c => component c = name) (used_contexts g).

(** The loop "look for a match on the context name" of [PmLogFindContext]
    and [PmLogGetContext]: [i] runs from -1, which stands for the global
    context, to [numUserContexts - 1]. *)
Definition find_context (contextName : string) (g : PmLogGlobals) : option ctx_ptr :=
  if decide (-1 < numUserContexts g) then
    if decide (contextName = component (globalContext g)) then Some GlobalCtx
    else UserCtx <$> find_user_context contextName g
  else None.

(** ** [PmLogFindContext] *)
Definition PmLogFindContext (contextName : option string)
    (pContext : option PmLogContext) : M (PmLogErr * option PmLogContext) :=
  match pContext with
  | None => ret (kPmLogErr_InvalidParameter, None)
  | Some _ =>
      g <- gets w_globals ;;
      match g, contextName with
      | None, _ => ret (kPmLogErr_Unknown, Some None)
      | Some _, None => ret (kPmLogErr_InvalidParameter, Some None)
      | Some _, Some contextName =>
          let logErr := PrvValidateContextName contextName in
          if decide (logErr ≠ kPmLogErr_None) then ret (logErr, Some None)
          else
            PmLogPrvLock ;;;
            theContextP <- gets (fun w => w_globals w ≫= find_context contextName) ;;
            PmLogPrvUnlock ;;;
            match theContextP with
            | Some p => ret (kPmLogErr_None, Some (PrvExportContext (Some p)))
            | None => ret (kPmLogErr_ContextNotFound, Some None)
            end
      end
  end.

(** ** [PrvGetContextDefaults]

    Each turn of [for (;;)] cuts [parent] at its last dot, so [parent] gets
    shorter and [S (String.length parent)] turns are more than the loop can
    take. The result is the context whose [info] the C function returns the
    address of. *)
Fixpoint PrvGetContextDefaults_loop (turns : nat) (parent : string)
    (g : PmLogGlobals) : ctx_ptr :=
  match turns with
  | O => GlobalCtx
  | S turns' =>
      match strrchr parent "." with
      | None => GlobalCtx
      | Some s =>
          let parent' := String.substring 0 s parent in
          match find_user_context parent' g with
          | Some i => UserCtx i
          | None => PrvGetContextDefaults_loop turns' parent' g
          end
      end
  end.

Definition PrvGetContextDefaults (contextName : string) (g : PmLogGlobals) : ctx_ptr :=
  let parent := mystrcpy "" (PMLOG_MAX_CONTEXT_NAME_LEN + 1) (Some contextName) in
  PrvGetContextDefaults_loop (S (String.length parent)) parent g.

(** ** [PmLogGetContext] *)

(** The branch that adds a context. It runs with the lock held and acts on
    the segment only, statement by statement. A negative [numUserContexts]
    or one past the array has no meaning in C; the model then writes slot 0
    or nothing. *)
Definition add_context (contextName : string) (g : PmLogGlobals)
    : ctx_ptr * PmLogGlobals :=
  let theContextP := UserCtx (Z.to_nat (numUserContexts g)) in
  let g := set_numUserContexts (numUserContexts g + 1) g in
  let g := update_ctx theContextP
             (fun c => set_component
                         (mystrcpy (component c) (PMLOG_MAX_CONTEXT_NAME_LEN + 1)
                                   (Some contextName)) c) g in
  let defaultsP := PrvGetContextDefaults contextName g in
  let g := update_ctx theContextP
             (set_enabledLevel (enabledLevel (info (load_ctx g defaultsP)))) g in
  let g := update_ctx theContextP
             (set_flags (flags (info (load_ctx g defaultsP)))) g in
  (theContextP, g).

Definition PmLogGetContext (contextName : option string)
    (pContext : option PmLogContext) : M (PmLogErr * option PmLogContext) :=
  match pContext with
  | None => ret (kPmLogErr_InvalidParameter, None)
  | Some _ =>
      g <- gets w_globals ;;
      match g, contextName with
      | None, _ => ret (kPmLogErr_Unknown, Some None)
      | Some _, None =>
          gp <- gGlobalContextP ;;
          ret (kPmLogErr_None, Some (PrvExportContext gp))
      | Some _, Some contextName =>
          let logErr := PrvValidateContextName contextName in
          if decide (logErr ≠ kPmLogErr_None) then ret (logErr, Some None)
          else
            PmLogPrvLock ;;;
            connected <- gets w_syslogConnected ;;
            (if connected then ret tt
             else libc call_openlog ;;; modify (set_syslogConnected true)) ;;;
            let logErr := kPmLogErr_None in
            theContextP <- gets (fun w => w_globals w ≫= find_context contextName) ;;
            theContextP <-
              match theContextP with
              | Some p => ret (Some p)
              | None =>
                  full <- gets (fun w => match w_globals w with
                                         | Some g => bool_decide (numUserContexts g >= maxUserContexts g)
                                         | None => true
                                         end) ;;
                  if (full : bool) then ret None
                  else
                    g <- gets w_globals ;;
                    match g with
                    | None => ret None
                    | Some g =>
                        let r := add_context contextName g in
                        modify (set_globals (Some r.2)) ;;;
                        ret (Some r.1)
                    end
              end ;;
            PmLogPrvUnlock ;;;
            match theContextP with
            | Some p => ret (kPmLogErr_None, Some (PrvExportContext (Some p)))
            | None =>
                gp <- gGlobalContextP ;;
                ret (logErr, Some (PrvExportContext gp))
            end
      end
  end.

(** ** [PrvCheckContext] *)
Definition PrvCheckContext (contextP : ctx_ptr) (level : Z) : M PmLogErr :=
  if negb (PrvIsValidLevel level) then ret kPmLogErr_InvalidLevel
  else
    context <- deref contextP ;;
    if decide (level > enabledLevel (info context)) then ret kPmLogErr_LevelDisabled
    else ret kPmLogErr_None.

(** ** [PrvLogToConsole] *)
Definition ends_with_newline (s : string) : bool :=
  bool_decide (strlen s > 0) &&
  bool_decide (String.get (String.length s - 1)%nat s = Some "010"%char).

Definition PrvLogToConsole (to_stderr : bool) (identStr ptidStr componentStr s : string)
    : M unit :=
  let endStr := if ends_with_newline s then "" else String "010"%char "" in
  fprintf to_stderr (identStr +:+ ptidStr +:+ componentStr +:+ s +:+ endStr).

(** ** [HandleLogLibCommand] *)

(** [for (i = from; i < from + turns; ++i) body (i)] *)
Fixpoint for_loop (from : Z) (turns : nat) (body : Z -> M unit) : M unit :=
  match turns with
  | O => ret tt
  | S turns' => body from ;;; for_loop (from + 1) turns' body
  end.

(** One turn of the loop that gives the flags of the global context to the
    contexts whose flags were not set explicitly. *)
Definition propagate_global_flags (contextIndex : Z) : M unit :=
  r <- PmLogGetIndContext contextIndex (Some None) ;;
  if decide (r.1 ≠ kPmLogErr_None) then ret tt
  else
    contextP <- PrvResolveContext (default None r.2) ;;
    gp <- gGlobalContextP ;;
    match contextP, gp with
    | Some p, Some gp =>
        c <- deref p ;;
        if decide (Z.land (flags (info c)) kPmLogFlag_Overridden = 0) then
          gc <- deref gp ;;
          update p (set_flags (flags (info gc)))
        else ret tt
    | _, _ => ret tt
    end.

Definition HandleLogLibCommand (msg : string) : M bool :=
  let kLogLibCmdPrefix := "!loglib " in
  let kLogLibCmdPrefixLen := 8%nat in
  if negb (has_prefix kLogLibCmdPrefix msg) then ret false
  else
    let msg := String.substring kLogLibCmdPrefixLen
                 (String.length msg - kLogLibCmdPrefixLen) msg in
    if decide (msg = "loadconf") then
      modify PmLogPrvReadConfigs ;;;
      r <- PmLogGetNumContexts (Some 0) ;;
      if decide (r.1 ≠ kPmLogErr_None) then ret false
      else
        let contextsNumber := default 0 r.2 in
        for_loop 0 (Z.to_nat contextsNumber) propagate_global_flags ;;;
        ret true
    else ret false.

(** ** [PrvLogWrite]

    [gGlobalsP->consoleConf] is read without a NULL check; without a
    segment the model writes nothing to the console. *)
Definition PrvLogWrite (contextP : ctx_ptr) (level : Z) (msgid : option string)
    (s : string) : M PmLogErr :=
  savedErrNo <- gets w_errno ;;
  handled <- HandleLogLibCommand s ;;
  (if (handled : bool) then ret tt
   else
     let identStr := progname in
     context <- deref contextP ;;
     let ptidStr := GetPidStr context PIDSTR_LEN in
     let componentStr :=
       c_truncate (1 + PMLOG_MAX_CONTEXT_NAME_LEN + 3 + 1) (component context) in
     old_set <- block_signals ;;
     syslog level (ptidStr +:+ " " +:+ PMLOG_IDENTIFIER +:+ " " +:+ componentStr
                   +:+ " " +:+ default "" msgid +:+ " " +:+ s) ;;;
     unblock_signals old_set ;;;
     context <- deref contextP ;;
     if decide (Z.land (flags (info context)) kPmLogFlag_LogToConsole ≠ 0) then
       g <- gets w_globals ;;
       match g with
       | None => ret tt
       | Some g =>
           let consoleConfP := consoleConf g in
           let ptidStr :=
             if decide (ptidStr = "") then mystrcpy ptidStr PIDSTR_LEN (Some ": ")
             else ptidStr in
           (if decide (level >= stdErrMinLevel consoleConfP ∧
                       level <= stdErrMaxLevel consoleConfP)
            then PrvLogToConsole true identStr ptidStr componentStr s
            else ret tt) ;;;
           (if decide (level >= stdOutMinLevel consoleConfP ∧
                       level <= stdOutMaxLevel consoleConfP)
            then PrvLogToConsole false identStr ptidStr componentStr s
            else ret tt)
       end
     else ret tt) ;;;
  modify (set_errno savedErrNo) ;;;
  ret kPmLogErr_None.

(** ** [validate_json_string]

    [ptr_kvpairs] is the rest of [kvpairs] from offset [off]. [strstr]
    followed by the test of its result is a walk to the next offset where
    [search_str] starts; after a prefix that does not parse the C code
    moves on by [move_index], which is [skip] here. [previous_pos] is never
    assigned, so [json_str] holds the first [next_brace_pos] bytes of
    [kvpairs]. The result is the return value and the new [*logErr]. *)
Fixpoint validate_json_loop (search_str : string) (move_index : nat)
    (kvpairs ptr_kvpairs : string) (off skip : nat) (logErr : PmLogErr)
    : bool * PmLogErr :=
  match ptr_kvpairs with
  | EmptyString => (false, logErr)
  | String _ rest =>
      match skip with
      | S skip' =>
          validate_json_loop search_str move_index kvpairs rest (S off) skip' logErr
      | O =>
          if has_prefix search_str ptr_kvpairs then
            let next_brace_pos := (Z.of_nat off + Z.of_nat move_index)%Z in
            if decide (next_brace_pos > BUFFER_LEN - 1) then (false, kPmLogErr_TooMuchData)
            else if jsax_parse (String.substring 0 (Z.to_nat next_brace_pos) kvpairs)
            then (true, logErr)
            else validate_json_loop search_str move_index kvpairs rest (S off)
                   (move_index - 1) logErr
          else validate_json_loop search_str move_index kvpairs rest (S off) O logErr
      end
  end.

Definition validate_json_string (kvpairs : string) (logErr : PmLogErr)
    (with_tailing : bool) : bool * PmLogErr :=
  let search_str := if with_tailing then "} " else "}" in
  let move_index := if with_tailing then 2%nat else 1%nat in
  validate_json_loop search_str move_index kvpairs kvpairs O O logErr.

(** [snprintf]'s return value for an output of this text: its length, or a
    negative number when that does not fit an [int]. *)
Definition snprintf_ret (text : string) : Z :=
  if decide (strlen text > 2147483647) then -1 else strlen text.

(** The diagnostic of a key-value text that is not valid JSON. *)
Definition invalid_json_msg (msgid : option string) (logErr : PmLogErr)
    (escaped_str : string) : string :=
  let err_str :=
    if decide (logErr = kPmLogErr_TooMuchData)
    then "The json string exceeded 1024 bytes."
    else "The json string is wrong." in
  "INVALID_JSON {" +:+ json_field "MSGID" (show_ptr msgid) +:+ ", " +:+
  json_field "CAUSE" err_str +:+ "," +:+
  json_field "JSON" (escaped_str +:+ " ...") +:+ "}".

Definition empty_msgid_msg (escaped_str : string) : string :=
  "EMPTY_MSGID {" +:+ json_field "MESSAGE" (escaped_str +:+ " ...") +:+
  "} MSGID must not be empty".

(** ** [PmLogString_]

    The checks before the line is built either return ([inl]) or leave
    [logErr] and [ptr_msgid] ([inr]). *)
Definition PmLogString_checks (contextP : ctx_ptr) (level : Z)
    (msgid kvpairs message : option string)
    : M (PmLogErr + PmLogErr * option string) :=
  context <- deref contextP ;;
  let ptidStr := GetPidStr context PIDSTR_LEN in
  if decide (level ≠ kPmLogLevel_Debug) then
    logErr <- validate_msgid msgid contextP ;;
    if decide (kPmLogErr_InvalidMsgID = logErr) then ret (inl logErr)
    else
      match kvpairs with
      | Some kv =>
          let r := validate_json_string kv logErr false in
          if negb r.1 then
            ErrPrint (component context) ptidStr
              (invalid_json_msg msgid r.2 (strtruncate_and_escape kv)) ;;;
            ret (inl kPmLogErr_InvalidFormat)
          else ret (inr (r.2, msgid))
      | None => ret (inr (logErr, msgid))
      end
  else
    match msgid, kvpairs, message with
    | Some id, _, _ =>
        ErrPrint (component context) ptidStr
          ("DBGLVL_MSGID {" +:+ json_field "MSGID" id +:+
           "} MSGID should be NULL for debug level") ;;;
        ret (inl kPmLogErr_InvalidFormat)
    | None, Some _, _ =>
        ErrPrint (component context) ptidStr
          "DBGLVL_KVPAIRS {} kvpairs should be NULL for DEBUG level" ;;;
        ret (inl kPmLogErr_InvalidFormat)
    | None, None, None =>
        ErrPrint (component context) ptidStr "INVALID_FREESTRING {} " ;;;
        ret (inl kPmLogErr_InvalidFormat)
    | None, None, Some _ =>
        (* [logErr] still holds the result of [PrvCheckContext] *)
        ret (inr (kPmLogErr_None, Some DEBUG_MSG_ID))
    end.

Definition PmLogString_ (context : PmLogContext) (level : Z)
    (msgid kvpairs message : option string) : M PmLogErr :=
  contextP <- PrvResolveContext context ;;
  match contextP with
  | None => ret kPmLogErr_InvalidContext
  | Some contextP =>
      logErr <- PrvCheckContext contextP level ;;
      if decide (logErr ≠ kPmLogErr_None) then ret logErr
      else
        r <- PmLogString_checks contextP level msgid kvpairs message ;;
        match r with
        | inl err => ret err
        | inr (logErr, ptr_msgid) =>
            ctx <- deref contextP ;;
            let ptidStr := GetPidStr ctx PIDSTR_LEN in
            let text := default "{}" kvpairs +:+ " " +:+ default "" message in
            let lineStr := c_truncate BUFFER_LEN text in
            libc call_snprintf ;;;
            if decide (snprintf_ret text < 0) then
              e <- gets w_errno ;;
              ErrPrint (component ctx) ptidStr
                ("SNPRINTF_ERR {" +:+ json_field "MSGID" (show_ptr msgid) +:+ "," +:+
                 json_field "ERROR" (strerror e) +:+ "}") ;;;
              ret kPmLogErr_FormatStringFailed
            else if decide (kPmLogErr_EmptyMsgID = logErr) then
              ErrPrint (component ctx) ptidStr
                (empty_msgid_msg (strtruncate_and_escape lineStr)) ;;;
              ret kPmLogErr_InvalidFormat
            else PrvLogWrite contextP level ptr_msgid lineStr
        end
  end.

(** ** [PrvLogVPrint] *)
Definition PrvLogVPrint (contextP : ctx_ptr) (level : Z) (fmt : option string)
    (args : va_list) : M PmLogErr :=
  match fmt with
  | None => ret kPmLogErr_InvalidFormat
  | Some EmptyString => ret kPmLogErr_InvalidFormat
  | Some fmt =>
      libc call_snprintf ;;;
      match vformat fmt args with
      | None => ret kPmLogErr_FormatStringFailed
      | Some text => PrvLogWrite contextP level None (c_truncate BUFFER_LEN text)
      end
  end.

(** ** [PmLogPrint_] and [PmLogVPrint_]

    The variadic arguments of [PmLogPrint_] are the [va_list] that
    [va_start] makes of them. *)
Definition PmLogPrint_ (context : PmLogContext) (level : Z) (fmt : option string)
    (args : va_list) : M PmLogErr :=
  r <- PmLogGetContext (Some LEGACY_LOG) (Some context) ;;
  let forced_context :=
    if decide (r.1 ≠ kPmLogErr_None) then context else default context r.2 in
  contextP <- PrvResolveContext forced_context ;;
  match contextP with
  | None => ret kPmLogErr_InvalidContext
  | Some contextP =>
      logErr <- PrvCheckContext contextP level ;;
      if decide (logErr ≠ kPmLogErr_None) then ret logErr
      else PrvLogVPrint contextP level fmt args
  end.

Definition PmLogVPrint_ (context : PmLogContext) (level : Z) (fmt : option string)
    (args : va_list) : M PmLogErr :=
  r <- PmLogGetContext (Some LEGACY_LOG) (Some context) ;;
  let forced_context :=
    if decide (r.1 ≠ kPmLogErr_None) then context else default context r.2 in
  contextP <- PrvResolveContext forced_context ;;
  match contextP with
  | None => ret kPmLogErr_InvalidContext
  | Some contextP =>
      logErr <- PrvCheckContext contextP level ;;
      if decide (logErr ≠ kPmLogErr_None) then ret logErr
      else PrvLogVPrint contextP level fmt args
  end.

(** ** [validate_keys] *)

(** The INVALID_KEY text as it reaches syslog. [c] is the character [%c]
    prints; it is [None] when that character is the terminator: [%c] then
    writes a NUL into the buffer, and the text that [syslog] is handed ends
    there, after the opening quote of the field. *)
Definition invalid_key_msg (msgid : string) (current_key : Z) (c : option ascii)
    : string :=
  let upto :=
    "INVALID_KEY {" +:+ json_field "MSGID" msgid +:+ "," +:+ dq +:+ "KEY" +:+ dq +:+
    ":" +:+ pretty current_key +:+ "," +:+ dq +:+ "INVALID_CHAR" +:+ dq +:+ ":" +:+ dq in
  match c with
  | Some c => upto +:+ String c "" +:+ dq +:+ "}"
  | None => upto
  end.

(** [check_keywords[1]] is the terminator when [rest] is empty. *)
Fixpoint validate_keys_loop (context_name msgid : string) (check_keywords : string)
    (current_key : Z) : M bool :=
  match check_keywords with
  | EmptyString => ret true
  | String c rest =>
      if decide (SOH = c) then
        validate_keys_loop context_name msgid rest (current_key + 1)
      else if decide (char_code c < char_code " " ∨ char_code c >= 127) then
        ErrPrint context_name "[]"
          (invalid_key_msg msgid current_key (Some c)) ;;;
        ret false
      else if decide ("092"%char = c) then
        match rest with
        | String d rest' =>
            if decide ("034"%char = d ∨ "092"%char = d) then
              validate_keys_loop context_name msgid rest' current_key
            else
              ErrPrint context_name "[]"
                (invalid_key_msg msgid current_key (Some d)) ;;;
              ret false
        | EmptyString =>
            ErrPrint context_name "[]" (invalid_key_msg msgid current_key None) ;;;
            ret false
        end
      else validate_keys_loop context_name msgid rest current_key
  end.

Definition validate_keys (kv_count : Z) (check_keywords : option string)
    (context_name : string) (msgid : option string) : M bool :=
  match check_keywords with
  | None => ret false
  | Some keys =>
      if decide (kv_count = 0) then
        ErrPrint context_name "[]"
          ("MISSING_KV {" +:+ json_field "MSGID" (show_ptr msgid) +:+ "}") ;;;
        ret false
      else validate_keys_loop context_name (show_ptr msgid) keys 1
  end.

(** ** [validate_format] *)

(** The [while] loop: the number of [%] that are not followed by [%]. *)
Fixpoint count_conversions (format : string) (count : Z) : Z :=
  match format with
  | EmptyString => count
  | String c rest =>
      if decide ("%"%char = c) then
        match rest with
        | String d rest' =>
            if decide ("%"%char = d) then count_conversions rest' count
            else count_conversions rest (count + 1)
        | EmptyString => count + 1
        end
      else count_conversions rest count
  end.

(** [size_t] arithmetic. *)
Definition size_t_wrap (n : Z) : Z := n mod 2 ^ 64.

Definition validate_format (flags : Z) (kv_count : Z) (format : option string) : bool :=
  match format with
  | None => false
  | Some format =>
      if decide (kv_count = 0) then false
      else
        let count := count_conversions format 0 in
        if decide (Z.land flags kPmLogValidateFormatFlag_LogWithClock ≠ 0)
        then bool_decide (size_t_wrap (kv_count + 1) = count)
        else bool_decide (kv_count = count)
  end.

(** ** [_PmLogMsgKV]

    The checks before the text is formatted either return ([inl]) or leave
    [err] and [ptr_msgid] ([inr]). *)
Definition PmLogMsgKV_checks (context_ptr : ctx_ptr) (level : Z) (flags : Z)
    (msgid : option string) (kv_count : Z) (check_keywords check_formats : option string)
    : M (PmLogErr + PmLogErr * option string) :=
  context <- deref context_ptr ;;
  let ptidStr := GetPidStr context PIDSTR_LEN in
  let mismatched :=
    "MISMATCHED_FMT {" +:+ json_field "MSGID" (show_ptr msgid) +:+ "}" in
  if decide (kPmLogLevel_Debug ≠ level) then
    err <- validate_msgid msgid context_ptr ;;
    if decide (kPmLogErr_InvalidMsgID = err) then ret (inl err)
    else if decide (kv_count ≠ 0) then
      keys_ok <- validate_keys kv_count check_keywords (component context) msgid ;;
      if negb keys_ok then
        ErrPrint (component context) ptidStr mismatched ;;;
        ret (inl kPmLogErr_InvalidFormat)
      else if negb (validate_format flags kv_count check_formats) then
        ErrPrint (component context) ptidStr mismatched ;;;
        ret (inl kPmLogErr_InvalidFormat)
      else ret (inr (err, msgid))
    else ret (inr (err, msgid))
  else
    match msgid with
    | Some id =>
        ErrPrint (component context) ptidStr
          ("DBGLVL_MSGID {" +:+ json_field "MSGID" id +:+
           "} MSGID should be NULL for debug level") ;;;
        ret (inl kPmLogErr_InvalidFormat)
    | None =>
        if decide (kv_count ≠ 0) then
          ErrPrint (component context) ptidStr
            "DBGLVL_KVCOUNT {} kv_count should be 0 for DEBUG level" ;;;
          ret (inl kPmLogErr_InvalidFormat)
        else
          (* [err] still holds the result of [PrvCheckContext] *)
          ret (inr (kPmLogErr_None, Some DEBUG_MSG_ID))
    end.

Definition _PmLogMsgKV (context : PmLogContext) (level : Z) (flags : Z)
    (msgid : option string) (kv_count : Z) (check_keywords check_formats : option string)
    (fmt : string) (args : va_list) : M PmLogErr :=
  context_ptr <- PrvResolveContext context ;;
  match context_ptr with
  | None => ret kPmLogErr_InvalidContext
  | Some context_ptr =>
      err <- PrvCheckContext context_ptr level ;;
      if decide (kPmLogErr_None ≠ err) then ret err
      else
        r <- PmLogMsgKV_checks context_ptr level flags msgid kv_count
               check_keywords check_formats ;;
        match r with
        | inl err => ret err
        | inr (err, ptr_msgid) =>
            ctx <- deref context_ptr ;;
            let ptidStr := GetPidStr ctx PIDSTR_LEN in
            let empty_kv_pair_str := "{} " in
            let empty_kv_pair_size :=
              if decide (kv_count = 0) then strlen empty_kv_pair_str else 0 in
            let head := if decide (kv_count = 0) then empty_kv_pair_str else "" in
            libc call_snprintf ;;;
            match vformat fmt args with
            | None =>
                e <- gets w_errno ;;
                ErrPrint (component ctx) ptidStr
                  ("VSNPRN_ERR {" +:+ json_field "MSGID" (default "NULL" msgid) +:+ "," +:+
                   json_field "ERR_STR" (strerror e) +:+ "}") ;;;
                ret kPmLogErr_FormatStringFailed
            | Some text =>
                let tail := c_truncate (BUFFER_LEN - empty_kv_pair_size) text in
                let final_str := head +:+ tail in
                (if decide (strlen text >= BUFFER_LEN) then
                   WarnPrint (component ctx) ptidStr
                     ("MSG_TRUNCATED {" +:+ json_field "MSGID" (default "NULL" msgid) +:+ "," +:+
                      json_field "CAUSE" "Log message exceeded 1024 bytes" +:+ "," +:+
                      json_field "TRUNCATED_MSG" (strtruncate_and_escape tail +:+ " ...")
                      +:+ "}")
                 else ret tt) ;;;
                if decide (kPmLogErr_EmptyMsgID = err) then
                  ErrPrint (component ctx) ptidStr
                    (empty_msgid_msg (strtruncate_and_escape tail)) ;;;
                  ret kPmLogErr_InvalidFormat
                else if decide (kPmLogLevel_Debug ≠ level ∧ kv_count ≠ 0) then
                  let r := validate_json_string final_str err true in
                  if negb r.1 then
                    ErrPrint (component ctx) ptidStr
                      (invalid_json_msg msgid r.2 (strtruncate_and_escape final_str)) ;;;
                    ret kPmLogErr_InvalidFormat
                  else PrvLogWrite context_ptr level ptr_msgid final_str
                else PrvLogWrite context_ptr level ptr_msgid final_str
            end
        end
  end.

End Library.

(** * Notions of the specification *)

(** A registered user context: slot [i] is in use and holds [c]. *)
Definition user_context (g : PmLogGlobals) (i : nat) (c : PmLogContext_) : Prop :=
  Z.of_nat i < numUserContexts g ∧ userContexts g !! i = Some c.

(** [name] is the name of a context of the registry, global or user. *)
Definition registered (g : PmLogGlobals) (name : string) : Prop :=
  component (globalContext g) = name ∨
  ∃ i c, user_context g i c ∧ component c = name.

(** The invariant of the registry: the count is within the capacity bound,
    the bound is within the array, and no two user contexts share a name. *)
Record registry_ok (g : PmLogGlobals) : Prop := {
  count_nonneg : 0 <= numUserContexts g;
  count_bound  : numUserContexts g <= maxUserContexts g;
  array_bound  : maxUserContexts g <= Z.of_nat (length (userContexts g));
  names_unique : ∀ i j a b, user_context g i a → user_context g j b →
                 component a = component b → i = j }.

(** The characters a context name may have: [A-Za-z0-9._-]. *)
Definition allowed_char (c : ascii) : Prop :=
  65 <= char_code c <= 90 ∨ 97 <= char_code c <= 122 ∨ 48 <= char_code c <= 57 ∨
  char_code c = 46 ∨ char_code c = 45 ∨ char_code c = 95.

(** The name rule for names other than the two reserved ones: 1 to 31
    characters, all allowed. *)
Definition valid_name (name : string) : Prop :=
  1 <= strlen name <= 31 ∧ Forall allowed_char (list_ascii_of_string name).

(** [p] is an ancestor of [name]: [name] is [p], a dot, and more. *)
Definition is_ancestor (p name : string) : Prop :=
  ∃ rest, name = p +:+ String "."%char rest.

(** The characters a message-id must not have. *)
Definition forbidden_in_msgid (c : ascii) : Prop :=
  c = " "%char ∨ c = "{"%char ∨ c = "}"%char.

(** The number of keys a separator-delimited key list declares: one more
    than the number of separators. *)
Definition declared_keys (check_keywords : string) : Z :=
  1 + Z.of_nat (length (filter (fun c => c = SOH) (list_ascii_of_string check_keywords))).

(** The context a handle stands for: NULL is the global context. *)
Definition handle_ptr (context : PmLogContext) : ctx_ptr := default GlobalCtx context.

(** The line of a diagnostic that [ErrPrint] or [WarnPrint] writes about
    the context [c]: the head that [CallSysLog] builds from the ids, the
    identifier and the name of the context, and, when the head fits the
    buffer of 1024 bytes, the head followed by as much of the message as the
    buffer still takes. *)
Definition diagnostic_head {hdr : Header} (c : PmLogContext_) : string :=
  GetPidStr c PIDSTR_LEN +:+ " " +:+ PMLOG_IDENTIFIER +:+ " " +:+ component c +:+ " ".

Definition diagnostic_line {hdr : Header} (c : PmLogContext_) (msg : string) : string :=
  diagnostic_head c +:+ c_truncate (1024 - strlen (diagnostic_head c)) msg.

(** [level] is a severity that the context [p] lets through. *)
Definition level_enabled (g : PmLogGlobals) (p : ctx_ptr) (level : Z) : Prop :=
  kPmLogLevel_Emergency <= level <= kPmLogLevel_Debug ∧
  level <= enabledLevel (info (load_ctx g p)).

(** What the loop of [PrvGetContextDefaults] returns: the first user context
    with the name of the longest ancestor that names one, and the global
    context when no ancestor names one. *)
Definition nearest_default (name : string) (g : PmLogGlobals) (d : ctx_ptr) : Prop :=
  match d with
  | UserCtx i =>
      ∃ p, is_ancestor p name ∧ find_user_context p g = Some i ∧
           ∀ q, is_ancestor q name → (String.length p < String.length q)%nat →
                find_user_context q g = None
  | GlobalCtx => ∀ q, is_ancestor q name → find_user_context q g = None
  end.

(** What the locked region of [PmLogGetContext] decides: the handle stored
    and the segment left behind. *)
Definition get_or_add (contextName : string) (g : PmLogGlobals)
    : ctx_ptr * PmLogGlobals :=
  match find_context contextName g with
  | Some p => (p, g)
  | None =>
      if decide (numUserContexts g >= maxUserContexts g) then (GlobalCtx, g)
      else add_context contextName g
  end.

(** The segment with one more user context, named [name] and configured
    as [i], in the first free slot. *)
Definition with_context (name : string) (i : PmLogContextInfo) (g : PmLogGlobals)
    : PmLogGlobals :=
  set_userContexts
    (<[Z.to_nat (numUserContexts g) := mkContext i name]> (userContexts g))
    (set_numUserContexts (numUserContexts g + 1) g).

Section Dispatch.

Context {hdr : Header} {ext : Externals}.

(** What [PmLogPrint_] and [PmLogVPrint_] do once the context is settled:
    the enabled-check on that context, then the write on it. *)
Definition check_and_print (contextP : ctx_ptr) (level : Z) (fmt : option string)
    (args : va_list) : M PmLogErr :=
  logErr <- PrvCheckContext contextP level ;;
  if decide (logErr ≠ kPmLogErr_None) then ret logErr
  else PrvLogVPrint contextP level fmt args.

(** The same from a handle, which is resolved first. *)
Definition print_on (context : PmLogContext) (level : Z) (fmt : option string)
    (args : va_list) : M PmLogErr :=
  contextP <- PrvResolveContext context ;;
  match contextP with
  | None => ret kPmLogErr_InvalidContext
  | Some contextP => check_and_print contextP level fmt args
  end.

End Dispatch.

(** * A sample platform and registry, for the examples *)

Definition sample_header : Header := {|
  kPmLogFlag_LogProcessIds := 1;
  kPmLogFlag_LogThreadIds  := 2;
  kPmLogFlag_LogToConsole  := 4;
  kPmLogFlag_Overridden    := 8;
  kPmLogValidateFormatFlag_LogWithClock := 1;
  kPmLogGlobalContextName     := "<global>";
  kPmLogDefaultLibContextName := "<default-lib>";
  PMLOG_IDENTIFIER := "pmlog";
  LEGACY_LOG       := "LEGACY";
  progname := "app";
  getpid   := 100;
  gettid   := 101 |}.

(** Every libc call leaves [errno] at 11; every text that starts with a
    brace parses; the formatted text is the argument list itself. *)
Definition sample_externals : Externals := {|
  libc_errno  := fun _ _ => 11;
  jsax_parse  := has_prefix "{";
  g_strescape := fun s => s;
  strerror    := pretty;
  va_list     := option string;
  vformat     := fun _ args => args;
  PmLogPrvReadConfigs := fun w => w |}.

Definition sample_context (name : string) (level : Z) : PmLogContext_ :=
  mkContext (mkInfo level 0) name.

(** A segment of four slots with one user context, ["A"], at level info;
    the global context is at level warning. *)
Definition sample_globals : PmLogGlobals := {|
  signature       := 1;
  maxUserContexts := 4;
  numUserContexts := 1;
  contextLogging  := 0;
  consoleConf     := mkConsole 0 3 4 7;
  devMode         := true;
  globalContext   := sample_context "<global>" kPmLogLevel_Warning;
  userContexts    := [sample_context "A" kPmLogLevel_Info;
                      null_context; null_context; null_context] |}.

(** The same segment with every slot counted as used. *)
Definition full_globals : PmLogGlobals :=
  set_numUserContexts 4 sample_globals.

(** A message-id of 32 characters, and one of 31. *)
Definition msgid_32 : string := "ABCDEFGHIJKLMNOPQRSTUVWXYZ012345".
Definition msgid_31 : string := "ABCDEFGHIJKLMNOPQRSTUVWXYZ01234".

(** A state with [gGlobalsP] at [g]. The mapped memory holds the sample
    segment, so that without a registry the handle of ["A"] still leads to
    the context ["A"]. *)
Definition sample_world (g : option PmLogGlobals) : World := {|
  w_errno := 0;
  w_globals := g;
  w_syslogConnected := false;
  w_sigmask := SigMask 0;
  w_syslog := [];
  w_stderr := [];
  w_stdout := [];
  w_mapped := sample_globals |}.

(** * The rest of the library

    The label tables, the accessors of a context, the library context of the
    process, the start-up of the library and the data dump. *)

(** ** What these functions use and the sources do not define *)

(** Constants of the headers that only the functions below use. A pointer
    to a dump format is a number; NULL is [None]. *)
Class MoreHeader : Type := {
  PMLOG_SIGNATURE         : Z;
  PMLOG_MAX_NUM_CONTEXTS  : Z;
  kPmLogDumpFormatDefault : option N }.

(** The operating system as these functions see it. *)
Class Os : Type := {
  (** the bytes of /proc/self/cmdline, [None] when [fopen] fails *)
  proc_cmdline : option string;
  (** what [%p] prints for a handle *)
  show_pointer : PmLogContext -> string;
  (** [errno] after the named system call made in a given state *)
  sys_errno    : string -> World -> Z;
  (** whether /tmp/PmLogSetContextLevel.log opens, and whether its lock is
      granted *)
  devlog_opens : bool;
  devlog_locks : bool }.

(** ** [IntLabel] and the two tables

    A table is the list of its entries before the [{ NULL, 0 }] that ends
    it. The fields are [s] and [n] in C. *)
Record IntLabel : Set := mkLabel {
  label_s : string;
  label_n : Z }.

Fixpoint PrvGetIntLabel (labels : list IntLabel) (n : Z) : option string :=
  match labels with
  | [] => None
  | p :: rest => if decide (label_n p = n) then Some (label_s p)
                 else PrvGetIntLabel rest n
  end.

(** The result is the [n] the returned pointer points to. *)
Fixpoint PrvLabelToInt (labels : list IntLabel) (s : string) : option Z :=
  match labels with
  | [] => None
  | p :: rest => if decide (label_s p = s) then Some (label_n p)
                 else PrvLabelToInt rest s
  end.

Definition kLogLevelLabels : list IntLabel :=
  [ mkLabel "none"    kPmLogLevel_None;
    mkLabel "emerg"   kPmLogLevel_Emergency;
    mkLabel "alert"   kPmLogLevel_Alert;
    mkLabel "crit"    kPmLogLevel_Critical;
    mkLabel "err"     kPmLogLevel_Error;
    mkLabel "warning" kPmLogLevel_Warning;
    mkLabel "notice"  kPmLogLevel_Notice;
    mkLabel "info"    kPmLogLevel_Info;
    mkLabel "debug"   kPmLogLevel_Debug ].

Definition PmLogLevelToString (level : Z) : option string :=
  PrvGetIntLabel kLogLevelLabels level.

Definition PmLogStringToLevel (levelStr : string) : option Z :=
  PrvLabelToInt kLogLevelLabels levelStr.

(** The facility codes of syslog.h, as the comments of the table give
    them. *)
Definition LOG_KERN     : Z := Z.shiftl 0 3.
Definition LOG_USER     : Z := Z.shiftl 1 3.
Definition LOG_MAIL     : Z := Z.shiftl 2 3.
Definition LOG_DAEMON   : Z := Z.shiftl 3 3.
Definition LOG_AUTH     : Z := Z.shiftl 4 3.
Definition LOG_SYSLOG   : Z := Z.shiftl 5 3.
Definition LOG_LPR      : Z := Z.shiftl 6 3.
Definition LOG_NEWS     : Z := Z.shiftl 7 3.
Definition LOG_UUCP     : Z := Z.shiftl 8 3.
Definition LOG_CRON     : Z := Z.shiftl 9 3.
Definition LOG_AUTHPRIV : Z := Z.shiftl 10 3.
Definition LOG_FTP      : Z := Z.shiftl 11 3.
Definition LOG_LOCAL0   : Z := Z.shiftl 16 3.
Definition LOG_LOCAL1   : Z := Z.shiftl 17 3.
Definition LOG_LOCAL2   : Z := Z.shiftl 18 3.
Definition LOG_LOCAL3   : Z := Z.shiftl 19 3.
Definition LOG_LOCAL4   : Z := Z.shiftl 20 3.
Definition LOG_LOCAL5   : Z := Z.shiftl 21 3.
Definition LOG_LOCAL6   : Z := Z.shiftl 22 3.
Definition LOG_LOCAL7   : Z := Z.shiftl 23 3.

Definition kLogFacilityLabels : list IntLabel :=
  [ mkLabel "kern"     LOG_KERN;
    mkLabel "user"     LOG_USER;
    mkLabel "mail"     LOG_MAIL;
    mkLabel "daemon"   LOG_DAEMON;
    mkLabel "auth"     LOG_AUTH;
    mkLabel "syslog"   LOG_SYSLOG;
    mkLabel "lpr"      LOG_LPR;
    mkLabel "news"     LOG_NEWS;
    mkLabel "uucp"     LOG_UUCP;
    mkLabel "cron"     LOG_CRON;
    mkLabel "authpriv" LOG_AUTHPRIV;
    mkLabel "ftp"      LOG_FTP;
    mkLabel "local0"   LOG_LOCAL0;
    mkLabel "local1"   LOG_LOCAL1;
    mkLabel "local2"   LOG_LOCAL2;
    mkLabel "local3"   LOG_LOCAL3;
    mkLabel "local4"   LOG_LOCAL4;
    mkLabel "local5"   LOG_LOCAL5;
    mkLabel "local6"   LOG_LOCAL6;
    mkLabel "local7"   LOG_LOCAL7 ].

Definition PmLogFacilityToString (facility : Z) : option string :=
  PrvGetIntLabel kLogFacilityLabels facility.

Definition PmLogStringToFacility (facilityStr : string) : option Z :=
  PrvLabelToInt kLogFacilityLabels facilityStr.

Definition PrvGetLevelStr (level : Z) : string :=
  match PmLogLevelToString level with
  | Some s => s
  | None => "?"
  end.

(** The return value and the new [*levelP]. *)
Definition PrvParseConfigLevel (s : string) : bool * Z :=
  match PmLogStringToLevel s with
  | Some n => (true, n)
  | None => (false, -1)
  end.

(** ** [PmLogGetErrDbgString] *)
Definition PmLogGetErrDbgString (logErr : PmLogErr) : string :=
  match logErr with
  | kPmLogErr_None                => "None"
  | kPmLogErr_InvalidParameter    => "InvalidParameter"
  | kPmLogErr_InvalidContextIndex => "InvalidContextIndex"
  | kPmLogErr_InvalidContext      => "InvalidContext"
  | kPmLogErr_InvalidLevel        => "InvalidLevel"
  | kPmLogErr_InvalidFormat       => "InvalidFormat"
  | kPmLogErr_InvalidData         => "InvalidData"
  | kPmLogErr_NoData              => "NoData"
  | kPmLogErr_TooMuchData         => "TooMuchData"
  | kPmLogErr_LevelDisabled       => "LevelDisabled"
  | kPmLogErr_FormatStringFailed  => "FormatStringFailed"
  | kPmLogErr_TooManyContexts     => "TooManyContexts"
  | kPmLogErr_InvalidContextName  => "InvalidContextName"
  | kPmLogErr_ContextNotFound     => "ContextNotFound"
  | kPmLogErr_BufferTooSmall      => "BufferTooSmall"
  | kPmLogErr_InvalidMsgID        => "InvalidMsgID"
  | kPmLogErr_EmptyMsgID          => "EmptyMsgID"
  | kPmLogErr_LoggingDisabled     => "LoggingDisabled"
  | kPmLogErr_Unknown             => "Unknown"
  end.

(** ** [PrvSetFlag]: the new [*flagsP] *)
Definition PrvSetFlag (flagsP : Z) (flagValue : Z) (set : bool) : Z :=
  if set then Z.lor flagsP flagValue
  else Z.land flagsP (Z.lnot flagValue).

(** ** The data dump: one line of [DumpData_OffsetHexAscii] *)

Definition kHexChars : list ascii :=
  [ "0"; "1"; "2"; "3"; "4"; "5"; "6"; "7";
    "8"; "9"; "A"; "B"; "C"; "D"; "E"; "F" ]%char.

(** [kHexChars[n]] for [n] in 0..15. *)
Definition hex_char (n : Z) : ascii := nth (Z.to_nat n) kHexChars "0"%char.

(** The first eight characters of what [%08zX] prints for [n]: the text has
    as many digits as [n] needs and eight at least, and [lineP] starts
    writing at [lineBuff + 8]. *)
Definition offset_hex8 (n : Z) : string :=
  let width := Z.max 8 (Z.log2 n / 4 + 1) in
  string_of_list_ascii
    (map (fun j => hex_char ((n / 16 ^ (width - 1 - Z.of_nat j)) mod 16)) (seq 0 8)).

(** [srcP[i]], zero past the data. *)
Definition byte_at (srcP : list ascii) (i : nat) : ascii := nth i srcP "000"%char.

(** What the first [for] writes for the byte of index [i]. *)
Definition hex_cell (srcP : list ascii) (lineBytes : Z) (i : nat) : string :=
  (if decide (i = 8%nat) then " " else "") +:+
  (if decide (Z.of_nat i < lineBytes) then
     let b := char_code (byte_at srcP i) in
     String (hex_char (Z.land (Z.shiftr b 4) 15)) (String (hex_char (Z.land b 15)) "")
   else "  ") +:+ " ".

(** What the second [for] writes for it. *)
Definition ascii_cell (srcP : list ascii) (i : nat) : ascii :=
  let b := byte_at srcP i in
  if decide (char_code b >= 32 ∧ char_code b <= 126) then b else "."%char.

Definition kMaxBytesPerLine : Z := 16.
Definition kMaxLineLen : Z :=
  8 + 2 + kMaxBytesPerLine * 3 + 2 + 1 + kMaxBytesPerLine + 1.

Definition dump_line (srcP : list ascii) (srcOffset lineBytes : Z) : string :=
  offset_hex8 srcOffset +:+ "  " +:+
  String.concat "" (map (hex_cell srcP lineBytes) (seq 0 (Z.to_nat kMaxBytesPerLine))) +:+
  " |" +:+
  string_of_list_ascii (map (ascii_cell srcP) (seq 0 (Z.to_nat lineBytes))) +:+
  "|".

Section LibraryRest.

Context {hdr : Header} {ext : Externals} {hdr2 : MoreHeader} {os : Os}.

(** ** [defaultSet]

    Modelled from the spec: the header that declares [PmLogGlobals] is not
    part of the sources; the spec has the global context followed by up to
    [maxUserContexts] user contexts, so the array has
    [PMLOG_MAX_NUM_CONTEXTS] slots. The members the initializer leaves out
    are zero. *)
Definition defaultSet : PmLogGlobals := {|
  signature       := PMLOG_SIGNATURE;
  maxUserContexts := PMLOG_MAX_NUM_CONTEXTS;
  numUserContexts := 0;
  contextLogging  := 0;
  consoleConf     := mkConsole kPmLogLevel_Emergency kPmLogLevel_Error
                               kPmLogLevel_Warning kPmLogLevel_Debug;
  devMode         := true;
  globalContext   := mkContext (mkInfo kPmLogLevel_Info 0) kPmLogGlobalContextName;
  userContexts    := replicate (Z.to_nat PMLOG_MAX_NUM_CONTEXTS) null_context |}.

(** ** [PrvSetContextFlag] *)
Definition PrvSetContextFlag (contextP : option ctx_ptr) (flag : Z) (set : bool)
    : M PmLogErr :=
  match contextP with
  | None => ret kPmLogErr_InvalidContext
  | Some p =>
      update p (fun c => set_flags (PrvSetFlag (flags (info c)) flag set) c) ;;;
      (* we should also mark flags as overridden *)
      update p (fun c => set_flags
                  (PrvSetFlag (flags (info c)) kPmLogFlag_Overridden true) c) ;;;
      ret kPmLogErr_None
  end.

(** ** [GetCurrentProcessName]: the new [dst] and the return value *)
Fixpoint nul_to_space (s : string) : string :=
  match s with
  | EmptyString => EmptyString
  | String c rest =>
      String (if decide (c = "000"%char) then " "%char else c) (nul_to_space rest)
  end.

Definition sys (call : string) : M unit :=
  modify (fun w => set_errno (sys_errno call w) w).

Definition GetCurrentProcessName (dst : string) (size : Z) : M (string * Z) :=
  sys "fopen" ;;;
  match proc_cmdline with
  | Some bytes =>
      sys "fread" ;;;
      let dst := nul_to_space (String.substring 0 (Z.to_nat (size - 1)) bytes) in
      sys "fclose" ;;;
      ret (dst, strlen dst)
  | None => ret (dst, 0)
  end.

(** ** [PmLogSetLibContext], with [VALIDATE_INCOMING_LIBPROCESSCONTEXT]

    [libProcessContext] is passed in and its new value returned. The C code
    reads [gGlobalsP] without a NULL check; without a segment the model
    finds no context. *)
Definition lib_context_known (libContext : ctx_ptr) (g : PmLogGlobals) : bool :=
  if decide (PrvExportContext (Some GlobalCtx) ≠ Some libContext) then
    bool_decide (Exists (fun i => PrvExportContext (Some (UserCtx i)) = Some libContext)
                        (seq 0 (Z.to_nat (numUserContexts g))))
  else true.

Definition PmLogSetLibContext (libContext : PmLogContext)
    (libProcessContext : PmLogContext) : M PmLogContext :=
  invalid_value <-
    match libContext with
    | None => ret true
    | Some p =>
        PmLogPrvLock ;;;
        known <- gets (fun w => match w_globals w with
                                | Some g => lib_context_known p g
                                | None => false
                                end) ;;
        PmLogPrvUnlock ;;;
        ret (negb known)
    end ;;
  if (invalid_value : bool) then
    r <- GetCurrentProcessName "" 1024 ;;
    WarnPrint "UNKNOWN" "[]"
      ("Invalid context was passed to PmLogSetLibContext. Value: " +:+
       show_pointer libContext +:+ ". Process: " +:+
       String.substring 0 (Z.to_nat r.2) r.1) ;;;
    ret libProcessContext
  else ret libContext.

(** Modelled from the spec: [kPmLogDefaultContext] and [kPmLogGlobalContext]
    come from a header that is not part of the sources; the spec has the
    null handle be the default one, so both are NULL. *)
Definition PmLogGetLibContext (libProcessContext : PmLogContext) : PmLogContext :=
  match libProcessContext with
  | None => PrvExportContext (Some (UserCtx 0))
  | Some _ => libProcessContext
  end.

(** ** [PmLogSetDevMode] *)
Definition set_devMode (b : bool) (g : PmLogGlobals) : PmLogGlobals :=
  mkGlobals (signature g) (maxUserContexts g) (numUserContexts g)
            (contextLogging g) (consoleConf g) b (globalContext g) (userContexts g).

Definition PmLogSetDevMode (isDevMode : bool) : M unit :=
  PmLogPrvLock ;;;
  modify (fun w => set_globals (set_devMode isDevMode <$> w_globals w) w) ;;;
  PmLogPrvUnlock.

(** ** [PmLogGetContextInline] *)
Definition PmLogGetContextInline (contextName : option string) : M PmLogContext :=
  r <- PmLogGetContext contextName (Some None) ;;
  if decide (r.1 = kPmLogErr_None) then ret (default None r.2)
  else ret None.

(** ** [PmLogGetContextName]

    [contextName] is the old contents of the buffer, [None] for a NULL
    pointer; the result has the new contents. *)
Definition PmLogGetContextName (context : PmLogContext) (contextName : option string)
    (contextNameBuffSize : Z) : M (PmLogErr * option string) :=
  let contextName :=
    match contextName with
    | Some _ => if decide (contextNameBuffSize > 0) then Some "" else contextName
    | None => None
    end in
  contextP <- PrvResolveContext context ;;
  match contextP, contextName with
  | None, _ => ret (kPmLogErr_InvalidContext, contextName)
  | Some _, None => ret (kPmLogErr_InvalidParameter, contextName)
  | Some p, Some buf =>
      if decide (contextNameBuffSize <= 1) then ret (kPmLogErr_InvalidParameter, contextName)
      else
        c <- deref p ;;
        let buf := mystrcpy buf contextNameBuffSize (Some (component c)) in
        if decide (contextNameBuffSize < strlen (component c) + 1)
        then ret (kPmLogErr_BufferTooSmall, Some buf)
        else ret (kPmLogErr_None, Some buf)
  end.

(** ** [PmLogGetContextLevel] *)
Definition PmLogGetContextLevel (context : PmLogContext) (levelP : option Z)
    : M (PmLogErr * option Z) :=
  let levelP := match levelP with Some _ => Some kPmLogLevel_Debug | None => None end in
  contextP <- PrvResolveContext context ;;
  match contextP, levelP with
  | None, _ => ret (kPmLogErr_InvalidContext, levelP)
  | Some _, None => ret (kPmLogErr_InvalidParameter, levelP)
  | Some p, Some _ =>
      c <- deref p ;;
      ret (kPmLogErr_None, Some (enabledLevel (info c)))
  end.

(** ** [PmLogSetContextLevel]

    In developer mode the call appends a record of who asked for what to a
    file under /tmp; of that the model keeps the system calls, for what
    they may do to [errno]. [gGlobalsP->devMode] is read without a NULL
    check; without a segment the model takes the mode to be off. *)
Definition PmLogSetContextLevel (context : PmLogContext) (level : Z) : M PmLogErr :=
  contextP <- PrvResolveContext context ;;
  match contextP with
  | None => ret kPmLogErr_InvalidContext
  | Some p =>
      if bool_decide (level ≠ kPmLogLevel_None) && negb (PrvIsValidLevel level)
      then ret kPmLogErr_InvalidLevel
      else
        dev <- gets (fun w => match w_globals w with
                              | Some g => devMode g
                              | None => false
                              end) ;;
        (if (dev : bool) then
           sys "open" ;;;
           if devlog_opens then
             sys "fcntl" ;;;
             (if devlog_locks then
                r <- GetCurrentProcessName "" 512 ;;
                sys "write"
              else ret tt) ;;;
             sys "fcntl" ;;;
             sys "close"
           else ret tt
         else ret tt) ;;;
        update p (set_enabledLevel level) ;;;
        ret kPmLogErr_None
  end.

(** ** [PrvInitContext]: the return value and the new [errMsg] *)
Definition PrvInitContext (contextName : string) (levelStr : string)
    (errMsgBuffSize : Z) : M (bool * string) :=
  let r := PrvParseConfigLevel levelStr in
  if negb r.1 then ret (false, mystrcpy "" errMsgBuffSize (Some "Failed to parse level"))
  else
    let level := r.2 in
    g <- PmLogGetContext (Some contextName) (Some None) ;;
    let logErr := g.1 in
    let context := default None g.2 in
    if decide (logErr ≠ kPmLogErr_None) then
      ret (false, c_truncate errMsgBuffSize
                    ("Error getting context: " +:+ PmLogGetErrDbgString logErr))
    else
      logErr <- PmLogSetContextLevel context level ;;
      if decide (logErr ≠ kPmLogErr_None) then
        ret (false, c_truncate errMsgBuffSize
                      ("Error setting context level: " +:+ PmLogGetErrDbgString logErr))
      else
        (* initializing context flags with global values by default *)
        contextP <- PrvResolveContext context ;;
        match contextP with
        | None =>
            ret (false, c_truncate errMsgBuffSize
                          ("Error setting context flags: " +:+
                           PmLogGetErrDbgString kPmLogErr_ContextNotFound))
        | Some p =>
            gp <- gGlobalContextP ;;
            match gp with
            | Some gp =>
                gc <- deref gp ;;
                update p (set_flags (flags (info gc)))
            | None => ret tt
            end ;;;
            ret (true, "")
        end.

(** ** [init_function]

    What the system calls of the constructor give: whether the lock file
    opens, whether [ftok] and [shmget] succeed, and the segment [shmat]
    maps, [None] when it fails. A segment the system has just created is
    all zero. *)
Record attach_env : Set := mkAttach {
  open_ok   : bool;
  ftok_ok   : bool;
  shmget_ok : bool;
  shmat_seg : option PmLogGlobals }.

(** The branch that initializes the segment from [defaultSet] and registers
    the default library context. *)
Definition init_segment : PmLogGlobals :=
  let g := defaultSet in
  let theContextP := UserCtx 0 in
  let g := set_numUserContexts (numUserContexts g + 1) g in
  let g := update_ctx theContextP
             (fun c => set_component
                         (mystrcpy (component c) (PMLOG_MAX_CONTEXT_NAME_LEN + 1)
                                   (Some kPmLogDefaultLibContextName)) c) g in
  let g := update_ctx theContextP (set_enabledLevel kPmLogLevel_Info) g in
  update_ctx theContextP (set_flags 0) g.

Definition init_function (env : attach_env) : M unit :=
  sys "open" ;;;
  if negb (open_ok env) then ret tt
  else
    sys "ftok" ;;;
    if negb (ftok_ok env) then ret tt
    else
      PmLogPrvLock ;;;
      sys "shmget" ;;;
      if negb (shmget_ok env) then ret tt
      else
      sys "shmat" ;;;
      match shmat_seg env with
      | None => ret tt
      | Some seg =>
          (* gGlobalsP and gGlobalContextP now point into the segment *)
          modify (set_globals (Some seg)) ;;;
          needInit <-
            (if decide (signature seg = 0) then
               modify (set_globals (Some init_segment)) ;;; ret true
             else if decide (signature seg = PMLOG_SIGNATURE) then ret false
             else
               (* the segment stays mapped *)
               modify (fun w => set_mapped seg (set_globals None w)) ;;; ret false) ;;
          PmLogPrvUnlock ;;;
          if (needInit : bool) then modify PmLogPrvReadConfigs else ret tt
      end.

(** ** [DumpData_OffsetHexAscii] and [PmLogDumpData_]

    [srcP] is the data from the current position on. Every turn of the
    [while] moves on by at least one byte, so [turns] at [dataSize] are
    enough. *)
Fixpoint DumpData_loop (turns : nat) (contextP : ctx_ptr) (level : Z)
    (srcP : list ascii) (srcOffset dataSize : Z) (logErr : PmLogErr) : M PmLogErr :=
  match turns with
  | O => ret logErr
  | S turns' =>
      if decide (srcOffset < dataSize) then
        let lineBytes := dataSize - srcOffset in
        let lineBytes :=
          if decide (lineBytes > kMaxBytesPerLine) then kMaxBytesPerLine else lineBytes in
        let lineBuff := dump_line srcP srcOffset lineBytes in
        logErr <- PrvLogWrite contextP level None lineBuff ;;
        if decide (logErr ≠ kPmLogErr_None) then ret logErr
        else DumpData_loop turns' contextP level (drop (Z.to_nat lineBytes) srcP)
               (srcOffset + lineBytes) dataSize logErr
      else ret logErr
  end.

Definition DumpData_OffsetHexAscii (contextP : ctx_ptr) (level : Z)
    (dataP : list ascii) (dataSize : Z) : M PmLogErr :=
  DumpData_loop (Z.to_nat dataSize) contextP level dataP 0 dataSize kPmLogErr_NoData.

Definition PmLogDumpData_ (context : PmLogContext) (level : Z)
    (data : option (list ascii)) (numBytes : Z) (format : option N) : M PmLogErr :=
  contextP <- PrvResolveContext context ;;
  match contextP with
  | None => ret kPmLogErr_InvalidContext
  | Some contextP =>
      logErr <- PrvCheckContext contextP level ;;
      if decide (logErr ≠ kPmLogErr_None) then ret logErr
      else if decide (numBytes = 0) then ret kPmLogErr_NoData
      else match data with
           | None => ret kPmLogErr_InvalidData
           | Some pData =>
               if decide (format ≠ kPmLogDumpFormatDefault) then ret kPmLogErr_InvalidFormat
               else DumpData_OffsetHexAscii contextP level pData numBytes
           end
  end.

End LibraryRest.

(** ** Notions for the properties of these functions *)

(** A context pointer that points into the segment. *)
Definition ptr_in_segment (g : PmLogGlobals) (p : ctx_ptr) : Prop :=
  match p with
  | GlobalCtx => True
  | UserCtx i => (i < length (userContexts g))%nat
  end.


(** A character a key list may have: the separator or printable ASCII. *)
Definition key_char (c : ascii) : Prop :=
  c = SOH ∨ 32 <= char_code c < 127.


(** The sample values of the constants and of the system for the functions
    above. *)
Definition sample_more_header : MoreHeader := {|
  PMLOG_SIGNATURE         := 4660;
  PMLOG_MAX_NUM_CONTEXTS  := 4;
  kPmLogDumpFormatDefault := None |}.

Definition sample_os : Os := {|
  proc_cmdline := Some "app";
  show_pointer := fun _ => "0x0";
  sys_errno    := fun _ _ => 13;
  devlog_opens := true;
  devlog_locks := true |}.

(** A command line of two arguments, [a] and [b]: the kernel separates
    them by a NUL byte. *)
Definition sample_os_args : Os := {|
  proc_cmdline := Some (String "a"%char (String "000"%char (String "b"%char "")));
  show_pointer := fun _ => "0x0";
  sys_errno    := fun _ _ => 13;
  devlog_opens := true;
  devlog_locks := true |}.

(** * Properties *)

Section Properties.

Context {hdr : Header} {ext : Externals}.

(** ** The state monad and the primitive effects *)

Lemma bind_run {A B} (m : M A) (f : A -> M B) (w : World) :
  bind m f w = f (m w).1 (m w).2.
Proof. unfold bind. by destruct (m w). Qed.

(** ** Strings *)

Lemma strlen_nonneg s : 0 <= strlen s.
Proof. unfold strlen. lia. Qed.

Lemma strlen_String c s : strlen (String c s) = 1 + strlen s.
Proof. unfold strlen. simpl. lia. Qed.

Lemma strchr_forbidden c : strchr " {}" c = true ↔ forbidden_in_msgid c.
Proof.
  unfold forbidden_in_msgid, strchr.
  destruct (decide (" "%char = c)); [by intuition|].
  destruct (decide ("{"%char = c)); [by intuition|].
  destruct (decide ("}"%char = c)); [by intuition|].
  split; [done|]. by intros [|[|]].
Qed.

Lemma append_String c p s : String c p +:+ s = String c (p +:+ s).
Proof. reflexivity. Qed.

Lemma length_append p s :
  String.length (p +:+ s) = (String.length p + String.length s)%nat.
Proof. induction p as [|c p IH]; [done|]. rewrite append_String. simpl. by rewrite IH. Qed.

Lemma substring_0_String n c s :
  String.substring 0 (S n) (String c s) = String c (String.substring 0 n s).
Proof. reflexivity. Qed.

Lemma substring_0_0 s : String.substring 0 0 s = "".
Proof. by destruct s. Qed.

(** Cutting a string before its length changes nothing. *)
Lemma substring_all s n : (String.length s <= n)%nat → String.substring 0 n s = s.
Proof.
  revert n. induction s as [|c s IH]; intros [|n] Hn; simpl in *; try done; try lia.
  f_equal. apply IH. lia.
Qed.

(** [strrchr] splits the string at the last occurrence. *)
Lemma strrchr_Some s c i :
  strrchr s c = Some i →
  ∃ r, s = String.substring 0 i s +:+ String c r ∧ strrchr r c = None ∧
       String.length (String.substring 0 i s) = i.
Proof.
  revert i. induction s as [|a s IH]; intros i Hi; [done|].
  simpl in Hi. destruct (strrchr s c) as [j|] eqn:Hj.
  - injection Hi as <-. destruct (IH j eq_refl) as (r & Hs & Hr & Hlen).
    exists r. rewrite substring_0_String, append_String. simpl.
    split_and!; [by f_equal | done | by f_equal].
  - case_decide; [|done]. injection Hi as <-. subst a.
    exists s. by rewrite substring_0_0.
Qed.

Lemma strrchr_None s c p r : strrchr s c = None → s ≠ p +:+ String c r.
Proof.
  revert p. induction s as [|a s IH]; intros p Hs Heq.
  - by destruct p.
  - simpl in Hs. destruct (strrchr s c) eqn:Hj; [done|]. case_decide; [done|].
    destruct p as [|b p].
    + injection Heq as ??. done.
    + rewrite append_String in Heq. injection Heq as ??. by eapply IH.
Qed.

(** Two ways of cutting one string at a [c], the second at the last one. *)
Lemma split_at_last c p r p' r' :
  p +:+ String c r = p' +:+ String c r' → strrchr r' c = None →
  p = p' ∨ ∃ x, p' = p +:+ String c x.
Proof.
  revert p'. induction p as [|a p IH]; intros [|a' p'] Heq Hr'.
  - by left.
  - right. change (String c r = String a' (p' +:+ String c r')) in Heq.
    injection Heq as -> ->. by exists p'.
  - change (String a (p +:+ String c r) = String c r') in Heq.
    injection Heq as -> Heq. exfalso. by eapply strrchr_None.
  - rewrite !append_String in Heq. injection Heq as -> Heq.
    destruct (IH _ Heq Hr') as [->|[x ->]]; [by left|right; by exists x].
Qed.

(** ** Ancestors *)

Lemma ancestor_shorter q p : is_ancestor q p → (String.length q < String.length p)%nat.
Proof. intros [rest ->]. rewrite length_append. simpl. lia. Qed.

(** Cutting at the last dot gives the nearest ancestor: every other ancestor
    is an ancestor of it. *)
Lemma ancestors_at_last_dot parent s :
  strrchr parent "." = Some s →
  is_ancestor (String.substring 0 s parent) parent ∧
  ∀ q, is_ancestor q parent →
       q = String.substring 0 s parent ∨ is_ancestor q (String.substring 0 s parent).
Proof.
  intros (r & Hp & Hr & _)%strrchr_Some. split; [by exists r|].
  intros q [rest Hq]. rewrite Hp in Hq at 1.
  symmetry in Hq. destruct (split_at_last _ _ _ _ _ Hq Hr) as [->|[x Hx]]; [by left|].
  right. by exists x.
Qed.

Lemma no_dot_no_ancestor parent q : strrchr parent "." = None → ¬ is_ancestor q parent.
Proof. intros Hp [rest Hq]. by eapply strrchr_None. Qed.

Lemma ancestor_trans q p name : is_ancestor q p → is_ancestor p name → is_ancestor q name.
Proof.
  intros [r1 ->] [r2 ->]. exists (r1 +:+ String "."%char r2).
  induction q as [|c q IH]; [done|]. rewrite !append_String. by f_equal.
Qed.

Lemma PrvGetContextDefaults_loop_nearest turns parent g :
  (String.length parent < turns)%nat →
  nearest_default parent g (PrvGetContextDefaults_loop turns parent g).
Proof.
  revert parent. induction turns as [|turns IH]; intros parent Hlen; [lia|].
  simpl. destruct (strrchr parent ".") as [s|] eqn:Hs.
  - destruct (ancestors_at_last_dot _ _ Hs) as [Hanc Hothers].
    set (parent' := String.substring 0 s parent) in *.
    pose proof (ancestor_shorter _ _ Hanc) as Hshort.
    destruct (find_user_context parent' g) as [i|] eqn:Hfind.
    + exists parent'. split_and!; [done..|].
      intros q Hq Hlt. destruct (Hothers q Hq) as [->|Hq']; [lia|].
      apply ancestor_shorter in Hq'. lia.
    + specialize (IH parent' ltac:(lia)).
      destruct (PrvGetContextDefaults_loop turns parent' g) as [|i]; simpl in *.
      * intros q Hq. destruct (Hothers q Hq) as [->|Hq']; [done|by apply IH].
      * destruct IH as (p & Hp & Hfp & Hlonger). exists p.
        split_and!; [by eapply ancestor_trans|done|].
        intros q Hq Hlt. destruct (Hothers q Hq) as [->|Hq']; [done|by apply Hlonger].
  - intros q Hq. by apply no_dot_no_ancestor in Hq.
Qed.

(** ** [validate_msgid] *)

(** One turn of the loop. *)
Lemma validate_msgid_loop_step component ptidStr msgid c rest n :
  validate_msgid_loop component ptidStr msgid (String c rest) n =
  if decide (n >= MSGID_LEN) then
    ErrPrint component ptidStr
      ("LONG_MSGID {" +:+ json_field "MSGID" msgid +:+
       "} MSGID's length is restricted within 32 characters") ;;;
    ret (inl kPmLogErr_InvalidMsgID)
  else if strchr " {}" c then
    ErrPrint component ptidStr
      ("INVALID_MSGID {" +:+ json_field "MSGID" msgid +:+
       "} MSGID contains space, { or }.") ;;;
    ret (inl kPmLogErr_InvalidMsgID)
  else validate_msgid_loop component ptidStr msgid rest (n + 1).
Proof. reflexivity. Qed.

(** The loop over an id with no forbidden character that stays within the
    bound runs to the end. *)
Lemma validate_msgid_loop_finishes component ptidStr msgid ptr n w :
  Forall (fun c => ¬ forbidden_in_msgid c) (list_ascii_of_string ptr) →
  n + strlen ptr <= MSGID_LEN →
  validate_msgid_loop component ptidStr msgid ptr n w = (inr (n + strlen ptr), w).
Proof.
  revert n. induction ptr as [|c rest IH]; intros n Hok Hlen.
  - simpl. unfold ret, strlen. simpl. do 2 f_equal. lia.
  - rewrite strlen_String in Hlen. pose proof (strlen_nonneg rest).
    simpl in Hok. apply Forall_cons in Hok as [Hc Hrest].
    rewrite validate_msgid_loop_step. case_decide; [lia|].
    destruct (strchr " {}" c) eqn:Hf.
    { apply strchr_forbidden in Hf. done. }
    rewrite IH by (done || lia). rewrite strlen_String. do 2 f_equal. lia.
Qed.

(** Past the bound the loop returns [kPmLogErr_InvalidMsgID], whatever the
    characters are. *)
Lemma validate_msgid_loop_long component ptidStr msgid ptr n w :
  ptr ≠ "" → n + strlen ptr > MSGID_LEN →
  (validate_msgid_loop component ptidStr msgid ptr n w).1 = inl kPmLogErr_InvalidMsgID.
Proof.
  revert n. induction ptr as [|c rest IH]; intros n Hne Hlen; [done|].
  rewrite strlen_String in Hlen.
  rewrite validate_msgid_loop_step. case_decide; [done|].
  destruct (strchr " {}" c); [done|].
  apply IH; [|lia].
  intros ->. unfold strlen, MSGID_LEN in *. simpl in *. lia.
Qed.

(** A forbidden character makes the loop return [kPmLogErr_InvalidMsgID]. *)
Lemma validate_msgid_loop_forbidden component ptidStr msgid ptr n w :
  Exists forbidden_in_msgid (list_ascii_of_string ptr) →
  (validate_msgid_loop component ptidStr msgid ptr n w).1 = inl kPmLogErr_InvalidMsgID.
Proof.
  revert n. induction ptr as [|c rest IH]; intros n Hex.
  - by apply Exists_nil in Hex.
  - simpl in Hex. apply Exists_cons in Hex.
    rewrite validate_msgid_loop_step. case_decide; [done|].
    destruct (strchr " {}" c) eqn:Hf; [done|].
    apply IH. destruct Hex as [Hc|]; [|done].
    apply strchr_forbidden in Hc. congruence.
Qed.

(** What [validate_msgid] answers for an id without forbidden characters:
    the bound it enforces is 32 characters, not 31. *)
Lemma validate_msgid_by_length id context_ptr w :
  Forall (fun c => ¬ forbidden_in_msgid c) (list_ascii_of_string id) →
  (validate_msgid (Some id) context_ptr w).1 =
    if decide (strlen id = 0) then kPmLogErr_EmptyMsgID
    else if decide (strlen id <= MSGID_LEN) then kPmLogErr_None
    else kPmLogErr_InvalidMsgID.
Proof.
  intros Hok. unfold validate_msgid.
  rewrite bind_run. unfold deref at 1, gets at 1. cbn [fst snd].
  rewrite bind_run.
  destruct (decide (strlen id <= MSGID_LEN)) as [Hle|Hgt].
  - rewrite validate_msgid_loop_finishes by (done || lia). cbn [fst snd].
    rewrite Z.add_0_l. by repeat case_decide.
  - assert (strlen id ≠ 0) by (unfold MSGID_LEN in Hgt; lia).
    rewrite validate_msgid_loop_long; [|by intros ->|lia].
    by case_decide.
Qed.

(** ** [PmLogGetContext] and [PmLogFindContext] on a usable segment *)

Lemma PmLogGetContext_run name pc w g :
  w_globals w = Some g →
  PrvValidateContextName name = kPmLogErr_None →
  ∃ w', PmLogGetContext (Some name) (Some pc) w =
          ((kPmLogErr_None, Some (Some (get_or_add name g).1)), w') ∧
        w_globals w' = Some (get_or_add name g).2 ∧
        w_syslog w' = w_syslog w.
Proof.
  intros Hg Hv. destruct w as [e g0 conn mask sl se so mem]. simpl in Hg. subst g0.
  unfold PmLogGetContext, get_or_add.
  rewrite bind_run. cbn [gets fst snd w_globals]. rewrite Hv.
  case_decide; [done|].
  unfold PmLogPrvLock, PmLogPrvUnlock, gGlobalContextP, libc, bind, gets, modify, ret.
  destruct (find_context name g) as [p|] eqn:Hf.
  - destruct conn; cbn -[find_context]; rewrite Hf; cbn;
      eexists; split_and!; reflexivity.
  - destruct (decide (numUserContexts g >= maxUserContexts g)) as [Hfull|Hfree].
    + destruct conn; cbn -[find_context bool_decide add_context]; rewrite Hf;
        cbn -[bool_decide add_context];
        rewrite (bool_decide_eq_true_2 _ Hfull); cbn; eexists; split_and!; reflexivity.
    + destruct conn; cbn -[find_context bool_decide add_context]; rewrite Hf;
        cbn -[bool_decide add_context];
        rewrite (bool_decide_eq_false_2 _ Hfree); cbn -[add_context];
        eexists; split_and!; reflexivity.
Qed.

(** ** Adding a context *)

Lemma mystrcpy_fits dst name :
  strlen name <= PMLOG_MAX_CONTEXT_NAME_LEN →
  mystrcpy dst (PMLOG_MAX_CONTEXT_NAME_LEN + 1) (Some name) = name.
Proof.
  intros Hlen. unfold mystrcpy, PMLOG_MAX_CONTEXT_NAME_LEN in *.
  case_decide; [lia|]. case_decide; [lia|done].
Qed.

Lemma find_user_context_Some name g i :
  find_user_context name g = Some i →
  ∃ c, used_contexts g !! i = Some c ∧ component c = name ∧
       ∀ j y, used_contexts g !! j = Some y → (j < i)%nat → component y ≠ name.
Proof.
  unfold find_user_context. intros ([i' c] & Hfind & ->)%fmap_Some.
  apply list_find_Some in Hfind. exists c. naive_solver.
Qed.

Lemma find_user_context_None name g :
  find_user_context name g = None ↔
  ∀ j y, used_contexts g !! j = Some y → component y ≠ name.
Proof.
  unfold find_user_context. rewrite fmap_None, list_find_None, Forall_lookup. done.
Qed.

Lemma used_contexts_lookup g i c :
  used_contexts g !! i = Some c ↔ user_context g i c ∧ 0 <= numUserContexts g.
Proof.
  unfold used_contexts, user_context. rewrite lookup_take_Some. split.
  - intros [? ?]. split_and!; [lia|done|lia].
  - intros [[? ?] ?]. split; [done|lia].
Qed.

(** The slots in use once the first free slot is taken. *)
Lemma used_contexts_with_slot g c :
  0 <= numUserContexts g →
  (Z.to_nat (numUserContexts g) < length (userContexts g))%nat →
  used_contexts
    (set_userContexts (<[Z.to_nat (numUserContexts g) := c]> (userContexts g))
       (set_numUserContexts (numUserContexts g + 1) g))
  = used_contexts g ++ [c].
Proof.
  intros Hn Hlen. unfold used_contexts. simpl.
  replace (Z.to_nat (numUserContexts g + 1)) with (S (Z.to_nat (numUserContexts g))) by lia.
  erewrite take_S_r by (by apply list_lookup_insert_eq).
  by rewrite take_insert_ge.
Qed.

Lemma find_user_context_with_slot g c q :
  0 <= numUserContexts g →
  (Z.to_nat (numUserContexts g) < length (userContexts g))%nat →
  component c ≠ q →
  find_user_context q
    (set_userContexts (<[Z.to_nat (numUserContexts g) := c]> (userContexts g))
       (set_numUserContexts (numUserContexts g + 1) g))
  = find_user_context q g.
Proof.
  intros Hn Hlen Hc. unfold find_user_context.
  rewrite used_contexts_with_slot by done.
  destruct (list_find _ (used_contexts g)) as [[i x]|] eqn:Hfind.
  - by erewrite list_find_app_l.
  - rewrite list_find_app_r by done. simpl. by case_decide.
Qed.

Lemma update_ctx_slot n f c l g :
  (n < length l)%nat →
  update_ctx (UserCtx n) f (set_userContexts (<[n := c]> l) g)
  = set_userContexts (<[n := f c]> l) g.
Proof.
  intros Hn. unfold update_ctx. simpl.
  by rewrite list_lookup_insert_eq, list_insert_insert_eq.
Qed.

(** [add_context] takes the first free slot, names it, and configures it as
    the context [PrvGetContextDefaults] points to, which is the nearest
    registered ancestor or the global context. *)
Lemma add_context_spec name g :
  0 <= numUserContexts g →
  (Z.to_nat (numUserContexts g) < length (userContexts g))%nat →
  strlen name <= PMLOG_MAX_CONTEXT_NAME_LEN →
  ∃ d, nearest_default name g d ∧
       add_context name g =
         (UserCtx (Z.to_nat (numUserContexts g)),
          with_context name (info (load_ctx g d)) g).
Proof.
  intros Hn Hlen Hname. unfold add_context.
  set (n := Z.to_nat (numUserContexts g)) in *.
  cbv zeta. fold n.
  set (g1 := set_numUserContexts (numUserContexts g + 1) g).
  set (c1 := set_component name (default null_context (userContexts g !! n))).
  set (g2 := set_userContexts (<[n := c1]> (userContexts g)) g1).
  assert (update_ctx (UserCtx n)
            (fun c => set_component
               (mystrcpy (component c) (PMLOG_MAX_CONTEXT_NAME_LEN + 1) (Some name)) c)
            g1 = g2) as ->.
  { unfold update_ctx. cbn [load_ctx store_ctx]. by rewrite mystrcpy_fits. }
  set (d := PrvGetContextDefaults name g2).
  assert (Hd : nearest_default name g d ∧ d ≠ UserCtx n).
  { pose proof (PrvGetContextDefaults_loop_nearest
                  (S (String.length name)) name g2 ltac:(lia)) as Hnear.
    unfold d, PrvGetContextDefaults. rewrite mystrcpy_fits by done.
    assert (Hsame : ∀ q, is_ancestor q name →
              find_user_context q g2 = find_user_context q g).
    { intros q Hq. apply find_user_context_with_slot; [done..|].
      simpl. intros <-. apply ancestor_shorter in Hq. lia. }
    destruct (PrvGetContextDefaults_loop _ name g2) as [|i]; simpl in *.
    - split; [|done]. intros q Hq. rewrite <- Hsame by done. by apply Hnear.
    - destruct Hnear as (p & Hp & Hfind & Hlonger).
      rewrite Hsame in Hfind by done. split.
      + exists p. split_and!; [done..|]. intros q Hq Hlt.
        rewrite <- Hsame by done. by apply Hlonger.
      + intros [= ->]. apply find_user_context_Some in Hfind as (c & Hc & _).
        apply lookup_lt_Some in Hc. unfold used_contexts in Hc.
        rewrite length_take in Hc. lia. }
  destruct Hd as [Hnear Hne]. exists d. split; [done|].
  assert (Hload : ∀ l, load_ctx (set_userContexts (<[n := l]> (userContexts g)) g1) d
                       = load_ctx g d).
  { intros l. destruct d as [|i]; [done|]. simpl.
    rewrite list_lookup_insert_ne; [done|]. intros ->. done. }
  fold g2. fold d. unfold g2.
  rewrite !(update_ctx_slot n _ c1 (userContexts g) g1) by done.
  rewrite !(Hload c1).
  set (c2 := set_enabledLevel _ c1).
  rewrite (update_ctx_slot n _ c2 (userContexts g) g1) by done.
  rewrite (Hload c2).
  f_equal. unfold with_context. fold g1. f_equal. f_equal.
  unfold c2, c1. by destruct (load_ctx g d) as [[l f] nm].
Qed.

(** ** Names *)

Lemma char_code_inj c d : char_code c = char_code d → c = d.
Proof.
  unfold char_code. intros H%(inj Z.of_N).
  by rewrite <- (ascii_N_embedding c), <- (ascii_N_embedding d), H.
Qed.

Lemma name_char_ok_allowed c : name_char_ok c = true ↔ allowed_char c.
Proof.
  unfold name_char_ok, allowed_char.
  rewrite !orb_true_iff, !bool_decide_eq_true.
  change (char_code "A") with 65. change (char_code "Z") with 90.
  change (char_code "a") with 97. change (char_code "z") with 122.
  change (char_code "0") with 48. change (char_code "9") with 57.
  split.
  - intros [[[?|?]|?]|[-> | [-> | ->]]]; [by auto..| | |].
    + do 3 right; left; reflexivity.
    + do 4 right; left; reflexivity.
    + do 5 right; reflexivity.
  - intros [?|[?|[?|[H|[H|H]]]]]; auto;
      right; [left|right; left|right; right]; by apply char_code_inj.
Qed.

Lemma name_chars_loop_accepts name :
  name_chars_loop name = kPmLogErr_None ↔ Forall allowed_char (list_ascii_of_string name).
Proof.
  induction name as [|c name IH]; simpl.
  - split; [constructor|done].
  - rewrite Forall_cons, <- IH, <- name_char_ok_allowed.
    destruct (name_char_ok c); [by intuition|].
    split; [done|by intros [? _]].
Qed.

Lemma name_chars_loop_cases name :
  name_chars_loop name = kPmLogErr_None ∨
  name_chars_loop name = kPmLogErr_InvalidContextName.
Proof. induction name as [|c name IH]; simpl; [by left|]. destruct (name_char_ok c); auto. Qed.

Lemma PrvValidateContextName_cases name :
  PrvValidateContextName name = kPmLogErr_None ∨
  PrvValidateContextName name = kPmLogErr_InvalidContextName.
Proof.
  unfold PrvValidateContextName. repeat case_decide; auto using name_chars_loop_cases.
Qed.

(** The validator accepts the names of the name rule ... *)
Lemma valid_name_accepted name :
  valid_name name → PrvValidateContextName name = kPmLogErr_None.
Proof.
  intros [Hlen Hchars]. unfold PrvValidateContextName.
  repeat case_decide; try done.
  - unfold PMLOG_MAX_CONTEXT_NAME_LEN in *. lia.
  - by apply name_chars_loop_accepts.
Qed.

(** ... and, the two reserved names apart, only those. *)
Lemma invalid_name_rejected name :
  name ≠ kPmLogGlobalContextName → name ≠ kPmLogDefaultLibContextName →
  ¬ valid_name name →
  PrvValidateContextName name = kPmLogErr_InvalidContextName.
Proof.
  intros Hg Hl Hinv. unfold PrvValidateContextName.
  repeat case_decide; try done.
  destruct (name_chars_loop_cases name) as [Hok|]; [|done].
  destruct Hinv. split; [unfold PMLOG_MAX_CONTEXT_NAME_LEN in *; lia|].
  by apply name_chars_loop_accepts.
Qed.

(** ** Lookup *)

Lemma find_context_None name g :
  find_context name g = None ↔ ¬ registered g name ∨ numUserContexts g <= -1.
Proof.
  unfold find_context, registered. case_decide as Hnum; [|split; [right; lia|done]].
  case_decide as Hglobal.
  - split; [done|]. intros [Hn|?]; [|lia]. destruct Hn. by left.
  - rewrite fmap_None, find_user_context_None. split.
    + intros Hnone. left. intros [?|(i & c & Hc & Hname)]; [done|].
      eapply Hnone; [|done]. apply used_contexts_lookup. split; [done|lia].
    + intros [Hn|?]; [|lia]. intros j y Hy Hname. apply Hn. right.
      apply used_contexts_lookup in Hy as [Hy _]. eauto.
Qed.

Lemma PmLogFindContext_run name pc w g :
  w_globals w = Some g →
  PrvValidateContextName name = kPmLogErr_None →
  ∃ w', PmLogFindContext (Some name) (Some pc) w =
          (match find_context name g with
           | Some p => (kPmLogErr_None, Some (Some p))
           | None => (kPmLogErr_ContextNotFound, Some None)
           end, w') ∧
        w_globals w' = Some g.
Proof.
  intros Hg Hv. destruct w as [e g0 conn mask sl se so mem]. simpl in Hg. subst g0.
  unfold PmLogFindContext.
  rewrite bind_run. cbn [gets fst snd w_globals]. rewrite Hv.
  case_decide; [done|].
  unfold PmLogPrvLock, PmLogPrvUnlock, libc, bind, gets, modify, ret.
  cbn -[find_context].
  destruct (find_context name g); eexists; split; reflexivity.
Qed.

Lemma get_or_add_found name g p :
  find_context name g = Some p → get_or_add name g = (p, g).
Proof. unfold get_or_add. by intros ->. Qed.

(** After a context was added under a name that was not registered, a
    lookup of that name finds the new slot. *)
Lemma find_context_with_context name i g :
  0 <= numUserContexts g →
  (Z.to_nat (numUserContexts g) < length (userContexts g))%nat →
  find_context name g = None →
  find_context name (with_context name i g) = Some (UserCtx (Z.to_nat (numUserContexts g))).
Proof.
  intros Hn Hlen Hnone. unfold find_context in *. simpl.
  destruct (decide (-1 < numUserContexts g)); [|lia].
  destruct (decide (-1 < numUserContexts g + 1)); [|lia].
  destruct (decide (name = component (globalContext g))); [done|].
  apply fmap_None in Hnone.
  unfold find_user_context in *. unfold with_context.
  rewrite used_contexts_with_slot by done.
  rewrite list_find_app_r by (by apply fmap_None in Hnone).
  simpl. case_decide; [|done]. simpl. do 2 f_equal.
  unfold used_contexts. rewrite length_take. lia.
Qed.

(** Two ancestors of one name that are equally long are the same. *)
Lemma ancestors_same_length p q name :
  is_ancestor p name → is_ancestor q name →
  String.length p = String.length q → p = q.
Proof.
  intros [r1 ->] [r2 Heq]. revert q Heq.
  induction p as [|c p IH]; intros [|d q] Heq Hlen; try done.
  rewrite !append_String in Heq. injection Heq as -> Heq.
  f_equal. apply IH; [done|]. simpl in Hlen. lia.
Qed.

Lemma find_context_component name g p :
  find_context name g = Some p → component (load_ctx g p) = name.
Proof.
  unfold find_context. case_decide; [|done]. case_decide as Hglobal.
  - by intros [= <-].
  - intros (i & Hfind & ->)%fmap_Some.
    apply find_user_context_Some in Hfind as (c & Hc & Hname & _).
    unfold used_contexts in Hc. apply lookup_take_Some in Hc as [Hc _].
    simpl. by rewrite Hc.
Qed.

(** With room in the table, or the name registered already, the name is
    registered once the locked region is left, at the handle it stored. *)
Lemma get_or_add_registers name g :
  registry_ok g →
  strlen name <= PMLOG_MAX_CONTEXT_NAME_LEN →
  numUserContexts g < maxUserContexts g ∨ registered g name →
  find_context name (get_or_add name g).2 = Some (get_or_add name g).1.
Proof.
  intros [Hn Hmax Harr Huniq] Hname Hroom. unfold get_or_add.
  destruct (find_context name g) as [p|] eqn:Hfind; [done|].
  apply find_context_None in Hfind as [Hnew|?]; [|lia].
  destruct Hroom as [Hfree|?]; [|done].
  destruct (decide (numUserContexts g >= maxUserContexts g)); [lia|].
  assert (Z.to_nat (numUserContexts g) < length (userContexts g))%nat as Hslot by lia.
  destruct (add_context_spec name g Hn Hslot Hname) as (d & _ & ->).
  apply find_context_with_context; [done..|].
  apply find_context_None. by left.
Qed.

(** ** Resolving and checking a context on a usable segment *)

Lemma PrvResolveContext_usable context w g :
  w_globals w = Some g →
  PrvResolveContext context w = (Some (handle_ptr context), w).
Proof.
  intros Hg. destruct context as [p|]; [done|].
  unfold PrvResolveContext, gGlobalContextP, gets. by rewrite Hg.
Qed.

Lemma deref_run p w g : w_globals w = Some g → deref p w = (load_ctx g p, w).
Proof. intros Hg. unfold deref, gets. by rewrite Hg. Qed.

Lemma PrvCheckContext_enabled p level w g :
  w_globals w = Some g → level_enabled g p level →
  PrvCheckContext p level w = (kPmLogErr_None, w).
Proof.
  intros Hg [Hrange Hle]. unfold PrvCheckContext, PrvIsValidLevel.
  rewrite !bool_decide_eq_true_2 by lia. cbn [negb andb].
  unfold bind, deref, gets, ret. rewrite Hg. case_decide; [lia|done].
Qed.

(** ** Message-ids in the structured calls *)

Lemma validate_msgid_null context_ptr w :
  (validate_msgid None context_ptr w).1 = kPmLogErr_InvalidMsgID.
Proof. reflexivity. Qed.

Lemma validate_msgid_forbidden id context_ptr w :
  Exists forbidden_in_msgid (list_ascii_of_string id) →
  (validate_msgid (Some id) context_ptr w).1 = kPmLogErr_InvalidMsgID.
Proof.
  intros Hex. unfold validate_msgid.
  rewrite bind_run. cbn [deref gets fst snd]. rewrite bind_run.
  by rewrite validate_msgid_loop_forbidden.
Qed.

Lemma validate_msgid_empty context_ptr w :
  validate_msgid (Some "") context_ptr w = (kPmLogErr_EmptyMsgID, w).
Proof. reflexivity. Qed.

(** A key-value text that passes leaves [*logErr] as it was. *)
Lemma validate_json_loop_keeps search_str move_index kvpairs ptr off skip logErr :
  (validate_json_loop search_str move_index kvpairs ptr off skip logErr).1 = true →
  (validate_json_loop search_str move_index kvpairs ptr off skip logErr).2 = logErr.
Proof.
  revert off skip. induction ptr as [|c rest IH]; intros off skip; [done|].
  cbn [validate_json_loop]. destruct skip as [|skip']; [|apply IH].
  destruct (has_prefix search_str (String c rest)); [|apply IH].
  case_decide; [done|].
  destruct (jsax_parse _); [done|apply IH].
Qed.

Lemma validate_json_string_keeps kvpairs logErr with_tailing :
  (validate_json_string kvpairs logErr with_tailing).1 = true →
  (validate_json_string kvpairs logErr with_tailing).2 = logErr.
Proof. apply validate_json_loop_keeps. Qed.

(** The checks of [PmLogString_] on a message-id that [validate_msgid]
    calls invalid, and on the empty one. *)
Lemma PmLogString_checks_invalid contextP level msgid kvpairs message w :
  level ≠ kPmLogLevel_Debug →
  (validate_msgid msgid contextP w).1 = kPmLogErr_InvalidMsgID →
  (PmLogString_checks contextP level msgid kvpairs message w).1
  = inl kPmLogErr_InvalidMsgID.
Proof.
  intros Hlevel Hid. unfold PmLogString_checks.
  rewrite bind_run. cbn [deref gets fst snd].
  case_decide; [|done]. rewrite bind_run, Hid. by case_decide.
Qed.

Lemma PmLogString_checks_empty contextP level kvpairs message w :
  level ≠ kPmLogLevel_Debug →
  (PmLogString_checks contextP level (Some "") kvpairs message w).1
    = inl kPmLogErr_InvalidFormat ∨
  (PmLogString_checks contextP level (Some "") kvpairs message w).1
    = inr (kPmLogErr_EmptyMsgID, Some "").
Proof.
  intros Hlevel. unfold PmLogString_checks.
  rewrite bind_run. cbn [deref gets fst snd].
  case_decide; [|done]. rewrite bind_run, validate_msgid_empty. cbn [fst snd].
  case_decide; [done|].
  destruct kvpairs as [kv|]; [|by right]. cbv zeta.
  destruct (validate_json_string kv kPmLogErr_EmptyMsgID false).1 eqn:Hjson.
  - right. cbn [negb]. by rewrite validate_json_string_keeps.
  - by left.
Qed.

(** The same for [_PmLogMsgKV]. *)
Lemma PmLogMsgKV_checks_invalid context_ptr level flags msgid kv_count keys formats w :
  level ≠ kPmLogLevel_Debug →
  (validate_msgid msgid context_ptr w).1 = kPmLogErr_InvalidMsgID →
  (PmLogMsgKV_checks context_ptr level flags msgid kv_count keys formats w).1
  = inl kPmLogErr_InvalidMsgID.
Proof.
  intros Hlevel Hid. unfold PmLogMsgKV_checks.
  rewrite bind_run. cbn [deref gets fst snd].
  case_decide; [|done]. rewrite bind_run, Hid. by case_decide.
Qed.

Lemma PmLogMsgKV_checks_empty context_ptr level flags kv_count keys formats w :
  level ≠ kPmLogLevel_Debug →
  (PmLogMsgKV_checks context_ptr level flags (Some "") kv_count keys formats w).1
    = inl kPmLogErr_InvalidFormat ∨
  (PmLogMsgKV_checks context_ptr level flags (Some "") kv_count keys formats w).1
    = inr (kPmLogErr_EmptyMsgID, Some "").
Proof.
  intros Hlevel. unfold PmLogMsgKV_checks.
  rewrite bind_run. cbn [deref gets fst snd].
  case_decide; [|done]. rewrite bind_run, validate_msgid_empty. cbn [fst snd].
  case_decide; [done|].
  case_decide; [|by right].
  rewrite bind_run.
  destruct (validate_keys _ _ _ _ _).1; [|by left]. cbn [negb].
  destruct (validate_format flags kv_count formats); [by right|by left].
Qed.

(** ** The line [PrvLogWrite] hands to syslog *)

Lemma PrvLogWrite_syslog_line contextP level msgid s w g :
  w_globals w = Some g →
  has_prefix "!loglib " s = false →
  w_syslog (PrvLogWrite contextP level msgid s w).2 =
    (level,
     GetPidStr (load_ctx g contextP) PIDSTR_LEN +:+ " " +:+ PMLOG_IDENTIFIER +:+ " " +:+
     c_truncate (1 + PMLOG_MAX_CONTEXT_NAME_LEN + 3 + 1) (component (load_ctx g contextP))
     +:+ " " +:+ default "" msgid +:+ " " +:+ s) :: w_syslog w.
Proof.
  intros Hg Hcmd. destruct w as [e g0 conn mask sl se so mem]. simpl in Hg. subst g0.
  unfold PrvLogWrite, HandleLogLibCommand. rewrite Hcmd. cbn [negb].
  unfold block_signals, unblock_signals, syslog, PrvLogToConsole, fprintf, libc,
    deref, bind, gets, modify, ret.
  repeat first
    [ progress cbn -[GetPidStr c_truncate String.append Z.land mystrcpy]
    | case_decide ];
    reflexivity.
Qed.

(** The line of a free-text call that passes the enabled-check. *)
Lemma check_and_print_line contextP level f text (args : va_list) w g :
  w_globals w = Some g →
  level_enabled g contextP level →
  f ≠ "" → vformat f args = Some text →
  has_prefix "!loglib " (c_truncate BUFFER_LEN text) = false →
  w_syslog (check_and_print contextP level (Some f) args w).2 =
    (level,
     GetPidStr (load_ctx g contextP) PIDSTR_LEN +:+ " " +:+ PMLOG_IDENTIFIER +:+ " " +:+
     c_truncate (1 + PMLOG_MAX_CONTEXT_NAME_LEN + 3 + 1) (component (load_ctx g contextP))
     +:+ "  " +:+ c_truncate BUFFER_LEN text) :: w_syslog w.
Proof.
  intros Hg Hen Hf Htext Hcmd. unfold check_and_print.
  rewrite bind_run, (PrvCheckContext_enabled _ _ _ _ Hg Hen). cbn [fst snd].
  case_decide; [done|].
  unfold PrvLogVPrint. destruct f as [|c f]; [done|].
  rewrite bind_run, Htext.
  by rewrite (PrvLogWrite_syslog_line _ _ _ _ _ g).
Qed.

(** The same while [gGlobalsP] is NULL: the context is read through the
    pointer, from the mapped memory. *)
Lemma PrvLogWrite_syslog_line_mapped contextP level msgid s w :
  w_globals w = None →
  has_prefix "!loglib " s = false →
  w_syslog (PrvLogWrite contextP level msgid s w).2 =
    (level,
     GetPidStr (load_ctx (w_mapped w) contextP) PIDSTR_LEN +:+ " " +:+ PMLOG_IDENTIFIER
     +:+ " " +:+
     c_truncate (1 + PMLOG_MAX_CONTEXT_NAME_LEN + 3 + 1)
       (component (load_ctx (w_mapped w) contextP))
     +:+ " " +:+ default "" msgid +:+ " " +:+ s) :: w_syslog w.
Proof.
  intros Hg Hcmd. destruct w as [e g0 conn mask sl se so mem]. simpl in Hg. subst g0.
  unfold PrvLogWrite, HandleLogLibCommand. rewrite Hcmd. cbn [negb].
  unfold block_signals, unblock_signals, syslog, PrvLogToConsole, fprintf, libc,
    deref, bind, gets, modify, ret.
  repeat first
    [ progress cbn -[GetPidStr c_truncate String.append Z.land mystrcpy]
    | case_decide ];
    reflexivity.
Qed.

Lemma check_and_print_line_mapped contextP level f text (args : va_list) w :
  w_globals w = None →
  kPmLogLevel_Emergency <= level <= kPmLogLevel_Debug →
  level <= enabledLevel (info (load_ctx (w_mapped w) contextP)) →
  f ≠ "" → vformat f args = Some text →
  has_prefix "!loglib " (c_truncate BUFFER_LEN text) = false →
  w_syslog (check_and_print contextP level (Some f) args w).2 =
    (level,
     GetPidStr (load_ctx (w_mapped w) contextP) PIDSTR_LEN +:+ " " +:+ PMLOG_IDENTIFIER
     +:+ " " +:+
     c_truncate (1 + PMLOG_MAX_CONTEXT_NAME_LEN + 3 + 1)
       (component (load_ctx (w_mapped w) contextP))
     +:+ "  " +:+ c_truncate BUFFER_LEN text) :: w_syslog w.
Proof.
  intros Hg Hrange Hle Hf Htext Hcmd. unfold check_and_print.
  assert (PrvCheckContext contextP level w = (kPmLogErr_None, w)) as Hcheck.
  { unfold PrvCheckContext, PrvIsValidLevel.
    rewrite !bool_decide_eq_true_2 by lia. cbn [negb andb].
    unfold bind, deref, gets, ret. rewrite Hg. case_decide; [lia|done]. }
  rewrite bind_run, Hcheck. cbn [fst snd].
  case_decide; [done|].
  unfold PrvLogVPrint. destruct f as [|c f]; [done|].
  rewrite bind_run, Htext.
  by rewrite PrvLogWrite_syslog_line_mapped.
Qed.

(** ** The codes the structured calls return *)

Lemma PrvLogWrite_returns_None contextP level msgid s w :
  (PrvLogWrite contextP level msgid s w).1 = kPmLogErr_None.
Proof.
  unfold PrvLogWrite.
  rewrite bind_run. cbn [gets fst snd].
  rewrite bind_run.
  destruct (HandleLogLibCommand s w) as [handled w1]. cbn [fst snd].
  rewrite bind_run.
  match goal with |- context [(?body w1).2] => by destruct (body w1) end.
Qed.

Lemma PrvCheckContext_cases contextP level w :
  (PrvCheckContext contextP level w).1 = kPmLogErr_None ∨
  (PrvCheckContext contextP level w).1 = kPmLogErr_InvalidLevel ∨
  (PrvCheckContext contextP level w).1 = kPmLogErr_LevelDisabled.
Proof.
  unfold PrvCheckContext. destruct (PrvIsValidLevel level); cbn [negb]; [|auto].
  rewrite bind_run. case_decide; auto.
Qed.

Lemma PmLogString_checks_returns contextP level msgid kvpairs message w err :
  (PmLogString_checks contextP level msgid kvpairs message w).1 = inl err →
  err = kPmLogErr_InvalidMsgID ∨ err = kPmLogErr_InvalidFormat.
Proof.
  unfold PmLogString_checks.
  rewrite bind_run. cbn [deref gets fst snd].
  case_decide.
  - rewrite bind_run. case_decide as Hid; [intros [= <-]; by left|].
    destruct kvpairs as [kv|]; [|done]. cbv zeta.
    destruct (validate_json_string kv _ false).1; [done|].
    intros [= <-]. by right.
  - destruct msgid, kvpairs, message; try done; intros [= <-]; by right.
Qed.

(** [PmLogString_] never hands EmptyMsgID to its caller. *)
Lemma PmLogString_never_EmptyMsgID context level msgid kvpairs message w :
  (PmLogString_ context level msgid kvpairs message w).1 ≠ kPmLogErr_EmptyMsgID.
Proof.
  unfold PmLogString_. rewrite bind_run.
  destruct (PrvResolveContext context w).1 as [contextP|]; [|done].
  rewrite bind_run.
  destruct (PrvCheckContext_cases contextP level (PrvResolveContext context w).2)
    as [Hc|[Hc|Hc]]; rewrite Hc; (case_decide; [done|]); [|done..].
  rewrite bind_run.
  match goal with |- context [(PmLogString_checks ?p ?l ?m ?k ?t ?w0).1] =>
    pose proof (PmLogString_checks_returns p l m k t w0) as Hret;
    destruct (PmLogString_checks p l m k t w0) as [[err|[logErr ptr_msgid]] w1]
  end; cbn [fst snd] in *.
  - by destruct (Hret err eq_refl) as [-> | ->].
  - rewrite bind_run. cbn [deref gets fst snd]. rewrite bind_run. cbv zeta.
    case_decide; [done|]. case_decide; [done|].
    by rewrite PrvLogWrite_returns_None.
Qed.

Lemma PmLogMsgKV_checks_returns context_ptr level flags msgid kv_count keys formats w err :
  (PmLogMsgKV_checks context_ptr level flags msgid kv_count keys formats w).1 = inl err →
  err = kPmLogErr_InvalidMsgID ∨ err = kPmLogErr_InvalidFormat.
Proof.
  unfold PmLogMsgKV_checks.
  rewrite bind_run. cbn [deref gets fst snd].
  case_decide.
  - rewrite bind_run. case_decide as Hid; [intros [= <-]; by left|].
    case_decide; [|done]. rewrite bind_run.
    destruct (validate_keys _ _ _ _ _).1; cbn [negb]; [|intros [= <-]; by right].
    destruct (validate_format flags kv_count formats); [done|].
    intros [= <-]. by right.
  - destruct msgid; [intros [= <-]; by right|].
    case_decide; [intros [= <-]; by right|done].
Qed.

(** Nor does [_PmLogMsgKV]. *)
Lemma PmLogMsgKV_never_EmptyMsgID context level flags msgid kv_count keys formats
    fmt args w :
  (_PmLogMsgKV context level flags msgid kv_count keys formats fmt args w).1
  ≠ kPmLogErr_EmptyMsgID.
Proof.
  unfold _PmLogMsgKV. rewrite bind_run.
  destruct (PrvResolveContext context w).1 as [contextP|]; [|done].
  rewrite bind_run.
  destruct (PrvCheckContext_cases contextP level (PrvResolveContext context w).2)
    as [Hc|[Hc|Hc]]; rewrite Hc; (case_decide; [done|]); [|done..].
  rewrite bind_run.
  match goal with |- context [(PmLogMsgKV_checks ?p ?l ?f ?m ?n ?k ?t ?w0).1] =>
    pose proof (PmLogMsgKV_checks_returns p l f m n k t w0) as Hret;
    destruct (PmLogMsgKV_checks p l f m n k t w0) as [[err|[logErr ptr_msgid]] w1]
  end; cbn [fst snd] in *.
  - by destruct (Hret err eq_refl) as [-> | ->].
  - rewrite bind_run. cbn [deref gets fst snd]. rewrite bind_run. cbv zeta.
    destruct (vformat fmt args) as [text|]; [|done].
    rewrite bind_run. case_decide; [done|].
    case_decide; [|by rewrite PrvLogWrite_returns_None].
    destruct (validate_json_string _ _ true).1; cbn [negb]; [|done].
    by rewrite PrvLogWrite_returns_None.
Qed.

(** ** [validate_keys] *)

Lemma ErrPrint_run context pidtid msg w :
  ∃ line, w_syslog (ErrPrint context pidtid msg w).2 = (LOG_ERR, line) :: w_syslog w.
Proof.
  unfold ErrPrint, CallSysLog, block_signals, unblock_signals, syslog, libc,
    bind, gets, modify, ret.
  destruct w. cbn. by eexists.
Qed.

Lemma validate_keys_loop_sound context_name msgid n :
  ∀ k cur w, (String.length k <= n)%nat →
  ((validate_keys_loop context_name msgid k cur w).1 = true →
   Forall key_char (list_ascii_of_string k) ∧
   (validate_keys_loop context_name msgid k cur w).2 = w) ∧
  ((validate_keys_loop context_name msgid k cur w).1 = false →
   ∃ line, w_syslog (validate_keys_loop context_name msgid k cur w).2
           = (LOG_ERR, line) :: w_syslog w).
Proof.
  assert (Hfail : ∀ m w,
            ((ErrPrint context_name "[]" m ;;; ret false) w).1 = false ∧
            ∃ line, w_syslog ((ErrPrint context_name "[]" m ;;; ret false) w).2
                    = (LOG_ERR, line) :: w_syslog w).
  { intros m w. rewrite bind_run. cbn [ret fst snd]. split; [done|apply ErrPrint_run]. }
  induction n as [|n IH]; intros [|c rest] cur w Hlen; simpl in Hlen; try lia;
    try (split; [by split|done]).
  cbn [validate_keys_loop].
  destruct (decide (SOH = c)) as [<-|Hsoh].
  { destruct (IH rest (cur + 1) w) as [Hok Hbad]; [lia|]. split; [|done].
    intros [? ?]%Hok. split; [|done]. simpl. apply Forall_cons. split; [by left|done]. }
  destruct (decide (char_code c < char_code " " ∨ char_code c >= 127)) as [Hnp|Hp].
  { destruct (Hfail (invalid_key_msg msgid cur (Some c)) w) as [Hf Hline].
    split; [by rewrite Hf|done]. }
  assert (key_char c) as Hc.
  { right. change (char_code " ") with 32 in Hp. lia. }
  destruct (decide ("092"%char = c)) as [<-|Hbs].
  - destruct rest as [|d rest'].
    { destruct (Hfail (invalid_key_msg msgid cur None) w) as [Hf Hline].
      split; [by rewrite Hf|done]. }
    destruct (decide ("034"%char = d ∨ "092"%char = d)) as [Hd|Hd].
    + destruct (IH rest' cur w) as [Hok Hbad]; [simpl in Hlen; lia|]. split; [|done].
      intros [? ?]%Hok. split; [|done]. simpl. repeat (apply Forall_cons; split); try done.
      right. by destruct Hd as [<-|<-].
    + destruct (Hfail (invalid_key_msg msgid cur (Some d)) w) as [Hf Hline].
      split; [by rewrite Hf|done].
  - destruct (IH rest cur w) as [Hok Hbad]; [lia|]. split; [|done].
    intros [? ?]%Hok. split; [|done]. simpl. by apply Forall_cons.
Qed.

(** ** [validate_format] *)

(** The agreement [validate_format] checks is between the argument
    [kv_count] and the conversions of the format. *)
Lemma validate_format_agreement flags kv_count format :
  0 < kv_count < 2 ^ 64 - 1 →
  validate_format flags kv_count (Some format) = true ↔
  count_conversions format 0 =
    if decide (Z.land flags kPmLogValidateFormatFlag_LogWithClock ≠ 0)
    then kv_count + 1 else kv_count.
Proof.
  intros Hkv. unfold validate_format, size_t_wrap.
  case_decide; [lia|].
  case_decide; rewrite bool_decide_eq_true; [|done].
  rewrite Z.mod_small by lia. done.
Qed.

(** ** The diagnostics of an empty message-id *)

Lemma ErrPrint_diagnostic c msg w :
  strlen (diagnostic_head c) < 1024 →
  w_syslog (ErrPrint (component c) (GetPidStr c PIDSTR_LEN) msg w).2
    = (LOG_ERR, diagnostic_line c msg) :: w_syslog w ∧
  w_globals (ErrPrint (component c) (GetPidStr c PIDSTR_LEN) msg w).2 = w_globals w.
Proof.
  intros Hhead. unfold ErrPrint, CallSysLog, diagnostic_line, diagnostic_head in *.
  cbv zeta. rewrite decide_True by done.
  unfold block_signals, unblock_signals, syslog, libc, bind, gets, modify, ret.
  by destruct w.
Qed.

Lemma validate_keys_accepts_silently kv_count keys context_name msgid w :
  (validate_keys kv_count keys context_name msgid w).1 = true →
  validate_keys kv_count keys context_name msgid w = (true, w).
Proof.
  unfold validate_keys. destruct keys as [k|]; [|done].
  case_decide; [by rewrite bind_run|].
  destruct (validate_keys_loop_sound context_name (show_ptr msgid)
              (String.length k) k 1 w) as [Hok _]; [done|].
  intros Htrue. destruct (Hok Htrue) as [_ Hw].
  destruct (validate_keys_loop _ _ _ _ _) as [b w']. simpl in *. by subst.
Qed.

(** What the checks of [PmLogString_] leave for the empty message-id. *)
Lemma PmLogString_checks_empty_run contextP level kvpairs message w g :
  w_globals w = Some g →
  level ≠ kPmLogLevel_Debug →
  PmLogString_checks contextP level (Some "") kvpairs message w =
    match kvpairs with
    | Some kv =>
        if (validate_json_string kv kPmLogErr_EmptyMsgID false).1
        then (inr (kPmLogErr_EmptyMsgID, Some ""), w)
        else (inl kPmLogErr_InvalidFormat,
              (ErrPrint (component (load_ctx g contextP))
                 (GetPidStr (load_ctx g contextP) PIDSTR_LEN)
                 (invalid_json_msg (Some "")
                    (validate_json_string kv kPmLogErr_EmptyMsgID false).2
                    (strtruncate_and_escape kv)) w).2)
    | None => (inr (kPmLogErr_EmptyMsgID, Some ""), w)
    end.
Proof.
  intros Hg Hlevel. unfold PmLogString_checks.
  rewrite bind_run, !(deref_run _ _ g) by done. cbn [fst snd].
  case_decide; [|done]. rewrite bind_run, validate_msgid_empty. cbn [fst snd].
  case_decide; [done|].
  destruct kvpairs as [kv|]; [|done]. cbv zeta.
  destruct (validate_json_string kv kPmLogErr_EmptyMsgID false).1 eqn:Hjson; cbn [negb].
  - by rewrite validate_json_string_keeps.
  - by rewrite bind_run.
Qed.

(** The same for [_PmLogMsgKV]. *)
Lemma PmLogMsgKV_checks_empty_run context_ptr level flags kv_count keys formats w g :
  w_globals w = Some g →
  level ≠ kPmLogLevel_Debug →
  PmLogMsgKV_checks context_ptr level flags (Some "") kv_count keys formats w =
    if decide (kv_count ≠ 0) then
      let vk := validate_keys kv_count keys (component (load_ctx g context_ptr))
                  (Some "") w in
      if vk.1 && validate_format flags kv_count formats
      then (inr (kPmLogErr_EmptyMsgID, Some ""), vk.2)
      else (inl kPmLogErr_InvalidFormat,
            (ErrPrint (component (load_ctx g context_ptr))
               (GetPidStr (load_ctx g context_ptr) PIDSTR_LEN)
               ("MISMATCHED_FMT {" +:+ json_field "MSGID" (show_ptr (Some "")) +:+ "}")
               vk.2).2)
    else (inr (kPmLogErr_EmptyMsgID, Some ""), w).
Proof.
  intros Hg Hlevel. unfold PmLogMsgKV_checks.
  rewrite bind_run, !(deref_run _ _ g) by done. cbn [fst snd]. cbv zeta.
  case_decide; [|done]. rewrite bind_run, validate_msgid_empty. cbn [fst snd].
  case_decide; [done|].
  case_decide; [|done].
  rewrite bind_run.
  destruct (validate_keys _ _ _ _ _) as [ok w1]. cbn [fst snd].
  destruct ok; cbn [negb andb]; [|by rewrite bind_run].
  destruct (validate_format flags kv_count formats); cbn [negb]; [done|by rewrite bind_run].
Qed.

(** * The claims *)

(** C1 (the code does not do this). The spec has a message-id of 32
    characters rejected with InvalidMsgID and only ids shorter than 32
    accepted. In the code the length test sits inside the loop and compares
    the index of the character being read with 32, so it can only fire on a
    33rd character: an id of exactly 32 allowed characters is accepted, for
    every context and in every state, as one of 31 is; one of 33 is
    rejected. *)
Theorem validate_msgid_accepts_32_characters context_ptr w :
  strlen msgid_32 = 32 ∧
  (validate_msgid (Some msgid_32) context_ptr w).1 = kPmLogErr_None ∧
  (validate_msgid (Some msgid_31) context_ptr w).1 = kPmLogErr_None ∧
  (validate_msgid (Some (msgid_32 +:+ "6")) context_ptr w).1 = kPmLogErr_InvalidMsgID.
Proof.
  split_and!; [done|..]; rewrite validate_msgid_by_length;
    try (by repeat case_decide);
    unfold forbidden_in_msgid; repeat constructor; by intros [|[|]].
Qed.

(** C2. When [numUserContexts] equals [maxUserContexts], [PmLogGetContext]
    with a name that passes validation and names no context of the registry
    stores the handle of the global context and leaves the segment, hence
    the count and every context's name, level and flags, as it was. *)
Theorem PmLogGetContext_full_table_fallback name pc w g :
  w_globals w = Some g →
  numUserContexts g = maxUserContexts g →
  PrvValidateContextName name = kPmLogErr_None →
  ¬ registered g name →
  ∃ w', PmLogGetContext (Some name) (Some pc) w =
          ((kPmLogErr_None, Some (Some GlobalCtx)), w') ∧
        w_globals w' = Some g.
Proof.
  intros Hg Hfull Hv Hnew.
  destruct (PmLogGetContext_run name pc w g Hg Hv) as (w' & Hrun & Hg' & _).
  assert (find_context name g = None) as Hnone by (apply find_context_None; by left).
  unfold get_or_add in *. rewrite Hnone in *.
  destruct (decide (numUserContexts g >= maxUserContexts g)); [|lia].
  by exists w'.
Qed.

(** C3. When [PmLogGetContext] creates a context, the new context gets the
    level and flags of the registered context named by the nearest ancestor
    of its name (the longest prefix that ends before a dot and names a user
    context, shorter ones being skipped over missing ancestors), and those
    of the global context when no ancestor names a user context. *)
Theorem PmLogGetContext_hierarchical_defaults name pc w g :
  w_globals w = Some g →
  registry_ok g →
  valid_name name →
  ¬ registered g name →
  numUserContexts g < maxUserContexts g →
  ∃ w' g' c',
    PmLogGetContext (Some name) (Some pc) w =
      ((kPmLogErr_None, Some (Some (UserCtx (Z.to_nat (numUserContexts g))))), w') ∧
    w_globals w' = Some g' ∧
    numUserContexts g' = numUserContexts g + 1 ∧
    userContexts g' !! Z.to_nat (numUserContexts g) = Some c' ∧
    component c' = name ∧
    (∀ p i a,
       is_ancestor p name → user_context g i a → component a = p →
       (∀ q j b, is_ancestor q name → (String.length p < String.length q)%nat →
                 user_context g j b → component b ≠ q) →
       info c' = info a) ∧
    ((∀ p i a, is_ancestor p name → user_context g i a → component a ≠ p) →
     info c' = info (globalContext g)).
Proof.
  intros Hg [Hn Hmax Harr Huniq] Hname Hnew Hfree.
  pose proof (valid_name_accepted _ Hname) as Hv.
  destruct (PmLogGetContext_run name pc w g Hg Hv) as (w' & Hrun & Hg' & _).
  assert (find_context name g = None) as Hnone by (apply find_context_None; by left).
  unfold get_or_add in *. rewrite Hnone in *.
  destruct (decide (numUserContexts g >= maxUserContexts g)); [lia|].
  assert (Z.to_nat (numUserContexts g) < length (userContexts g))%nat as Hslot by lia.
  destruct (add_context_spec name g Hn Hslot) as (d & Hnear & Hadd).
  { destruct Hname as [? _]. unfold PMLOG_MAX_CONTEXT_NAME_LEN. lia. }
  rewrite Hadd in *. cbn [fst snd] in *.
  exists w', (with_context name (info (load_ctx g d)) g),
         (mkContext (info (load_ctx g d)) name).
  split_and!; [done..| |by apply list_lookup_insert_eq|done| |].
  { done. }
  - (* an ancestor names a user context *)
    intros p i a Hp Ha Hap Hlonger. cbn [info].
    assert (used_contexts g !! i = Some a) as Hused
      by (apply used_contexts_lookup; done).
    destruct d as [|i0]; simpl in Hnear.
    + specialize (Hnear p Hp). rewrite find_user_context_None in Hnear.
      by destruct (Hnear i a Hused).
    + destruct Hnear as (p0 & Hp0 & Hfind & Hnone0).
      apply find_user_context_Some in Hfind as (c0 & Hc0 & Hname0 & _).
      pose proof Hc0 as [Hc0' _]%used_contexts_lookup.
      assert (p = p0) as ->.
      { destruct (Nat.lt_trichotomy (String.length p) (String.length p0)) as [Hlt|[Heq|Hgt]].
        - by destruct (Hlonger p0 i0 c0 Hp0 Hlt Hc0').
        - by eapply ancestors_same_length.
        - specialize (Hnone0 p Hp Hgt). rewrite find_user_context_None in Hnone0.
          by destruct (Hnone0 i a Hused). }
      assert (i = i0) as -> by (eapply Huniq; [done..|congruence]).
      destruct Ha as [_ Ha], Hc0' as [_ Hc0']. simpl. rewrite Hc0'. simpl. congruence.
  - (* no ancestor names a user context *)
    intros Hnoanc. cbn [info].
    destruct d as [|i0]; [done|]. simpl in Hnear.
    destruct Hnear as (p0 & Hp0 & Hfind & _).
    apply find_user_context_Some in Hfind as (c0 & [Hc0 _]%used_contexts_lookup & Hname0 & _).
    by destruct (Hnoanc p0 i0 c0).
Qed.

(** C4. The enabled-check answers InvalidLevel for a level outside
    Emergency..Debug, the None sentinel included; LevelDisabled for a level
    in range that is numerically greater than the context's [enabledLevel];
    and no error otherwise. With the threshold at Warning, Info is disabled
    and Error passes. *)
Theorem PrvCheckContext_gating contextP level w :
  let threshold := enabledLevel (info (deref contextP w).1) in
  (PrvCheckContext contextP kPmLogLevel_None w).1 = kPmLogErr_InvalidLevel ∧
  (¬ (kPmLogLevel_Emergency <= level <= kPmLogLevel_Debug) →
   (PrvCheckContext contextP level w).1 = kPmLogErr_InvalidLevel) ∧
  (kPmLogLevel_Emergency <= level <= kPmLogLevel_Debug → level > threshold →
   (PrvCheckContext contextP level w).1 = kPmLogErr_LevelDisabled) ∧
  (kPmLogLevel_Emergency <= level <= kPmLogLevel_Debug → level <= threshold →
   (PrvCheckContext contextP level w).1 = kPmLogErr_None) ∧
  (threshold = kPmLogLevel_Warning →
   (PrvCheckContext contextP kPmLogLevel_Info w).1 = kPmLogErr_LevelDisabled ∧
   (PrvCheckContext contextP kPmLogLevel_Error w).1 = kPmLogErr_None).
Proof.
  intros threshold.
  assert (Hin : ∀ l, kPmLogLevel_Emergency <= l <= kPmLogLevel_Debug →
            (PrvCheckContext contextP l w).1 =
            if decide (l > threshold) then kPmLogErr_LevelDisabled else kPmLogErr_None).
  { intros l Hl. unfold PrvCheckContext, PrvIsValidLevel.
    rewrite !bool_decide_eq_true_2 by lia. cbn [negb andb].
    rewrite bind_run. fold threshold. by case_decide. }
  split_and!.
  - reflexivity.
  - intros Hout. unfold PrvCheckContext, PrvIsValidLevel.
    destruct (decide (level >= kPmLogLevel_Emergency)).
    + rewrite (bool_decide_eq_false_2 (level <= _)) by lia.
      by rewrite andb_false_r.
    + by rewrite bool_decide_eq_false_2.
  - intros Hl Hgt. rewrite Hin by done. by case_decide.
  - intros Hl Hle. rewrite Hin by done. case_decide; [lia|done].
  - intros Hth. rewrite !Hin by done. rewrite Hth. done.
Qed.

(** C7. On a usable registry with free capacity and for a name of the name
    rule, [PmLogGetContext] called twice stores the same handle and the
    second call leaves the registry, hence the count, unchanged, and
    [PmLogFindContext] after the first call stores that handle too. A name
    outside the rule, the two reserved names apart, is rejected by both with
    InvalidContextName. *)
Theorem PmLogGetContext_PmLogFindContext_agree name pc1 pc2 pc3 w g :
  w_globals w = Some g →
  registry_ok g →
  (valid_name name → numUserContexts g < maxUserContexts g →
   ∃ h w1 w2 w3,
     PmLogGetContext (Some name) (Some pc1) w = ((kPmLogErr_None, Some (Some h)), w1) ∧
     PmLogGetContext (Some name) (Some pc2) w1 = ((kPmLogErr_None, Some (Some h)), w2) ∧
     w_globals w2 = w_globals w1 ∧
     PmLogFindContext (Some name) (Some pc3) w1 = ((kPmLogErr_None, Some (Some h)), w3)) ∧
  (¬ valid_name name →
   name ≠ kPmLogGlobalContextName → name ≠ kPmLogDefaultLibContextName →
   (PmLogGetContext (Some name) (Some pc1) w).1.1 = kPmLogErr_InvalidContextName ∧
   (PmLogFindContext (Some name) (Some pc3) w).1.1 = kPmLogErr_InvalidContextName).
Proof.
  intros Hg Hok. split.
  - intros Hname Hfree.
    pose proof (valid_name_accepted _ Hname) as Hv.
    destruct (PmLogGetContext_run name pc1 w g Hg Hv) as (w1 & Hrun1 & Hg1 & _).
    (* after the first call the name is found where the first call left it *)
    assert (find_context name (get_or_add name g).2 = Some (get_or_add name g).1) as Hfound.
    { apply get_or_add_registers; [done| |by left].
      destruct Hname as [? _]. unfold PMLOG_MAX_CONTEXT_NAME_LEN. lia. }
    destruct (PmLogGetContext_run name pc2 w1 _ Hg1 Hv) as (w2 & Hrun2 & Hg2 & _).
    destruct (PmLogFindContext_run name pc3 w1 _ Hg1 Hv) as (w3 & Hrun3 & Hg3).
    rewrite (get_or_add_found _ _ _ Hfound) in Hrun2, Hg2. rewrite Hfound in Hrun3.
    cbn [fst snd] in Hrun2, Hg2.
    exists (get_or_add name g).1, w1, w2, w3.
    split_and!; [done..|congruence|done].
  - intros Hinv Hglob Hlib.
    pose proof (invalid_name_rejected _ Hglob Hlib Hinv) as Hrej.
    unfold PmLogGetContext, PmLogFindContext.
    rewrite !bind_run. cbn [gets fst snd]. rewrite Hg, Hrej.
    by case_decide.
Qed.

(** C8. [PrvLogWrite] leaves [errno] as it found it: on the path of an
    intercepted command, on the path that writes to syslog, and on the one
    that mirrors to the console, whatever the calls in between do to it. *)
Theorem PrvLogWrite_preserves_errno contextP level msgid s w :
  w_errno (PrvLogWrite contextP level msgid s w).2 = w_errno w.
Proof.
  unfold PrvLogWrite.
  rewrite bind_run. cbn [gets fst snd].
  rewrite bind_run.
  destruct (HandleLogLibCommand s w) as [handled w1]. cbn [fst snd].
  rewrite bind_run.
  match goal with |- context [(?body w1).2] => destruct (body w1) as [u w2] end.
  reflexivity.
Qed.

(** C10. When the table is full and the name is new and valid,
    [PmLogGetContext] stores the handle of the global context and returns
    the success code, the same pair as for a lookup of the global context;
    it returns TooManyContexts on no input at all. *)
Theorem PmLogGetContext_fallback_reports_success name pc w g :
  w_globals w = Some g →
  numUserContexts g >= maxUserContexts g →
  PrvValidateContextName name = kPmLogErr_None →
  ¬ registered g name →
  (PmLogGetContext (Some name) (Some pc) w).1 = (kPmLogErr_None, Some (Some GlobalCtx)) ∧
  (PmLogGetContext (Some name) (Some pc) w).1 = (PmLogGetContext None (Some pc) w).1 ∧
  ∀ name' pc' w', (PmLogGetContext name' pc' w').1.1 ≠ kPmLogErr_TooManyContexts.
Proof.
  intros Hg Hfull Hv Hnew.
  destruct (PmLogGetContext_run name pc w g Hg Hv) as (w1 & Hrun & _).
  assert (find_context name g = None) as Hnone by (apply find_context_None; by left).
  unfold get_or_add in Hrun. rewrite Hnone in Hrun.
  destruct (decide (numUserContexts g >= maxUserContexts g)); [|done].
  rewrite Hrun. split_and!; [done| |].
  - unfold PmLogGetContext, gGlobalContextP. rewrite !bind_run. cbn [gets fst snd].
    rewrite Hg. cbn. by rewrite Hg.
  - intros [name'|] [pc'|] w'; try done.
    + unfold PmLogGetContext at 1. rewrite bind_run. cbn [gets fst snd].
      destruct (w_globals w') as [g'|] eqn:Hg'; [|done].
      destruct (PrvValidateContextName_cases name') as [Hok|Hbad].
      * destruct (PmLogGetContext_run name' pc' w' g' Hg' Hok) as (w2 & Hrun2 & _).
        unfold PmLogGetContext in Hrun2. rewrite bind_run in Hrun2.
        cbn [gets fst snd] in Hrun2. rewrite Hg' in Hrun2. by rewrite Hrun2.
      * rewrite Hbad. by case_decide.
    + unfold PmLogGetContext, gGlobalContextP. rewrite !bind_run. cbn [gets fst snd].
      by destruct (w_globals w').
Qed.

(** C9. In [PmLogPrint_] and [PmLogVPrint_], when [PmLogGetContext]
    obtains a context named [LEGACY_LOG] (the registry is usable and the
    name is registered or can be), the handle the caller passed plays no
    part: the enabled-check and the write are those on the [LEGACY_LOG]
    context. When the name is not registered and the table is full,
    [PmLogGetContext] answers with the global context, and the check and
    the write are those on the global context, again whatever the caller
    passed. The caller's handle is the one used when [PmLogGetContext]
    returns an error; without a registry that is what happens, and the
    level and the name are then read through the caller's pointer. *)
Theorem legacy_context_overrides_caller level fmt args w :
  (∀ g, w_globals w = Some g → registry_ok g → valid_name LEGACY_LOG →
        numUserContexts g < maxUserContexts g ∨ registered g LEGACY_LOG →
        ∃ p w1 g1,
          w_globals w1 = Some g1 ∧
          component (load_ctx g1 p) = LEGACY_LOG ∧
          ∀ context,
            PmLogGetContext (Some LEGACY_LOG) (Some context) w =
              ((kPmLogErr_None, Some (Some p)), w1) ∧
            PmLogPrint_ context level fmt args w = check_and_print p level fmt args w1 ∧
            PmLogVPrint_ context level fmt args w = check_and_print p level fmt args w1 ∧
            (∀ f text,
               fmt = Some f → f ≠ "" → vformat f args = Some text →
               has_prefix "!loglib " (c_truncate BUFFER_LEN text) = false →
               level_enabled g1 p level →
               w_syslog (PmLogPrint_ context level fmt args w).2 =
                 (level,
                  GetPidStr (load_ctx g1 p) PIDSTR_LEN +:+ " " +:+ PMLOG_IDENTIFIER
                  +:+ " " +:+ LEGACY_LOG +:+ "  " +:+ c_truncate BUFFER_LEN text)
                 :: w_syslog w)) ∧
  (∀ g, w_globals w = Some g → valid_name LEGACY_LOG →
        ¬ registered g LEGACY_LOG → maxUserContexts g <= numUserContexts g →
        ∃ w1,
          w_globals w1 = Some g ∧
          ∀ context,
            PmLogGetContext (Some LEGACY_LOG) (Some context) w =
              ((kPmLogErr_None, Some (Some GlobalCtx)), w1) ∧
            PmLogPrint_ context level fmt args w
              = check_and_print GlobalCtx level fmt args w1 ∧
            PmLogVPrint_ context level fmt args w
              = check_and_print GlobalCtx level fmt args w1 ∧
            (∀ f text,
               fmt = Some f → f ≠ "" → vformat f args = Some text →
               has_prefix "!loglib " (c_truncate BUFFER_LEN text) = false →
               level_enabled g GlobalCtx level →
               w_syslog (PmLogPrint_ context level fmt args w).2 =
                 (level,
                  GetPidStr (globalContext g) PIDSTR_LEN +:+ " " +:+ PMLOG_IDENTIFIER
                  +:+ " " +:+
                  c_truncate (1 + PMLOG_MAX_CONTEXT_NAME_LEN + 3 + 1)
                    (component (globalContext g))
                  +:+ "  " +:+ c_truncate BUFFER_LEN text)
                 :: w_syslog w)) ∧
  (∀ context,
     (PmLogGetContext (Some LEGACY_LOG) (Some context) w).1.1 ≠ kPmLogErr_None →
     let w1 := (PmLogGetContext (Some LEGACY_LOG) (Some context) w).2 in
     PmLogPrint_ context level fmt args w = print_on context level fmt args w1 ∧
     PmLogVPrint_ context level fmt args w = print_on context level fmt args w1) ∧
  (w_globals w = None →
   ∀ context,
     PmLogGetContext (Some LEGACY_LOG) (Some context) w
       = ((kPmLogErr_Unknown, Some None), w) ∧
     PmLogPrint_ context level fmt args w = print_on context level fmt args w ∧
     PmLogVPrint_ context level fmt args w = print_on context level fmt args w ∧
     (context = None →
      PmLogPrint_ context level fmt args w = (kPmLogErr_InvalidContext, w)) ∧
     (∀ p f text,
        context = Some p →
        fmt = Some f → f ≠ "" → vformat f args = Some text →
        has_prefix "!loglib " (c_truncate BUFFER_LEN text) = false →
        kPmLogLevel_Emergency <= level <= kPmLogLevel_Debug →
        level <= enabledLevel (info (load_ctx (w_mapped w) p)) →
        w_syslog (PmLogPrint_ context level fmt args w).2 =
          (level,
           GetPidStr (load_ctx (w_mapped w) p) PIDSTR_LEN +:+ " " +:+ PMLOG_IDENTIFIER
           +:+ " " +:+
           c_truncate (1 + PMLOG_MAX_CONTEXT_NAME_LEN + 3 + 1)
             (component (load_ctx (w_mapped w) p))
           +:+ "  " +:+ c_truncate BUFFER_LEN text)
          :: w_syslog w)).
Proof.
  assert (Hsettled : ∀ g p w1 context,
            w_globals w1 = Some g →
            PmLogGetContext (Some LEGACY_LOG) (Some context) w
              = ((kPmLogErr_None, Some (Some p)), w1) →
            PmLogPrint_ context level fmt args w = check_and_print p level fmt args w1 ∧
            PmLogVPrint_ context level fmt args w = check_and_print p level fmt args w1).
  { intros g p w1 context Hg1 Hrun'. split.
    - unfold PmLogPrint_, check_and_print.
      rewrite !bind_run, Hrun'. cbn [fst snd default].
      case_decide; [done|].
      erewrite PrvResolveContext_usable by done.
      cbn [fst snd handle_ptr default from_option id]. by rewrite !bind_run.
    - unfold PmLogVPrint_, check_and_print.
      rewrite !bind_run, Hrun'. cbn [fst snd default].
      case_decide; [done|].
      erewrite PrvResolveContext_usable by done.
      cbn [fst snd handle_ptr default from_option id]. by rewrite !bind_run. }
  assert (Hfailed : ∀ context,
     (PmLogGetContext (Some LEGACY_LOG) (Some context) w).1.1 ≠ kPmLogErr_None →
     let w1 := (PmLogGetContext (Some LEGACY_LOG) (Some context) w).2 in
     PmLogPrint_ context level fmt args w = print_on context level fmt args w1 ∧
     PmLogVPrint_ context level fmt args w = print_on context level fmt args w1).
  { intros context Hfail w1.
    unfold PmLogPrint_, PmLogVPrint_, print_on, check_and_print.
    rewrite !(bind_run (PmLogGetContext _ _)). fold w1.
    by case_decide. }
  split_and!.
  - intros g Hg Hok Hname Hroom.
    pose proof (valid_name_accepted _ Hname) as Hv.
    destruct (PmLogGetContext_run LEGACY_LOG None w g Hg Hv) as (w1 & Hrun & Hg1 & Hlog1).
    assert (find_context LEGACY_LOG (get_or_add LEGACY_LOG g).2
            = Some (get_or_add LEGACY_LOG g).1) as Hfound.
    { apply get_or_add_registers; [done| |done].
      destruct Hname as [? _]. unfold PMLOG_MAX_CONTEXT_NAME_LEN. lia. }
    exists (get_or_add LEGACY_LOG g).1, w1, (get_or_add LEGACY_LOG g).2.
    split_and!; [done|by apply find_context_component|].
    intros context.
    assert (PmLogGetContext (Some LEGACY_LOG) (Some context) w =
            ((kPmLogErr_None, Some (Some (get_or_add LEGACY_LOG g).1)), w1)) as Hrun'
      by exact Hrun.
    destruct (Hsettled _ _ _ context Hg1 Hrun') as [Hprint Hvprint].
    split_and!; [done..|].
    intros f text -> Hf Htext Hcmd Hen. rewrite Hprint.
    erewrite check_and_print_line by done.
    rewrite (find_context_component _ _ _ Hfound), Hlog1.
    unfold c_truncate at 1. rewrite substring_all; [done|].
    destruct Hname as [Hlen _]. unfold strlen, PMLOG_MAX_CONTEXT_NAME_LEN in *. lia.
  - intros g Hg Hname Hnew Hfull.
    pose proof (valid_name_accepted _ Hname) as Hv.
    destruct (PmLogGetContext_run LEGACY_LOG None w g Hg Hv) as (w1 & Hrun & Hg1 & Hlog1).
    assert (get_or_add LEGACY_LOG g = (GlobalCtx, g)) as Hfallback.
    { unfold get_or_add.
      rewrite (proj2 (find_context_None LEGACY_LOG g)) by (by left).
      case_decide; [done|lia]. }
    rewrite Hfallback in Hrun, Hg1. cbn [fst snd] in Hrun, Hg1.
    exists w1. split; [done|]. intros context.
    assert (PmLogGetContext (Some LEGACY_LOG) (Some context) w =
            ((kPmLogErr_None, Some (Some GlobalCtx)), w1)) as Hrun' by exact Hrun.
    destruct (Hsettled _ _ _ context Hg1 Hrun') as [Hprint Hvprint].
    split_and!; [done..|].
    intros f text -> Hf Htext Hcmd Hen. rewrite Hprint.
    erewrite check_and_print_line by done. by rewrite Hlog1.
  - exact Hfailed.
  - intros Hg context.
    assert (PmLogGetContext (Some LEGACY_LOG) (Some context) w
            = ((kPmLogErr_Unknown, Some None), w)) as Hrun.
    { unfold PmLogGetContext. rewrite bind_run. cbn [gets fst snd]. by rewrite Hg. }
    destruct (Hfailed context) as [Hprint Hvprint]; [by rewrite Hrun|].
    rewrite Hrun in Hprint, Hvprint. cbn [snd] in Hprint, Hvprint.
    split_and!; [done..| |].
    + intros ->. rewrite Hprint. unfold print_on, PrvResolveContext, gGlobalContextP.
      rewrite bind_run. cbn [gets fst snd]. by rewrite Hg.
    + intros p f text -> -> Hf Htext Hcmd Hrange Hle. rewrite Hprint.
      unfold print_on. rewrite bind_run. cbn [PrvResolveContext ret fst snd].
      by apply check_and_print_line_mapped.
Qed.

(** C6, as the code has it. In a structured call below the debug level,
    on a context that lets the level through, a message-id that is NULL or
    has a space or a brace gives InvalidMsgID to the caller. The empty
    message-id is told apart by [validate_msgid], which answers EmptyMsgID,
    but the caller does not receive that code: both entry points return
    InvalidFormat, once the line is formatted. What they hand to syslog,
    when the head of the diagnostic fits its buffer: the EMPTY_MSGID
    diagnostic and nothing else when the line is formatted and no other
    check fails first (in [PmLogString_] the key-value text is NULL or
    passes the JSON check; in [_PmLogMsgKV] the count of pairs is zero or
    keys and format are accepted, and the formatted text is under 1024
    bytes); the INVALID_JSON diagnostic and nothing else when the JSON
    check of [PmLogString_] fails; and the MISMATCHED_FMT diagnostic,
    following whatever [validate_keys] logged, when the keys or the format
    of [_PmLogMsgKV] are refused. *)
Theorem msgid_conditions_seen_by_caller context level msgid kvpairs message
    flags kv_count check_keywords check_formats fmt args w g :
  w_globals w = Some g →
  level_enabled g (handle_ptr context) level →
  level ≠ kPmLogLevel_Debug →
  (msgid = None ∨
   (∃ id, msgid = Some id ∧ Exists forbidden_in_msgid (list_ascii_of_string id)) →
   (PmLogString_ context level msgid kvpairs message w).1 = kPmLogErr_InvalidMsgID ∧
   (_PmLogMsgKV context level flags msgid kv_count check_keywords check_formats
      fmt args w).1 = kPmLogErr_InvalidMsgID) ∧
  (msgid = Some "" →
   (validate_msgid msgid (handle_ptr context) w).1 = kPmLogErr_EmptyMsgID ∧
   (snprintf_ret (default "{}" kvpairs +:+ " " +:+ default "" message) >= 0 →
    (PmLogString_ context level msgid kvpairs message w).1 = kPmLogErr_InvalidFormat) ∧
   (vformat fmt args ≠ None →
    (_PmLogMsgKV context level flags msgid kv_count check_keywords check_formats
       fmt args w).1 = kPmLogErr_InvalidFormat) ∧
   let c := load_ctx g (handle_ptr context) in
   (strlen (diagnostic_head c) < 1024 →
    (snprintf_ret (default "{}" kvpairs +:+ " " +:+ default "" message) >= 0 →
     kvpairs = None ∨
     (∃ kv, kvpairs = Some kv ∧
            (validate_json_string kv kPmLogErr_EmptyMsgID false).1 = true) →
     w_syslog (PmLogString_ context level msgid kvpairs message w).2 =
       (LOG_ERR,
        diagnostic_line c
          (empty_msgid_msg
             (strtruncate_and_escape
                (c_truncate BUFFER_LEN
                   (default "{}" kvpairs +:+ " " +:+ default "" message)))))
       :: w_syslog w) ∧
    (∀ kv, kvpairs = Some kv →
       (validate_json_string kv kPmLogErr_EmptyMsgID false).1 = false →
       (PmLogString_ context level msgid kvpairs message w).1 = kPmLogErr_InvalidFormat ∧
       w_syslog (PmLogString_ context level msgid kvpairs message w).2 =
         (LOG_ERR,
          diagnostic_line c
            (invalid_json_msg (Some "")
               (validate_json_string kv kPmLogErr_EmptyMsgID false).2
               (strtruncate_and_escape kv)))
         :: w_syslog w) ∧
    (∀ text, vformat fmt args = Some text → strlen text < BUFFER_LEN →
       kv_count = 0 ∨
       ((validate_keys kv_count check_keywords (component c) (Some "") w).1 = true ∧
        validate_format flags kv_count check_formats = true) →
       w_syslog (_PmLogMsgKV context level flags msgid kv_count check_keywords
                   check_formats fmt args w).2 =
         (LOG_ERR,
          diagnostic_line c
            (empty_msgid_msg
               (strtruncate_and_escape
                  (c_truncate
                     (BUFFER_LEN - (if decide (kv_count = 0) then strlen "{} " else 0))
                     text))))
         :: w_syslog w) ∧
    (kv_count ≠ 0 →
     (validate_keys kv_count check_keywords (component c) (Some "") w).1 = false ∨
     validate_format flags kv_count check_formats = false →
     (_PmLogMsgKV context level flags msgid kv_count check_keywords check_formats
        fmt args w).1 = kPmLogErr_InvalidFormat ∧
     w_syslog (_PmLogMsgKV context level flags msgid kv_count check_keywords
                 check_formats fmt args w).2 =
       (LOG_ERR,
        diagnostic_line c
          ("MISMATCHED_FMT {" +:+ json_field "MSGID" (show_ptr (Some "")) +:+ "}"))
       :: w_syslog (validate_keys kv_count check_keywords (component c) (Some "") w).2))).
Proof.
  intros Hg Hen Hlevel.
  assert (Hstart : ∀ (k : ctx_ptr → M PmLogErr),
    (contextP <- PrvResolveContext context ;;
     match contextP with
     | None => ret kPmLogErr_InvalidContext
     | Some contextP =>
         logErr <- PrvCheckContext contextP level ;;
         if decide (logErr ≠ kPmLogErr_None) then ret logErr else k contextP
     end) w = k (handle_ptr context) w).
  { intros k. rewrite bind_run, (PrvResolveContext_usable _ _ _ Hg). cbn [fst snd].
    rewrite bind_run, (PrvCheckContext_enabled _ _ _ _ Hg Hen). cbn [fst snd].
    by case_decide. }
  assert (Hstart' : ∀ (k : ctx_ptr → M PmLogErr),
    (contextP <- PrvResolveContext context ;;
     match contextP with
     | None => ret kPmLogErr_InvalidContext
     | Some contextP =>
         logErr <- PrvCheckContext contextP level ;;
         if decide (kPmLogErr_None ≠ logErr) then ret logErr else k contextP
     end) w = k (handle_ptr context) w).
  { intros k. rewrite bind_run, (PrvResolveContext_usable _ _ _ Hg). cbn [fst snd].
    rewrite bind_run, (PrvCheckContext_enabled _ _ _ _ Hg Hen). cbn [fst snd].
    by case_decide. }
  split.
  - intros Hbad.
    assert ((validate_msgid msgid (handle_ptr context) w).1 = kPmLogErr_InvalidMsgID) as Hid.
    { destruct Hbad as [->|(id & -> & Hex)];
        [apply validate_msgid_null|by apply validate_msgid_forbidden]. }
    split.
    + unfold PmLogString_. rewrite Hstart, bind_run.
      by rewrite PmLogString_checks_invalid.
    + unfold _PmLogMsgKV. rewrite Hstart', bind_run.
      by rewrite PmLogMsgKV_checks_invalid.
  - intros ->. split_and!; [done| | |].
    + intros Hfmt. unfold PmLogString_. rewrite Hstart, bind_run.
      destruct (PmLogString_checks_empty (handle_ptr context) level kvpairs message w Hlevel)
        as [-> | ->]; [done|].
      rewrite bind_run. cbn [deref gets fst snd]. rewrite bind_run. cbv zeta.
      case_decide; [lia|]. by case_decide.
    + intros Hfmt. unfold _PmLogMsgKV. rewrite Hstart', bind_run.
      destruct (PmLogMsgKV_checks_empty (handle_ptr context) level flags kv_count
                  check_keywords check_formats w Hlevel) as [-> | ->]; [done|].
      rewrite bind_run. cbn [deref gets fst snd]. rewrite bind_run. cbv zeta.
      destruct (vformat fmt args) as [text|]; [|done].
      rewrite bind_run. by case_decide.
    + cbv zeta. intros Hhead.
      set (c := load_ctx g (handle_ptr context)) in *.
      assert (Hderef : ∀ e, deref (handle_ptr context) (set_errno e w) = (c, set_errno e w)).
      { intros e. unfold deref, gets. simpl. by rewrite Hg. }
      assert (Hdiag : ∀ m w', w_syslog w' = w_syslog w →
                w_syslog (ErrPrint (component c) (GetPidStr c PIDSTR_LEN) m w').2
                = (LOG_ERR, diagnostic_line c m) :: w_syslog w).
      { intros m w' <-. by apply ErrPrint_diagnostic. }
      split_and!.
      * intros Hfmt Hjson. unfold PmLogString_. rewrite Hstart, bind_run.
        rewrite (PmLogString_checks_empty_run _ _ _ _ _ g) by done.
        assert ((match kvpairs with
                 | Some kv =>
                     if (validate_json_string kv kPmLogErr_EmptyMsgID false).1
                     then (inr (kPmLogErr_EmptyMsgID, Some ""), w)
                     else (inl kPmLogErr_InvalidFormat,
                           (ErrPrint (component (load_ctx g (handle_ptr context)))
                              (GetPidStr (load_ctx g (handle_ptr context)) PIDSTR_LEN)
                              (invalid_json_msg (Some "")
                                 (validate_json_string kv kPmLogErr_EmptyMsgID false).2
                                 (strtruncate_and_escape kv)) w).2)
                 | None => (inr (kPmLogErr_EmptyMsgID, Some ""), w)
                 end) = (inr (kPmLogErr_EmptyMsgID, Some ""), w)) as ->.
        { destruct Hjson as [->|(kv & -> & ->)]; done. }
        cbn [fst snd].
        rewrite bind_run, !(deref_run _ _ g) by done. cbn [fst snd]. fold c.
        rewrite bind_run. cbv zeta. cbn [libc modify fst snd].
        case_decide; [lia|]. rewrite decide_True by done.
        rewrite bind_run. cbn [ret fst snd]. by apply Hdiag.
      * intros kv -> Hjson. unfold PmLogString_. rewrite Hstart, bind_run.
        rewrite (PmLogString_checks_empty_run _ _ _ _ _ g) by done.
        rewrite Hjson. cbn [fst snd ret]. fold c. split; [done|]. by apply Hdiag.
      * intros text Htext Hshort Hchecks. unfold _PmLogMsgKV. rewrite Hstart', bind_run.
        rewrite (PmLogMsgKV_checks_empty_run _ _ _ _ _ _ _ g) by done. fold c. cbv zeta.
        assert ((if decide (kv_count ≠ 0)
                 then
                  if (validate_keys kv_count check_keywords (component c) (Some "") w).1 &&
                     validate_format flags kv_count check_formats
                  then (inr (kPmLogErr_EmptyMsgID, Some ""),
                        (validate_keys kv_count check_keywords (component c) (Some "") w).2)
                  else (inl kPmLogErr_InvalidFormat,
                        (ErrPrint (component c) (GetPidStr c PIDSTR_LEN)
                           ("MISMATCHED_FMT {" +:+ json_field "MSGID" (show_ptr (Some ""))
                            +:+ "}")
                           (validate_keys kv_count check_keywords (component c)
                              (Some "") w).2).2)
                 else (inr (kPmLogErr_EmptyMsgID, Some ""), w))
                = (inr (kPmLogErr_EmptyMsgID, Some ""), w)) as ->.
        { case_decide as Hkv; [|done].
          destruct Hchecks as [?|[Hkeys Hformat]]; [done|].
          rewrite (validate_keys_accepts_silently _ _ _ _ _ Hkeys), Hformat. done. }
        cbn [fst snd].
        rewrite bind_run, !(deref_run _ _ g) by done. cbn [fst snd]. fold c.
        cbv zeta. rewrite bind_run. cbn [libc modify fst snd]. rewrite Htext.
        rewrite bind_run. rewrite (decide_False (P := strlen text >= BUFFER_LEN)) by lia.
        cbn [ret fst snd]. rewrite decide_True by done.
        rewrite bind_run. cbn [ret fst snd]. by apply Hdiag.
      * intros Hkv Hrefused. unfold _PmLogMsgKV. rewrite Hstart', bind_run.
        rewrite (PmLogMsgKV_checks_empty_run _ _ _ _ _ _ _ g) by done. fold c. cbv zeta.
        rewrite decide_True by done.
        assert ((validate_keys kv_count check_keywords (component c) (Some "") w).1 &&
                validate_format flags kv_count check_formats = false) as ->.
        { destruct Hrefused as [-> | ->]; [done|apply andb_false_r]. }
        cbn [fst snd ret]. split; [done|].
        unfold ErrPrint, CallSysLog, diagnostic_line, diagnostic_head in *.
        cbv zeta. rewrite decide_True by done.
        unfold block_signals, unblock_signals, syslog, libc, bind, gets, modify, ret.
        by destruct (validate_keys _ _ _ _ _).2.
Qed.

(** C5 (the code does not do this). The spec has the number of keys in
    the separator-delimited key list agree with the number of conversions
    of the format. [validate_keys] walks the key list and counts its keys
    in [current_key], but uses the count in diagnostics only; what
    [validate_format] compares with the conversions is the argument
    [kv_count]. A key list of one key goes through with [kv_count = 2] and
    a format of two conversions, and the call is dispatched. *)
Theorem key_list_count_is_not_compared context_name msgid w :
  declared_keys "k1" = 1 ∧
  count_conversions "%s=%d" 0 = 2 ∧
  (validate_keys 2 (Some "k1") context_name msgid w).1 = true ∧
  validate_format 0 2 (Some "%s=%d") = true ∧
  (@_PmLogMsgKV sample_header sample_externals None kPmLogLevel_Error 0
     (Some "MSGID") 2 (Some "k1") (Some "%s=%d") "%s=%d free" (Some "{} free")
     (sample_world (Some sample_globals))).1 = kPmLogErr_None.
Proof.
  split_and!; [reflexivity..| |vm_compute; reflexivity].
  unfold validate_format. by case_decide.
Qed.

End Properties.

(** * The claims on the sample platform *)

Lemma valid_name_check name :
  1 <= strlen name <= PMLOG_MAX_CONTEXT_NAME_LEN →
  name_chars_loop name = kPmLogErr_None →
  valid_name name.
Proof. intros Hlen Hchars. split; [done|]. by apply name_chars_loop_accepts. Qed.

Lemma sample_globals_ok : registry_ok sample_globals.
Proof.
  split; simpl; try lia.
  intros i j a b [Hi _] [Hj _] _. simpl in *. lia.
Qed.

Lemma sample_not_registered name :
  name ≠ "<global>" → name ≠ "A" → ¬ registered sample_globals name.
Proof.
  intros Hg Ha [H|(i & c & [Hi Hc] & Hname)]; [by apply Hg|].
  simpl in Hi. assert (i = O) as -> by lia.
  injection Hc as <-. by apply Ha.
Qed.

(** The empty message-id in [PmLogString_]: the caller gets InvalidFormat,
    which is not EmptyMsgID. *)
Lemma empty_msgid_returns_InvalidFormat :
  (@PmLogString_ sample_header sample_externals None kPmLogLevel_Error
     (Some "") None (Some "text") (sample_world (Some sample_globals))).1
    = kPmLogErr_InvalidFormat ∧
  (@PmLogString_ sample_header sample_externals None kPmLogLevel_Error
     (Some "") None (Some "text") (sample_world (Some sample_globals))).1
    ≠ kPmLogErr_EmptyMsgID.
Proof. split; [vm_compute; reflexivity|vm_compute; discriminate]. Qed.

Lemma full_not_registered name :
  name ≠ "<global>" → name ≠ "A" → name ≠ "" → ¬ registered full_globals name.
Proof.
  intros Hg Ha He [H|(i & c & [Hi Hc] & Hname)]; [by apply Hg|].
  destruct i as [|[|[|[|i]]]]; simpl in Hi, Hc; try lia;
    injection Hc as <-; simpl in Hname; by subst.
Qed.

Lemma full_table_fallback_witness :
  numUserContexts full_globals = maxUserContexts full_globals ∧
  ∃ w', @PmLogGetContext sample_header sample_externals (Some "NEW") (Some None)
          (sample_world (Some full_globals))
        = ((kPmLogErr_None, Some (Some GlobalCtx)), w') ∧
        w_globals w' = Some full_globals.
Proof.
  split; [reflexivity|].
  apply (PmLogGetContext_full_table_fallback (hdr := sample_header)
           (ext := sample_externals) "NEW" None (sample_world (Some full_globals))
           full_globals);
    [reflexivity|reflexivity|reflexivity|by apply full_not_registered].
Defined.

(** The example of the spec: with ["A"] registered at level info and
    ["A.B"] missing, ["A.B.C"] is created at level info. *)
Lemma hierarchical_defaults_witness :
  ∃ w' g' c',
    @PmLogGetContext sample_header sample_externals (Some "A.B.C") (Some None)
      (sample_world (Some sample_globals))
    = ((kPmLogErr_None, Some (Some (UserCtx 1))), w') ∧
    w_globals w' = Some g' ∧
    userContexts g' !! 1%nat = Some c' ∧
    component c' = "A.B.C" ∧
    enabledLevel (info c') = kPmLogLevel_Info.
Proof.
  destruct (PmLogGetContext_hierarchical_defaults (hdr := sample_header)
              (ext := sample_externals) "A.B.C" None
              (sample_world (Some sample_globals)) sample_globals)
    as (w' & g' & c' & Hrun & Hg' & _ & Hslot & Hname & Hanc & _).
  - reflexivity.
  - exact sample_globals_ok.
  - by apply valid_name_check.
  - by apply sample_not_registered.
  - simpl. lia.
  - exists w', g', c'. split_and!; [done..|].
    rewrite (Hanc "A" O (sample_context "A" kPmLogLevel_Info)); [done| | |done|].
    + by exists "B.C".
    + split; [simpl; lia|done].
    + intros q j b Hq Hlen [Hj Hb] <-. simpl in Hj. assert (j = O) as -> by lia.
      injection Hb as <-. simpl in Hlen. lia.
Defined.

Lemma create_lookup_agree_witness :
  (∃ h w1 w2 w3,
     @PmLogGetContext sample_header sample_externals (Some "B") (Some None)
       (sample_world (Some sample_globals)) = ((kPmLogErr_None, Some (Some h)), w1) ∧
     @PmLogGetContext sample_header sample_externals (Some "B") (Some None) w1
       = ((kPmLogErr_None, Some (Some h)), w2) ∧
     w_globals w2 = w_globals w1 ∧
     @PmLogFindContext sample_header sample_externals (Some "B") (Some None) w1
       = ((kPmLogErr_None, Some (Some h)), w3)) ∧
  (@PmLogGetContext sample_header sample_externals (Some "bad name") (Some None)
     (sample_world (Some sample_globals))).1.1 = kPmLogErr_InvalidContextName ∧
  (@PmLogFindContext sample_header sample_externals (Some "bad name") (Some None)
     (sample_world (Some sample_globals))).1.1 = kPmLogErr_InvalidContextName.
Proof.
  split.
  - apply (PmLogGetContext_PmLogFindContext_agree (hdr := sample_header)
             (ext := sample_externals) "B" None None None
             (sample_world (Some sample_globals)) sample_globals);
      [reflexivity|exact sample_globals_ok|by apply valid_name_check|simpl; lia].
  - apply (PmLogGetContext_PmLogFindContext_agree (hdr := sample_header)
             (ext := sample_externals) "bad name" None None None
             (sample_world (Some sample_globals)) sample_globals);
      [reflexivity|exact sample_globals_ok| |done|done].
    intros [_ Hchars]. apply name_chars_loop_accepts in Hchars. discriminate.
Defined.

Lemma fallback_reports_success_witness :
  numUserContexts full_globals >= maxUserContexts full_globals ∧
  (@PmLogGetContext sample_header sample_externals (Some "NEW") (Some None)
     (sample_world (Some full_globals))).1 = (kPmLogErr_None, Some (Some GlobalCtx)).
Proof.
  split; [simpl; lia|].
  apply (PmLogGetContext_fallback_reports_success (hdr := sample_header)
           (ext := sample_externals) "NEW" None (sample_world (Some full_globals))
           full_globals);
    [reflexivity|simpl; lia|reflexivity|by apply full_not_registered].
Defined.

Lemma msgid_conditions_witness :
  level_enabled sample_globals GlobalCtx kPmLogLevel_Error ∧
  (@PmLogString_ sample_header sample_externals None kPmLogLevel_Error
     (Some "a b") None (Some "text") (sample_world (Some sample_globals))).1
    = kPmLogErr_InvalidMsgID ∧
  (@PmLogString_ sample_header sample_externals None kPmLogLevel_Error
     (Some "") None (Some "text") (sample_world (Some sample_globals))).1
    = kPmLogErr_InvalidFormat ∧
  w_syslog (@PmLogString_ sample_header sample_externals None kPmLogLevel_Error
              (Some "") None (Some "text") (sample_world (Some sample_globals))).2
    = [(LOG_ERR, "[] pmlog <global> " +:+ empty_msgid_msg "{} text")] ∧
  w_syslog (@PmLogString_ sample_header sample_externals None kPmLogLevel_Error
              (Some "") (Some "x") (Some "text") (sample_world (Some sample_globals))).2
    = [(LOG_ERR,
        "[] pmlog <global> " +:+ invalid_json_msg (Some "") kPmLogErr_EmptyMsgID "x")] ∧
  w_syslog (@_PmLogMsgKV sample_header sample_externals None kPmLogLevel_Error 0
              (Some "") 1 None None "f" (Some "{} text")
              (sample_world (Some sample_globals))).2
    = [(LOG_ERR,
        "[] pmlog <global> MISMATCHED_FMT {" +:+ json_field "MSGID" "" +:+ "}")].
Proof.
  assert (level_enabled sample_globals GlobalCtx kPmLogLevel_Error) as Hen
    by (split; simpl; unfold kPmLogLevel_Emergency, kPmLogLevel_Debug,
          kPmLogLevel_Error, kPmLogLevel_Warning; lia).
  assert (kPmLogLevel_Error ≠ kPmLogLevel_Debug) as Hne by done.
  split_and!; [done| | | | |].
  - apply (msgid_conditions_seen_by_caller (hdr := sample_header)
             (ext := sample_externals) None kPmLogLevel_Error (Some "a b") None
             (Some "text") 0 0 None None "" None
             (sample_world (Some sample_globals)) sample_globals);
      [reflexivity|done|done|].
    right. exists "a b". split; [done|]. simpl. right. left. by left.
  - destruct (msgid_conditions_seen_by_caller (hdr := sample_header)
                (ext := sample_externals) None kPmLogLevel_Error (Some "") None
                (Some "text") 0 0 None None "" None
                (sample_world (Some sample_globals)) sample_globals eq_refl Hen Hne)
      as [_ Hempty].
    destruct (Hempty eq_refl) as (_ & Hcode & _). by apply Hcode.
  - destruct (msgid_conditions_seen_by_caller (hdr := sample_header)
                (ext := sample_externals) None kPmLogLevel_Error (Some "") None
                (Some "text") 0 0 None None "" None
                (sample_world (Some sample_globals)) sample_globals eq_refl Hen Hne)
      as [_ Hempty].
    destruct (Hempty eq_refl) as (_ & _ & _ & Hdiag). cbv zeta in Hdiag.
    destruct Hdiag as (Hline & _); [reflexivity|].
    rewrite Hline; [reflexivity|done|by left].
  - destruct (msgid_conditions_seen_by_caller (hdr := sample_header)
                (ext := sample_externals) None kPmLogLevel_Error (Some "") (Some "x")
                (Some "text") 0 0 None None "" None
                (sample_world (Some sample_globals)) sample_globals eq_refl Hen Hne)
      as [_ Hempty].
    destruct (Hempty eq_refl) as (_ & _ & _ & Hdiag). cbv zeta in Hdiag.
    destruct Hdiag as (_ & Hjson & _); [reflexivity|].
    destruct (Hjson "x" eq_refl eq_refl) as [_ Hline]. by rewrite Hline.
  - destruct (msgid_conditions_seen_by_caller (hdr := sample_header)
                (ext := sample_externals) None kPmLogLevel_Error (Some "") None
                None 0 1 None None "f" (Some "{} text")
                (sample_world (Some sample_globals)) sample_globals eq_refl Hen Hne)
      as [_ Hempty].
    destruct (Hempty eq_refl) as (_ & _ & _ & Hdiag). cbv zeta in Hdiag.
    destruct Hdiag as (_ & _ & _ & Hmismatch); [reflexivity|].
    destruct Hmismatch as [_ Hline]; [done|by left|]. by rewrite Hline.
Defined.

(** Level gating on the sample registry, whose global context has its
    threshold at warning. *)
Lemma level_gating_witness :
  (PrvCheckContext GlobalCtx kPmLogLevel_Info (sample_world (Some sample_globals))).1
    = kPmLogErr_LevelDisabled ∧
  (PrvCheckContext GlobalCtx kPmLogLevel_Error (sample_world (Some sample_globals))).1
    = kPmLogErr_None.
Proof.
  apply (PrvCheckContext_gating GlobalCtx 0 (sample_world (Some sample_globals))).
  reflexivity.
Defined.

(** A caller passes the handle of ["A"]; the line goes out under the
    [LEGACY_LOG] context, created on the way. On the full table, where
    [LEGACY_LOG] cannot be created, it goes out under the global context at
    a level that context lets through. Without a registry
    [PmLogGetContext] fails and the line goes out under ["A"], read
    through the caller's pointer. *)
Lemma legacy_context_witness :
  w_syslog (@PmLogPrint_ sample_header sample_externals (Some (UserCtx 0))
              kPmLogLevel_Error (Some "%s") (Some "hello")
              (sample_world (Some sample_globals))).2
    = [(kPmLogLevel_Error, "[] pmlog LEGACY  hello")] ∧
  w_syslog (@PmLogPrint_ sample_header sample_externals (Some (UserCtx 0))
              kPmLogLevel_Error (Some "%s") (Some "hello")
              (sample_world (Some full_globals))).2
    = [(kPmLogLevel_Error, "[] pmlog <global>  hello")] ∧
  @PmLogPrint_ sample_header sample_externals (Some (UserCtx 0))
    kPmLogLevel_Error (Some "%s") (Some "hello") (sample_world None)
  = @print_on sample_header sample_externals (Some (UserCtx 0))
      kPmLogLevel_Error (Some "%s") (Some "hello") (sample_world None) ∧
  w_syslog (@PmLogPrint_ sample_header sample_externals (Some (UserCtx 0))
              kPmLogLevel_Error (Some "%s") (Some "hello") (sample_world None)).2
    = [(kPmLogLevel_Error, "[] pmlog A  hello")].
Proof.
  pose proof (legacy_context_overrides_caller (hdr := sample_header)
                (ext := sample_externals) kPmLogLevel_Error (Some "%s") (Some "hello"))
    as Hlegacy.
  split_and!.
  - destruct (Hlegacy (sample_world (Some sample_globals))) as (Hfound & _).
    destruct (Hfound sample_globals) as (p & w1 & g1 & Hg1 & Hname & Hcalls).
    + reflexivity.
    + exact sample_globals_ok.
    + by apply valid_name_check.
    + left. simpl. lia.
    + destruct (Hcalls (Some (UserCtx 0))) as (Hrun & _ & _ & Hline).
      injection Hrun as <- <-. injection Hg1 as <-.
      by rewrite (Hline "%s" "hello").
  - destruct (Hlegacy (sample_world (Some full_globals))) as (_ & Hfull & _).
    destruct (Hfull full_globals) as (w1 & Hg1 & Hcalls).
    + reflexivity.
    + by apply valid_name_check.
    + apply full_not_registered; discriminate.
    + simpl. lia.
    + destruct (Hcalls (Some (UserCtx 0))) as (_ & _ & _ & Hline).
      rewrite (Hline "%s" "hello"); [reflexivity|done|discriminate|done|done|].
      split; simpl; unfold kPmLogLevel_Emergency, kPmLogLevel_Debug, kPmLogLevel_Error,
        kPmLogLevel_Warning; lia.
  - destruct (Hlegacy (sample_world None)) as (_ & _ & Hfailed & _).
    apply (Hfailed (Some (UserCtx 0))). done.
  - destruct (Hlegacy (sample_world None)) as (_ & _ & _ & Hnone).
    destruct (Hnone eq_refl (Some (UserCtx 0))) as (_ & _ & _ & _ & Hline).
    rewrite (Hline (UserCtx 0) "%s" "hello"); [reflexivity|done|done|discriminate|done|done| |].
    + unfold kPmLogLevel_Emergency, kPmLogLevel_Debug, kPmLogLevel_Error. lia.
    + simpl. unfold kPmLogLevel_Error, kPmLogLevel_Info. lia.
Defined.

(** On the sample platform every libc call leaves 11 in [errno]: a
    diagnostic changes it, [PrvLogWrite] hands it back as it was. *)
Lemma errno_changes_inside :
  w_errno (@ErrPrint sample_header sample_externals "A" "[]" "text"
             (sample_world (Some sample_globals))).2 = 11 ∧
  w_errno (@PrvLogWrite sample_header sample_externals GlobalCtx kPmLogLevel_Error
             None "text" (sample_world (Some sample_globals))).2 = 0.
Proof. split; reflexivity. Qed.

(** * Properties of the rest of the library *)

Section MoreProperties.

Context {hdr : Header} {ext : Externals} {hdr2 : MoreHeader} {os : Os}.

(** ** The label tables *)

Lemma PrvGetIntLabel_Some labels n s :
  PrvGetIntLabel labels n = Some s → mkLabel s n ∈ labels.
Proof.
  induction labels as [|[s' n'] rest IH]; [done|]. simpl.
  case_decide as Hn; simpl in Hn.
  - intros [= <-]. subst. by left.
  - intros H. right. by apply IH.
Qed.

Lemma PrvLabelToInt_Some labels s n :
  PrvLabelToInt labels s = Some n → mkLabel s n ∈ labels.
Proof.
  induction labels as [|[s' n'] rest IH]; [done|]. simpl.
  case_decide as Hs; simpl in Hs.
  - intros [= <-]. subst. by left.
  - intros H. right. by apply IH.
Qed.

Lemma PrvGetIntLabel_None labels n :
  PrvGetIntLabel labels n = None ↔ n ∉ map label_n labels.
Proof.
  induction labels as [|[s' n'] rest IH]; simpl.
  - split; [intros _; apply not_elem_of_nil|done].
  - rewrite not_elem_of_cons. case_decide as Hn; simpl in Hn.
    + split; [done|]. by intros [? _].
    + rewrite IH. split; [by split|by intros [_ ?]].
Qed.

Lemma PrvLabelToInt_None labels s :
  PrvLabelToInt labels s = None ↔ s ∉ map label_s labels.
Proof.
  induction labels as [|[s' n'] rest IH]; simpl.
  - split; [intros _; apply not_elem_of_nil|done].
  - rewrite not_elem_of_cons. case_decide as Hs; simpl in Hs.
    + split; [done|]. by intros [? _].
    + rewrite IH. split; [by split|by intros [_ ?]].
Qed.

Lemma PrvGetIntLabel_elem labels p :
  NoDup (map label_n labels) → p ∈ labels →
  PrvGetIntLabel labels (label_n p) = Some (label_s p).
Proof.
  induction labels as [|q rest IH]; intros Hnd Hp; [by apply elem_of_nil in Hp|].
  simpl in *. apply NoDup_cons in Hnd as [Hq Hnd].
  apply elem_of_cons in Hp as [->|Hp]; [by case_decide|].
  case_decide as Heq; [|by apply IH].
  destruct Hq. rewrite Heq. by apply list_elem_of_fmap_2.
Qed.

Lemma PrvLabelToInt_elem labels p :
  NoDup (map label_s labels) → p ∈ labels →
  PrvLabelToInt labels (label_s p) = Some (label_n p).
Proof.
  induction labels as [|q rest IH]; intros Hnd Hp; [by apply elem_of_nil in Hp|].
  simpl in *. apply NoDup_cons in Hnd as [Hq Hnd].
  apply elem_of_cons in Hp as [->|Hp]; [by case_decide|].
  case_decide as Heq; [|by apply IH].
  destruct Hq. rewrite Heq. by apply list_elem_of_fmap_2.
Qed.

Lemma label_lookups_inverse labels n s :
  NoDup (map label_n labels) → NoDup (map label_s labels) →
  PrvGetIntLabel labels n = Some s ↔ PrvLabelToInt labels s = Some n.
Proof.
  intros Hn Hs. split.
  - intros H%PrvGetIntLabel_Some. by apply (PrvLabelToInt_elem _ (mkLabel s n)).
  - intros H%PrvLabelToInt_Some. by apply (PrvGetIntLabel_elem _ (mkLabel s n)).
Qed.

(** X1. In a table whose codes are distinct and whose labels are distinct,
    the lookup by code and the lookup by label are inverse to each other,
    and a code or a label that the table does not have gives NULL. *)
Theorem label_table_round_trip labels :
  NoDup (map label_n labels) → NoDup (map label_s labels) →
  (∀ n s, PrvGetIntLabel labels n = Some s ↔ PrvLabelToInt labels s = Some n) ∧
  (∀ n, PrvGetIntLabel labels n = None ↔ n ∉ map label_n labels) ∧
  (∀ s, PrvLabelToInt labels s = None ↔ s ∉ map label_s labels).
Proof.
  intros Hn Hs. split_and!.
  - intros n s. by apply label_lookups_inverse.
  - apply PrvGetIntLabel_None.
  - apply PrvLabelToInt_None.
Qed.

Lemma kLogLevelLabels_distinct :
  NoDup (map label_n kLogLevelLabels) ∧ NoDup (map label_s kLogLevelLabels).
Proof. split; apply (bool_decide_unpack _); vm_compute; exact I. Qed.

Lemma kLogFacilityLabels_distinct :
  NoDup (map label_n kLogFacilityLabels) ∧ NoDup (map label_s kLogFacilityLabels).
Proof. split; apply (bool_decide_unpack _); vm_compute; exact I. Qed.

(** X2. The level labels: a level has a label exactly when it is in -1..7,
    and the nine labels and the nine levels correspond one to one through
    [PmLogLevelToString] and [PmLogStringToLevel]. A configuration level
    parses exactly when it is one of the labels, and what it parses to is a
    level [PmLogSetContextLevel] accepts. *)
Theorem level_labels_round_trip :
  (∀ level, is_Some (PmLogLevelToString level) ↔
            kPmLogLevel_None <= level <= kPmLogLevel_Debug) ∧
  (∀ level s, PmLogLevelToString level = Some s ↔ PmLogStringToLevel s = Some level) ∧
  (∀ s, (PrvParseConfigLevel s).1 = true ↔ is_Some (PmLogStringToLevel s)) ∧
  (∀ s, (PrvParseConfigLevel s).1 = true →
        (PrvParseConfigLevel s).2 = kPmLogLevel_None ∨
        PrvIsValidLevel (PrvParseConfigLevel s).2 = true) ∧
  (∀ s, (PrvParseConfigLevel s).1 = false → (PrvParseConfigLevel s).2 = -1).
Proof.
  destruct kLogLevelLabels_distinct as [Hn Hs].
  pose proof (λ n s, label_lookups_inverse kLogLevelLabels n s Hn Hs) as Hrt.
  pose proof (PrvGetIntLabel_None kLogLevelLabels) as Hnone.
  assert (Hrange : ∀ level, is_Some (PmLogLevelToString level) ↔
                            kPmLogLevel_None <= level <= kPmLogLevel_Debug).
  { intros level. unfold PmLogLevelToString.
    rewrite <- not_eq_None_Some, Hnone.
    unfold kPmLogLevel_None, kPmLogLevel_Debug. split.
    - intros Hin. destruct (decide (-1 <= level <= 7)) as [|Hout]; [done|].
      destruct Hin. simpl. rewrite !not_elem_of_cons.
      unfold kPmLogLevel_None, kPmLogLevel_Emergency, kPmLogLevel_Alert,
        kPmLogLevel_Critical, kPmLogLevel_Error, kPmLogLevel_Warning,
        kPmLogLevel_Notice, kPmLogLevel_Info, kPmLogLevel_Debug.
      split_and!; try lia. apply not_elem_of_nil.
    - intros Hin Hnot. apply Hnot. simpl.
      unfold kPmLogLevel_None, kPmLogLevel_Emergency, kPmLogLevel_Alert,
        kPmLogLevel_Critical, kPmLogLevel_Error, kPmLogLevel_Warning,
        kPmLogLevel_Notice, kPmLogLevel_Info, kPmLogLevel_Debug.
      rewrite !elem_of_cons. lia. }
  split_and!; [done|exact Hrt|..].
  - intros s. unfold PrvParseConfigLevel. destruct (PmLogStringToLevel s); simpl.
    + split; [by eexists|done].
    + split; [done|]. by intros [? ?].
  - intros s. unfold PrvParseConfigLevel.
    destruct (PmLogStringToLevel s) as [level|] eqn:Hl; [|done]. simpl. intros _.
    apply Hrt in Hl. assert (is_Some (PmLogLevelToString level)) as Hin%Hrange by eauto.
    unfold PrvIsValidLevel, kPmLogLevel_None, kPmLogLevel_Debug, kPmLogLevel_Emergency in *.
    destruct (decide (level = -1)); [by left|right].
    rewrite !bool_decide_eq_true_2 by lia. done.
  - intros s. unfold PrvParseConfigLevel. by destruct (PmLogStringToLevel s).
Qed.

(** X3. The facility labels: code and label correspond one to one through
    [PmLogFacilityToString] and [PmLogStringToFacility], and every code
    that has a label is a multiple of 8 between 0 and 184, so that it
    leaves the three priority bits of a syslog value free. *)
Theorem facility_labels_round_trip :
  (∀ facility s, PmLogFacilityToString facility = Some s ↔
                 PmLogStringToFacility s = Some facility) ∧
  (∀ facility, is_Some (PmLogFacilityToString facility) →
               0 <= facility <= 184 ∧ Z.land facility 7 = 0).
Proof.
  destruct kLogFacilityLabels_distinct as [Hn Hs].
  pose proof (λ n s, label_lookups_inverse kLogFacilityLabels n s Hn Hs) as Hrt.
  split; [exact Hrt|].
  intros facility [s Hlabel%PrvGetIntLabel_Some].
  unfold kLogFacilityLabels in Hlabel.
  repeat (apply elem_of_cons in Hlabel as [[= _ ->]|Hlabel]; [by vm_compute|]).
  by apply elem_of_nil in Hlabel.
Qed.

(** ** Reading and writing a context through a pointer *)

Lemma load_update_same p f g :
  ptr_in_segment g p → load_ctx (update_ctx p f g) p = f (load_ctx g p).
Proof.
  destruct p as [|i]; [done|]. simpl. intros Hi.
  by rewrite list_lookup_insert_eq.
Qed.

Lemma load_update_other p q f g :
  p ≠ q → load_ctx (update_ctx p f g) q = load_ctx g q.
Proof.
  intros Hne. destruct p as [|i], q as [|j]; try done. simpl.
  rewrite list_lookup_insert_ne; [done|congruence].
Qed.

Lemma ptr_in_segment_update p q f g :
  ptr_in_segment g q → ptr_in_segment (update_ctx p f g) q.
Proof.
  destruct p as [|i], q as [|j]; try done. simpl. by rewrite length_insert.
Qed.

Lemma update_run p f w g :
  w_globals w = Some g →
  update p f w = (tt, set_globals (Some (update_ctx p f g)) w).
Proof. intros Hg. unfold update, modify. by rewrite Hg. Qed.

(** ** Flags *)

Lemma land_lor_same a b : Z.land (Z.lor a b) b = b.
Proof.
  apply Z.bits_inj'. intros n Hn. rewrite Z.land_spec, Z.lor_spec.
  by destruct (Z.testbit a n), (Z.testbit b n).
Qed.

Lemma land_lor_lor a b c : Z.land (Z.lor (Z.lor a b) c) b = b.
Proof.
  apply Z.bits_inj'. intros n Hn. rewrite Z.land_spec, !Z.lor_spec.
  by destruct (Z.testbit a n), (Z.testbit b n), (Z.testbit c n).
Qed.

Lemma land_clear_lor a b c : Z.land (Z.lor (Z.land a (Z.lnot b)) c) b = Z.land b c.
Proof.
  apply Z.bits_inj'. intros n Hn.
  rewrite !Z.land_spec, Z.lor_spec, Z.land_spec, Z.lnot_spec by done.
  by destruct (Z.testbit a n), (Z.testbit b n), (Z.testbit c n).
Qed.

(** X4. [PrvSetContextFlag] on a context of the segment succeeds and leaves
    the Overridden bits set, whichever flag it was asked to change. Setting
    a flag leaves its bits set; clearing it leaves of its bits only those
    it shares with Overridden. The level and the name of the context and
    every other context stay as they were; a NULL pointer is refused with
    InvalidContext and changes nothing. *)
Theorem PrvSetContextFlag_marks_overridden p flag set w g :
  w_globals w = Some g →
  ptr_in_segment g p →
  ∃ g',
    PrvSetContextFlag (Some p) flag set w = (kPmLogErr_None, set_globals (Some g') w) ∧
    Z.land (flags (info (load_ctx g' p))) kPmLogFlag_Overridden = kPmLogFlag_Overridden ∧
    Z.land (flags (info (load_ctx g' p))) flag
      = (if set then flag else Z.land flag kPmLogFlag_Overridden) ∧
    enabledLevel (info (load_ctx g' p)) = enabledLevel (info (load_ctx g p)) ∧
    component (load_ctx g' p) = component (load_ctx g p) ∧
    (∀ q, q ≠ p → load_ctx g' q = load_ctx g q) ∧
    PrvSetContextFlag None flag set w = (kPmLogErr_InvalidContext, w).
Proof.
  intros Hg Hp.
  set (g1 := update_ctx p (fun c => set_flags (PrvSetFlag (flags (info c)) flag set) c) g).
  set (g2 := update_ctx p (fun c => set_flags
                (PrvSetFlag (flags (info c)) kPmLogFlag_Overridden true) c) g1).
  exists g2. split_and!.
  - unfold PrvSetContextFlag. rewrite bind_run, (update_run _ _ _ g Hg). cbn [fst snd].
    rewrite bind_run, (update_run _ _ _ g1) by done.
    by destruct w.
  - unfold g2. rewrite load_update_same by by apply ptr_in_segment_update.
    simpl. apply land_lor_same.
  - unfold g2, g1. rewrite !load_update_same by (try apply ptr_in_segment_update; done).
    simpl. unfold PrvSetFlag. destruct set; [apply land_lor_lor|apply land_clear_lor].
  - unfold g2, g1. by rewrite !load_update_same by (try apply ptr_in_segment_update; done).
  - unfold g2, g1. by rewrite !load_update_same by (try apply ptr_in_segment_update; done).
  - intros q Hq. unfold g2, g1. by rewrite !load_update_other.
  - done.
Qed.

(** ** Levels *)

Lemma PmLogSetContextLevel_run context level w g :
  w_globals w = Some g →
  level = kPmLogLevel_None ∨ kPmLogLevel_Emergency <= level <= kPmLogLevel_Debug →
  ∃ w', PmLogSetContextLevel context level w = (kPmLogErr_None, w') ∧
        w_globals w' = Some (update_ctx (handle_ptr context) (set_enabledLevel level) g) ∧
        w_syslog w' = w_syslog w.
Proof.
  intros Hg Hlevel. destruct w as [e g0 conn mask sl se so mem]. simpl in Hg. subst g0.
  unfold PmLogSetContextLevel.
  rewrite bind_run, (PrvResolveContext_usable _ _ g) by done. cbn [fst snd].
  assert (bool_decide (level ≠ kPmLogLevel_None) && negb (PrvIsValidLevel level) = false)
    as ->.
  { destruct Hlevel as [->|Hin].
    - by rewrite bool_decide_eq_false_2 by (by intros []).
    - unfold PrvIsValidLevel.
      rewrite (bool_decide_eq_true_2 (level >= _)), (bool_decide_eq_true_2 (level <= _))
        by lia.
      by rewrite andb_false_r. }
  unfold GetCurrentProcessName, sys, update, bind, gets, modify, ret.
  cbn -[update_ctx]. destruct (devMode g); cbn -[update_ctx];
    [|eexists; split_and!; reflexivity].
  destruct devlog_opens; cbn -[update_ctx]; [|eexists; split_and!; reflexivity].
  destruct devlog_locks; cbn -[update_ctx]; [|eexists; split_and!; reflexivity].
  destruct proc_cmdline; cbn -[update_ctx]; eexists; split_and!; reflexivity.
Qed.

Lemma PmLogGetContextLevel_run context old w g :
  w_globals w = Some g →
  PmLogGetContextLevel context (Some old) w =
    ((kPmLogErr_None, Some (enabledLevel (info (load_ctx g (handle_ptr context))))), w).
Proof.
  intros Hg. unfold PmLogGetContextLevel.
  rewrite bind_run, (PrvResolveContext_usable _ _ g) by done. cbn [fst snd].
  unfold bind, deref, gets, ret. by rewrite Hg.
Qed.

(** X5. On a usable registry, [PmLogSetContextLevel] with a level in
    Emergency..Debug or the None sentinel succeeds, and [PmLogGetContextLevel]
    on the same handle then gives that level back. The call changes nothing
    else in the registry: the context keeps its name and flags and every
    other context is untouched; nothing is logged. *)
Theorem PmLogSetContextLevel_then_get context level old w g :
  w_globals w = Some g →
  ptr_in_segment g (handle_ptr context) →
  level = kPmLogLevel_None ∨ kPmLogLevel_Emergency <= level <= kPmLogLevel_Debug →
  ∃ w' g',
    PmLogSetContextLevel context level w = (kPmLogErr_None, w') ∧
    w_globals w' = Some g' ∧
    PmLogGetContextLevel context (Some old) w' = ((kPmLogErr_None, Some level), w') ∧
    component (load_ctx g' (handle_ptr context)) = component (load_ctx g (handle_ptr context)) ∧
    flags (info (load_ctx g' (handle_ptr context)))
      = flags (info (load_ctx g (handle_ptr context))) ∧
    (∀ q, q ≠ handle_ptr context → load_ctx g' q = load_ctx g q) ∧
    numUserContexts g' = numUserContexts g ∧
    w_syslog w' = w_syslog w.
Proof.
  intros Hg Hp Hlevel.
  destruct (PmLogSetContextLevel_run context level w g Hg Hlevel) as (w' & Hrun & Hg' & Hlog).
  eexists w', _. split_and!; [done|done|..|done].
  - rewrite (PmLogGetContextLevel_run _ _ _ _ Hg'). by rewrite load_update_same.
  - by rewrite load_update_same.
  - by rewrite load_update_same.
  - intros q Hq. by rewrite load_update_other.
  - by destruct (handle_ptr context).
Qed.


(** ** Names *)

Lemma PmLogGetContextName_run context buf size w g :
  w_globals w = Some g → 1 < size →
  PmLogGetContextName context (Some buf) size w =
    (let name := component (load_ctx g (handle_ptr context)) in
     if decide (size < strlen name + 1)
     then (kPmLogErr_BufferTooSmall, Some (String.substring 0 (Z.to_nat (size - 1)) name))
     else (kPmLogErr_None, Some name), w).
Proof.
  intros Hg Hsize. unfold PmLogGetContextName.
  rewrite (decide_True (P := size > 0)) by lia.
  rewrite bind_run, (PrvResolveContext_usable _ _ g) by done. cbn [fst snd].
  case_decide; [lia|].
  unfold bind, deref, gets, ret. rewrite Hg. cbv zeta. unfold mystrcpy.
  rewrite (decide_False (P := size < 1)) by lia.
  destruct (decide (size < _)), (decide (_ >= size)); try lia; done.
Qed.

(** X7. [PmLogGetContextName] on a usable registry: with a buffer of more
    than one byte the call succeeds exactly when the name and its
    terminator fit, and the buffer then holds the name; when they do not
    fit the answer is BufferTooSmall and the buffer holds the first
    [size - 1] characters of the name. A buffer of at most one byte, or no
    buffer, is refused with InvalidParameter. The registry is never
    touched. *)
Theorem PmLogGetContextName_buffer context buf size w g :
  w_globals w = Some g →
  0 <= size →
  let name := component (load_ctx g (handle_ptr context)) in
  (strlen name < size → 1 < size →
   PmLogGetContextName context (Some buf) size w = ((kPmLogErr_None, Some name), w)) ∧
  (1 < size <= strlen name →
   PmLogGetContextName context (Some buf) size w =
     ((kPmLogErr_BufferTooSmall, Some (String.substring 0 (Z.to_nat (size - 1)) name)), w)) ∧
  (size <= 1 →
   (PmLogGetContextName context (Some buf) size w).1.1 = kPmLogErr_InvalidParameter) ∧
  PmLogGetContextName context None size w = ((kPmLogErr_InvalidParameter, None), w) ∧
  (PmLogGetContextName context (Some buf) size w).2 = w.
Proof.
  intros Hg Hsize name. split_and!.
  - intros Hfit Hbig. rewrite (PmLogGetContextName_run _ _ _ _ g) by done.
    cbv zeta. fold name. case_decide; [lia|done].
  - intros Hsmall. rewrite (PmLogGetContextName_run _ _ _ _ g) by (done || lia).
    cbv zeta. fold name. case_decide; [done|lia].
  - intros Hone. unfold PmLogGetContextName.
    rewrite bind_run, (PrvResolveContext_usable _ _ g) by done. cbn [fst snd].
    case_decide; by case_decide.
  - unfold PmLogGetContextName.
    by rewrite bind_run, (PrvResolveContext_usable _ _ g).
  - destruct (decide (1 < size)).
    + by rewrite (PmLogGetContextName_run _ _ _ _ g).
    + unfold PmLogGetContextName.
      rewrite bind_run, (PrvResolveContext_usable _ _ g) by done. cbn [fst snd].
      case_decide; case_decide; try lia; done.
Qed.

(** X8. A name round trip: on a registry that satisfies its invariant, with
    room in the table or the name registered already, the handle that
    [PmLogGetContext] stores for a name of the name rule gives that very
    name back through [PmLogGetContextName] with a buffer of 32 bytes. *)
Theorem PmLogGetContext_then_name name pc buf w g :
  w_globals w = Some g →
  registry_ok g →
  valid_name name →
  numUserContexts g < maxUserContexts g ∨ registered g name →
  ∃ h w1,
    PmLogGetContext (Some name) (Some pc) w = ((kPmLogErr_None, Some (Some h)), w1) ∧
    PmLogGetContextName (Some h) (Some buf) (PMLOG_MAX_CONTEXT_NAME_LEN + 1) w1
      = ((kPmLogErr_None, Some name), w1).
Proof.
  intros Hg Hok Hname Hroom.
  pose proof (valid_name_accepted _ Hname) as Hv.
  destruct (PmLogGetContext_run name pc w g Hg Hv) as (w1 & Hrun & Hg1 & _).
  assert (strlen name <= PMLOG_MAX_CONTEXT_NAME_LEN) as Hlen
    by (destruct Hname as [? _]; unfold PMLOG_MAX_CONTEXT_NAME_LEN; lia).
  pose proof (get_or_add_registers name g Hok Hlen Hroom) as Hfound.
  apply find_context_component in Hfound.
  exists (get_or_add name g).1, w1. split; [done|].
  rewrite (PmLogGetContextName_run _ _ _ _ _ Hg1) by (unfold PMLOG_MAX_CONTEXT_NAME_LEN; lia).
  cbv zeta. cbn [handle_ptr default from_option id]. rewrite Hfound.
  case_decide; [lia|done].
Qed.

(** ** The registry under [PmLogGetContext] *)

Lemma with_context_ok name i g :
  registry_ok g →
  numUserContexts g < maxUserContexts g →
  (∀ j c, user_context g j c → component c ≠ name) →
  registry_ok (with_context name i g).
Proof.
  intros [Hn Hmax Harr Huniq] Hfree Hnew.
  assert (Z.to_nat (numUserContexts g) < length (userContexts g))%nat as Hslot by lia.
  assert (Hcases : ∀ j a, user_context (with_context name i g) j a →
            user_context g j a ∨ (j = Z.to_nat (numUserContexts g) ∧ component a = name)).
  { intros j a [Hj Ha]. simpl in Hj, Ha.
    destruct (decide (j = Z.to_nat (numUserContexts g))) as [->|Hne].
    - right. rewrite list_lookup_insert_eq in Ha by done. by injection Ha as <-.
    - left. rewrite list_lookup_insert_ne in Ha by done. split; [lia|done]. }
  split; simpl; [lia|lia|by rewrite length_insert|].
  intros j k a b Ha Hb Heq.
  destruct (Hcases _ _ Ha) as [Ha'|[-> Ha']], (Hcases _ _ Hb) as [Hb'|[-> Hb']]; [|..|done].
  - by eapply Huniq.
  - destruct (Hnew _ _ Ha'). congruence.
  - destruct (Hnew _ _ Hb'). congruence.
Qed.

(** X9. [PmLogGetContext] keeps the invariant of the registry and only ever
    appends: for a name of the name rule, the registry it leaves still has
    its count within the bound and its names distinct, the global context
    and every user context registered before are where and what they were,
    and the count is unchanged or has grown by one. When it has grown, the
    name was not registered before and the new context is the last entry
    of the enumeration by [PmLogGetIndContext]. *)
Theorem PmLogGetContext_append_only name pc w g :
  w_globals w = Some g →
  registry_ok g →
  valid_name name →
  ∃ h w' g',
    PmLogGetContext (Some name) (Some pc) w = ((kPmLogErr_None, Some (Some h)), w') ∧
    w_globals w' = Some g' ∧
    registry_ok g' ∧
    globalContext g' = globalContext g ∧
    maxUserContexts g' = maxUserContexts g ∧
    (∀ i c, user_context g i c → user_context g' i c) ∧
    (numUserContexts g' = numUserContexts g ∨
     numUserContexts g' = numUserContexts g + 1 ∧
     ¬ registered g name ∧
     PmLogGetIndContext (numUserContexts g') (Some None) w'
       = ((kPmLogErr_None, Some (Some h)), w')).
Proof.
  intros Hg Hok Hname.
  pose proof (valid_name_accepted _ Hname) as Hv.
  destruct (PmLogGetContext_run name pc w g Hg Hv) as (w' & Hrun & Hg' & _).
  exists (get_or_add name g).1, w', (get_or_add name g).2.
  split; [done|]. split; [done|]. clear Hrun.
  unfold get_or_add in *.
  destruct (find_context name g) as [p|] eqn:Hfind; [by split_and!; try left|].
  destruct (decide (numUserContexts g >= maxUserContexts g)); [by split_and!; try left|].
  pose proof Hok as [Hn Hmax Harr Huniq].
  assert (Z.to_nat (numUserContexts g) < length (userContexts g))%nat as Hslot by lia.
  destruct (add_context_spec name g Hn Hslot) as (d & _ & Hadd).
  { destruct Hname as [? _]. unfold PMLOG_MAX_CONTEXT_NAME_LEN. lia. }
  rewrite Hadd in *. cbn [fst snd] in *.
  apply find_context_None in Hfind as [Hnew|?]; [|lia].
  split_and!; [|done|done| |right].
  - apply with_context_ok; [done|lia|].
    intros j c Hc Hcn. apply Hnew. right. eauto.
  - intros i c [Hi Hc]. split; simpl; [lia|].
    rewrite list_lookup_insert_ne; [done|lia].
  - split_and!; [done|done|].
    unfold PmLogGetIndContext. rewrite bind_run. cbn [gets fst snd]. rewrite Hg'.
    cbn [numUserContexts with_context set_userContexts set_numUserContexts].
    case_decide; [lia|]. case_decide; [lia|].
    unfold ret, PrvExportContext. do 5 f_equal. lia.
Qed.


(** X11. With a segment of unrecognised signature ([gGlobalsP] is NULL) the
    library fails fast: the lookups answer Unknown, the logging calls on
    the default handle answer InvalidContext, and none of them changes the
    state or writes a line. *)
Theorem unusable_registry_fails_fast name pc n level msgid kvpairs message
    flags kv_count keys formats fmt args data numBytes format w :
  w_globals w = None →
  PmLogGetContext name (Some pc) w = ((kPmLogErr_Unknown, Some None), w) ∧
  PmLogFindContext name (Some pc) w = ((kPmLogErr_Unknown, Some None), w) ∧
  PmLogGetNumContexts (Some n) w = ((kPmLogErr_Unknown, Some 0), w) ∧
  PmLogString_ None level msgid kvpairs message w = (kPmLogErr_InvalidContext, w) ∧
  _PmLogMsgKV None level flags msgid kv_count keys formats fmt args w
    = (kPmLogErr_InvalidContext, w) ∧
  PmLogPrint_ None level (Some fmt) args w = (kPmLogErr_InvalidContext, w) ∧
  PmLogVPrint_ None level (Some fmt) args w = (kPmLogErr_InvalidContext, w) ∧
  PmLogDumpData_ None level data numBytes format w = (kPmLogErr_InvalidContext, w).
Proof.
  intros Hg.
  unfold PmLogGetContext, PmLogFindContext, PmLogGetNumContexts, PmLogString_,
    _PmLogMsgKV, PmLogPrint_, PmLogVPrint_, PmLogDumpData_, PmLogGetContext,
    PrvResolveContext, gGlobalContextP, bind, gets, ret.
  rewrite ?Hg. cbn.
  destruct (decide (kPmLogErr_Unknown ≠ kPmLogErr_None)); by rewrite Hg.
Qed.

(** ** The library context of the process *)

Lemma lib_context_known_spec p g :
  lib_context_known p g = true ↔
  p = GlobalCtx ∨ ∃ i, p = UserCtx i ∧ Z.of_nat i < numUserContexts g.
Proof.
  unfold lib_context_known, PrvExportContext. case_decide as Hglobal.
  - rewrite bool_decide_eq_true, Exists_exists. split.
    + intros (i & Hi%elem_of_seq & [= <-]). right. exists i. split; [done|lia].
    + intros [->|(i & -> & Hi)]; [done|]. exists i. split; [|done].
      apply elem_of_seq. lia.
  - split; [|done]. intros _. left. congruence.
Qed.

(** X12. [PmLogSetLibContext] on a usable registry takes a handle only when
    it is the global context or a user context in use: then the library
    context becomes that handle and nothing is logged. Any other handle,
    the NULL handle included, leaves the library context as it was and
    logs one warning. The registry is not changed either way. *)
Theorem PmLogSetLibContext_validates libContext old w g :
  w_globals w = Some g →
  let known := ∃ p, libContext = Some p ∧
                 (p = GlobalCtx ∨ ∃ i, p = UserCtx i ∧ Z.of_nat i < numUserContexts g) in
  let r := PmLogSetLibContext libContext old w in
  (known → r.1 = libContext ∧ w_syslog r.2 = w_syslog w) ∧
  (¬ known → r.1 = old ∧ ∃ line, w_syslog r.2 = (LOG_WARNING, line) :: w_syslog w) ∧
  w_globals r.2 = Some g.
Proof.
  intros Hg known r. subst r.
  destruct w as [e g0 conn mask sl se so mem]. simpl in Hg. subst g0.
  unfold PmLogSetLibContext, WarnPrint, CallSysLog, GetCurrentProcessName, sys,
    block_signals, unblock_signals, syslog, PmLogPrvLock, PmLogPrvUnlock, libc,
    bind, gets, modify, ret.
  destruct libContext as [p|].
  - cbn -[lib_context_known c_truncate strlen String.append].
    destruct (lib_context_known p g) eqn:Hknown.
    + cbn. split_and!; [done| |done].
      intros Hnot. destruct Hnot. exists p. split; [done|].
      by apply lib_context_known_spec.
    + assert (¬ known) as Hnot.
      { intros (q & [= <-] & Hq). apply lib_context_known_spec in Hq. congruence. }
      destruct proc_cmdline; cbn -[c_truncate strlen String.append];
        (split_and!; [done| |done]); intros _; split; try done; by eexists.
  - assert (¬ known) as Hnot by (by intros (q & ? & _)).
    destruct proc_cmdline; cbn -[c_truncate strlen String.append];
      (split_and!; [done| |done]); intros _; split; try done; by eexists.
Qed.

(** ** The start-up of the library *)

Lemma init_segment_eq :
  0 < PMLOG_MAX_NUM_CONTEXTS →
  strlen kPmLogDefaultLibContextName <= PMLOG_MAX_CONTEXT_NAME_LEN →
  init_segment =
    with_context kPmLogDefaultLibContextName (mkInfo kPmLogLevel_Info 0) defaultSet.
Proof.
  intros Hmax Hname. unfold init_segment, with_context.
  assert (0 < length (userContexts defaultSet))%nat as Hlen.
  { simpl. rewrite length_replicate. lia. }
  change (Z.to_nat (numUserContexts defaultSet)) with 0%nat.
  unfold update_ctx at 3.
  change (store_ctx (UserCtx 0) ?c ?g)
    with (set_userContexts (<[0%nat := c]> (userContexts g)) g).
  cbn [userContexts set_numUserContexts].
  rewrite !update_ctx_slot by done.
  cbn [set_flags set_enabledLevel set_component info component enabledLevel flags].
  by rewrite mystrcpy_fits.
Qed.

(** X13. The constructor [init_function], for a signature constant other
    than zero, a table of at least one slot and a default library name
    that fits a slot. A segment that is all zero is initialised from
    [defaultSet] with the default library context as its only user
    context, at level Info and without flags, and then the configuration
    is read. A segment that carries the signature is attached as it is, so
    the initialised segment, which carries it, is not initialised again. A
    segment with another signature leaves the library without a registry.
    When a system call of the attachment fails, the registry pointer stays
    where it was. *)
Theorem init_function_cases env w :
  PMLOG_SIGNATURE ≠ 0 →
  0 < PMLOG_MAX_NUM_CONTEXTS →
  strlen kPmLogDefaultLibContextName <= PMLOG_MAX_CONTEXT_NAME_LEN →
  let w' := (init_function env w).2 in
  (∀ seg, open_ok env = true → ftok_ok env = true → shmget_ok env = true →
          shmat_seg env = Some seg →
     (signature seg = 0 →
        ∃ w0, w' = PmLogPrvReadConfigs w0 ∧ w_globals w0 = Some init_segment ∧
              w_syslog w0 = w_syslog w) ∧
     (signature seg = PMLOG_SIGNATURE → w_globals w' = Some seg) ∧
     (signature seg ≠ 0 → signature seg ≠ PMLOG_SIGNATURE → w_globals w' = None)) ∧
  (open_ok env = false ∨ ftok_ok env = false ∨ shmget_ok env = false ∨
   shmat_seg env = None → w_globals w' = w_globals w) ∧
  registry_ok init_segment ∧
  signature init_segment = PMLOG_SIGNATURE ∧
  numUserContexts init_segment = 1 ∧
  user_context init_segment 0
    (mkContext (mkInfo kPmLogLevel_Info 0) kPmLogDefaultLibContextName) ∧
  globalContext init_segment = mkContext (mkInfo kPmLogLevel_Info 0) kPmLogGlobalContextName.
Proof.
  intros Hsig Hmax Hname w'. subst w'.
  assert (0 < length (userContexts defaultSet))%nat as Hlen.
  { simpl. rewrite length_replicate. lia. }
  rewrite (init_segment_eq Hmax Hname).
  destruct w as [e g0 conn mask sl se so mem].
  split_and!.
  - intros seg Hopen Hftok Hget Hat.
    unfold init_function, PmLogPrvLock, PmLogPrvUnlock, libc, sys, bind, gets, modify, ret.
    rewrite Hopen, Hftok, Hget, Hat. cbn -[init_segment].
    split_and!.
    + intros Hzero. rewrite decide_True by done. cbn -[init_segment].
      eexists. split; [reflexivity|]. split; [|done].
      cbn -[init_segment]. by rewrite (init_segment_eq Hmax Hname).
    + intros Hs. rewrite decide_False by congruence. by rewrite decide_True by done.
    + intros Hs1 Hs2. by rewrite !decide_False by done.
  - unfold init_function, PmLogPrvLock, PmLogPrvUnlock, libc, sys, bind, gets, modify, ret.
    intros Hfail. destruct (open_ok env); [|done]. destruct (ftok_ok env); [|done].
    destruct (shmget_ok env); [|done]. destruct (shmat_seg env); [|done].
    by destruct Hfail as [?|[?|[?|?]]].
  - apply with_context_ok.
    + split; simpl; [done|lia|rewrite length_replicate; lia|].
      intros i j a b [Hi _]. simpl in Hi. lia.
    + simpl. lia.
    + intros j c [Hj _]. simpl in Hj. lia.
  - done.
  - done.
  - split; [done|]. simpl. destruct (Z.to_nat PMLOG_MAX_NUM_CONTEXTS) eqn:Hn; [lia|done].
  - done.
Qed.

(** ** A context of the configuration *)

Lemma PmLogStringToLevel_range s level :
  PmLogStringToLevel s = Some level →
  level = kPmLogLevel_None ∨ kPmLogLevel_Emergency <= level <= kPmLogLevel_Debug.
Proof.
  intros Hl%PrvLabelToInt_Some. unfold kLogLevelLabels in Hl.
  unfold kPmLogLevel_None, kPmLogLevel_Emergency, kPmLogLevel_Alert,
    kPmLogLevel_Critical, kPmLogLevel_Error, kPmLogLevel_Warning,
    kPmLogLevel_Notice, kPmLogLevel_Info, kPmLogLevel_Debug in *.
  repeat (apply elem_of_cons in Hl as [[= _ ->]|Hl]; [lia|]).
  by apply elem_of_nil in Hl.
Qed.

Lemma find_context_in_segment name g p :
  find_context name g = Some p → ptr_in_segment g p.
Proof.
  unfold find_context. case_decide; [|done]. case_decide; [by intros [= <-]|].
  intros (i & Hfind & ->)%fmap_Some.
  apply find_user_context_Some in Hfind as (c & Hc & _).
  apply lookup_take_Some in Hc as [Hc _]. simpl. by eapply lookup_lt_Some.
Qed.

Lemma find_context_registered name g p :
  find_context name g = Some p → registered g name.
Proof.
  unfold find_context, registered. case_decide; [|done].
  case_decide as Hglobal; [by left|].
  intros (i & Hfind & ->)%fmap_Some.
  apply find_user_context_Some in Hfind as (c & Hc & Hname & _).
  apply used_contexts_lookup in Hc as [Hc _]. right. eauto.
Qed.

(** The three ways the locked region of [PmLogGetContext] ends. *)
Lemma get_or_add_cases name g :
  registry_ok g →
  strlen name <= PMLOG_MAX_CONTEXT_NAME_LEN →
  (∃ p, registered g name ∧ find_context name g = Some p ∧ get_or_add name g = (p, g)) ∨
  (¬ registered g name ∧ numUserContexts g >= maxUserContexts g ∧
   get_or_add name g = (GlobalCtx, g)) ∨
  (¬ registered g name ∧ numUserContexts g < maxUserContexts g ∧
   ∃ i, get_or_add name g =
          (UserCtx (Z.to_nat (numUserContexts g)), with_context name i g)).
Proof.
  intros [Hn Hmax Harr Huniq] Hname. unfold get_or_add.
  destruct (find_context name g) as [p|] eqn:Hfind.
  - left. exists p. split_and!; [|done..].
    by eapply find_context_registered.
  - apply find_context_None in Hfind as [Hnew|?]; [|lia]. right.
    destruct (decide (numUserContexts g >= maxUserContexts g)); [by left|right].
    assert (Z.to_nat (numUserContexts g) < length (userContexts g))%nat as Hslot by lia.
    destruct (add_context_spec name g Hn Hslot Hname) as (d & _ & ->).
    split_and!; [done|lia|by eexists].
Qed.

Lemma gGlobalContextP_usable w g :
  w_globals w = Some g → gGlobalContextP w = (Some GlobalCtx, w).
Proof. intros Hg. unfold gGlobalContextP, gets. by rewrite Hg. Qed.

(** X14. [PrvInitContext], which applies one entry of the configuration,
    on a registry that satisfies its invariant, for a name of the name
    rule and a level label: it succeeds with an empty message, and the
    context it configured has the level of the label and the flags of the
    global context. That context is the one registered under the name; a
    new one in the first free slot when the name was not registered and
    there was room; and the global context itself when the name was not
    registered and the table was full, so that such an entry sets the level
    of the global context and creates nothing. *)
Theorem PrvInitContext_configures name levelStr level size w g :
  w_globals w = Some g →
  registry_ok g →
  valid_name name →
  PmLogStringToLevel levelStr = Some level →
  ∃ p w' g',
    PrvInitContext name levelStr size w = ((true, ""), w') ∧
    w_globals w' = Some g' ∧
    enabledLevel (info (load_ctx g' p)) = level ∧
    flags (info (load_ctx g' p)) = flags (info (globalContext g)) ∧
    (registered g name →
       find_context name g = Some p ∧ numUserContexts g' = numUserContexts g) ∧
    (¬ registered g name → numUserContexts g < maxUserContexts g →
       p = UserCtx (Z.to_nat (numUserContexts g)) ∧ component (load_ctx g' p) = name ∧
       numUserContexts g' = numUserContexts g + 1) ∧
    (¬ registered g name → maxUserContexts g <= numUserContexts g →
       p = GlobalCtx ∧ numUserContexts g' = numUserContexts g).
Proof.
  intros Hg Hok Hname Hlevel.
  pose proof (valid_name_accepted _ Hname) as Hv.
  assert (strlen name <= PMLOG_MAX_CONTEXT_NAME_LEN) as Hlen
    by (destruct Hname as [? _]; unfold PMLOG_MAX_CONTEXT_NAME_LEN; lia).
  destruct (PmLogGetContext_run name None w g Hg Hv) as (w1 & Hrun & Hg1 & _).
  set (p := (get_or_add name g).1) in *. set (g1 := (get_or_add name g).2) in *.
  destruct (PmLogSetContextLevel_run (Some p) level w1 g1 Hg1
              (PmLogStringToLevel_range _ _ Hlevel)) as (w2 & Hset & Hg2 & _).
  cbn [handle_ptr default from_option id] in Hg2.
  set (g2 := update_ctx p (set_enabledLevel level) g1) in *.
  set (g3 := update_ctx p (set_flags (flags (info (load_ctx g2 GlobalCtx)))) g2).
  assert (Hfacts : ptr_in_segment g1 p ∧ globalContext g1 = globalContext g ∧
            numUserContexts g3 = numUserContexts g1).
  { split_and!; [| |by destruct p].
    - subst p g1.
      destruct (get_or_add_cases name g Hok Hlen)
        as [(q & _ & Hq & ->)|[(_ & _ & ->)|(_ & Hroom & i & ->)]]; cbn [fst snd].
      + by eapply find_context_in_segment.
      + done.
      + destruct Hok. simpl. rewrite length_insert. lia.
    - subst g1.
      by destruct (get_or_add_cases name g Hok Hlen)
        as [(q & _ & Hq & ->)|[(_ & _ & ->)|(_ & Hroom & i & ->)]]. }
  destruct Hfacts as (Hin & Hglobal & Hnum).
  exists p, (set_globals (Some g3) w2), g3. split_and!.
  - unfold PrvInitContext, PrvParseConfigLevel. rewrite Hlevel. cbn [fst snd negb].
    unfold PmLogContext in *.
    rewrite bind_run, Hrun. cbn [fst snd default from_option id].
    rewrite decide_False by (by intros []).
    rewrite bind_run, Hset. cbn [fst snd].
    rewrite decide_False by (by intros []).
    rewrite bind_run, (PrvResolveContext_usable _ _ g2) by done.
    cbn [fst snd handle_ptr default from_option id].
    rewrite bind_run, bind_run, (gGlobalContextP_usable _ g2) by done. cbn [fst snd].
    rewrite bind_run, (deref_run _ _ g2) by done. cbn [fst snd].
    by rewrite (update_run _ _ _ g2).
  - by destruct w2.
  - unfold g3, g2. by rewrite !load_update_same by (try apply ptr_in_segment_update; done).
  - unfold g3. rewrite load_update_same by (by apply ptr_in_segment_update).
    cbn [set_flags info flags]. unfold g2.
    destruct (decide (p = GlobalCtx)) as [->|Hne].
    + rewrite load_update_same by done. simpl. by rewrite Hglobal.
    + rewrite load_update_other by done. simpl. by rewrite Hglobal.
  - intros Hreg. rewrite Hnum. subst p g1.
    by destruct (get_or_add_cases name g Hok Hlen)
      as [(q & _ & Hq & ->)|[(? & _ & ->)|(? & Hroom & i & ->)]].
  - intros Hnew Hroom.
    assert (find_context name g1 = Some p) as Hfound
      by (apply get_or_add_registers; auto).
    rewrite Hnum. split_and!.
    + subst p.
      destruct (get_or_add_cases name g Hok Hlen)
        as [(q & ? & Hq & ->)|[(? & ? & ->)|(? & ? & i & ->)]]; [done|lia|done].
    + unfold g3, g2.
      rewrite !load_update_same by (try apply ptr_in_segment_update; done).
      cbn [set_flags set_enabledLevel component].
      by apply find_context_component.
    + subst g1.
      destruct (get_or_add_cases name g Hok Hlen)
        as [(q & ? & Hq & ->)|[(? & ? & ->)|(? & ? & i & ->)]]; [done|lia|done].
  - intros Hnew Hfull. rewrite Hnum. subst p g1.
    destruct (get_or_add_cases name g Hok Hlen)
      as [(q & ? & Hq & ->)|[(? & ? & ->)|(? & ? & i & ->)]]; [done|done|lia].
Qed.

(** X15. [PrvInitContext] fails without touching the state when the level
    is not one of the labels (the message is Failed to parse level, cut to
    the buffer) or when the name does not pass validation (the message
    names InvalidContextName); no context is created for such an entry. *)
Theorem PrvInitContext_failures name levelStr size w :
  (PmLogStringToLevel levelStr = None →
   PrvInitContext name levelStr size w
     = ((false, mystrcpy "" size (Some "Failed to parse level")), w)) ∧
  (∀ g level, w_globals w = Some g →
     PmLogStringToLevel levelStr = Some level →
     PrvValidateContextName name ≠ kPmLogErr_None →
     PrvInitContext name levelStr size w
       = ((false, c_truncate size "Error getting context: InvalidContextName"), w)).
Proof.
  split.
  - intros Hl. unfold PrvInitContext, PrvParseConfigLevel. by rewrite Hl.
  - intros g level Hg Hl Hv.
    unfold PrvInitContext, PrvParseConfigLevel. rewrite Hl. cbn [fst snd negb].
    unfold PmLogGetContext. rewrite !bind_run. cbn [gets fst snd]. rewrite Hg.
    destruct (PrvValidateContextName_cases name) as [?|Hinv]; [done|].
    rewrite Hinv. rewrite decide_True by done. cbn [ret fst snd].
    by rewrite decide_True by done.
Qed.

(** ** The command inside a message *)

Lemma has_prefix_split pre s :
  has_prefix pre s = true →
  s = pre +:+ String.substring (String.length pre) (String.length s - String.length pre) s.
Proof.
  revert s. induction pre as [|a pre IH]; intros s Hp.
  - simpl. rewrite Nat.sub_0_r. by rewrite substring_all.
  - destruct s as [|b s]; [done|]. simpl in Hp. case_decide as Hab; [|done]. subst b.
    rewrite append_String. simpl. f_equal. by apply IH.
Qed.

(** X16. [HandleLogLibCommand] takes exactly one text for a command: a
    message other than the prefix followed by loadconf is not handled, and
    the state is as before. *)
Theorem HandleLogLibCommand_only_loadconf msg w :
  msg ≠ "!loglib loadconf" →
  HandleLogLibCommand msg w = (false, w).
Proof.
  intros Hmsg. unfold HandleLogLibCommand. cbv zeta.
  destruct (has_prefix "!loglib " msg) eqn:Hp; [|done]. cbn [negb].
  case_decide as Hrest; [|done].
  destruct Hmsg. apply has_prefix_split in Hp.
  change (String.length "!loglib ") with 8%nat in Hp. rewrite Hrest in Hp. by rewrite Hp.
Qed.



Lemma set_globals_twice a b w : set_globals a (set_globals b w) = set_globals a w.
Proof. done. Qed.




(** ** Copies into buffers *)

Lemma length_substring_0 n s :
  String.length (String.substring 0 n s) = Nat.min n (String.length s).
Proof.
  revert n. induction s as [|c s IH]; intros [|n]; simpl; try done.
  by rewrite IH.
Qed.

Lemma substring_0_prefix n s : ∃ rest, s = String.substring 0 n s +:+ rest.
Proof.
  revert n. induction s as [|c s IH]; intros [|n]; simpl; try by eexists.
  destruct (IH n) as [rest Hrest]. exists rest. by rewrite append_String, <- Hrest.
Qed.

Lemma substring_0_append n a b :
  String.substring 0 (String.length a + n) (a +:+ b) = a +:+ String.substring 0 n b.
Proof.
  induction a as [|c a IH]; [done|].
  rewrite !append_String. simpl. by rewrite IH.
Qed.

Lemma strlen_c_truncate size s :
  1 <= size → strlen (c_truncate size s) = Z.min (size - 1) (strlen s).
Proof. intros Hsize. unfold strlen, c_truncate. rewrite length_substring_0. lia. Qed.

(** X18. [mystrcpy] into a buffer of at least one byte leaves a terminated
    text that fits the buffer: it is the source when the source and its
    terminator fit, and the first [dstSize - 1] characters of the source
    otherwise; a NULL source leaves the empty text. What
    [strtruncate_and_escape] hands to [g_strescape] is the first 127
    characters of its argument at most. *)
Theorem mystrcpy_bounded dst dstSize s :
  1 <= dstSize →
  strlen (mystrcpy dst dstSize (Some s)) = Z.min (dstSize - 1) (strlen s) ∧
  (∃ rest, s = mystrcpy dst dstSize (Some s) +:+ rest) ∧
  (strlen s < dstSize → mystrcpy dst dstSize (Some s) = s) ∧
  mystrcpy dst dstSize None = "" ∧
  (∃ t rest, strtruncate_and_escape s = g_strescape t ∧ s = t +:+ rest ∧
             strlen t = Z.min (TRUNCATED_MSG_SIZE - 1) (strlen s)).
Proof.
  intros Hsize. unfold mystrcpy. rewrite !decide_False by lia.
  split_and!.
  - case_decide; [|lia]. unfold strlen in *. rewrite length_substring_0. lia.
  - case_decide; [apply substring_0_prefix|]. exists "".
    clear. induction s as [|c s IH]; [done|]. by rewrite append_String, <- IH.
  - intros Hfits. case_decide; [lia|done].
  - case_decide; [lia|done].
  - unfold strtruncate_and_escape.
    destruct (substring_0_prefix (Z.to_nat (TRUNCATED_MSG_SIZE - 1)) s) as [rest Hrest].
    eexists _, rest. split_and!; [done|done|].
    unfold strlen, TRUNCATED_MSG_SIZE. rewrite length_substring_0. lia.
Qed.

(** ** The library's own messages *)

(** X19. [CallSysLog], for a head (ids, identifier and context name, each
    followed by a space) that fits its buffer: the two writes into the
    buffer leave what one write of head and message into 1024 bytes would,
    that line of at most 1023 characters is handed to syslog once at the
    given priority, and the signal mask, the registry and the console are
    as before. *)
Theorem CallSysLog_line context level pidtid msg w :
  let head := pidtid +:+ " " +:+ PMLOG_IDENTIFIER +:+ " " +:+ context +:+ " " in
  strlen head < 1024 →
  let w' := (CallSysLog context level pidtid msg w).2 in
  w_syslog w' = (level, c_truncate 1024 (head +:+ msg)) :: w_syslog w ∧
  strlen (c_truncate 1024 (head +:+ msg)) <= 1023 ∧
  w_sigmask w' = w_sigmask w ∧
  w_globals w' = w_globals w ∧
  w_stderr w' = w_stderr w ∧
  w_stdout w' = w_stdout w.
Proof.
  intros head Hhead w'. subst w'. unfold CallSysLog. fold head.
  rewrite decide_True by done.
  assert (head +:+ c_truncate (1024 - strlen head) msg = c_truncate 1024 (head +:+ msg))
    as ->.
  { unfold c_truncate, strlen in *.
    replace (Z.to_nat (1024 - 1))
      with (String.length head + Z.to_nat (1024 - Z.of_nat (String.length head) - 1))%nat
      by lia.
    by rewrite substring_0_append. }
  split_and!; [|rewrite strlen_c_truncate by lia; lia|..];
    destruct w; reflexivity.
Qed.

(** X20. The ids [GetPidStr] writes into a buffer of at least three bytes:
    the text starts with an opening bracket, so it is never empty, and it
    fits the buffer; for a context with neither the process-id nor the
    thread-id flag it is the empty pair of brackets. *)
Theorem GetPidStr_shape c ptidStrLen :
  3 <= ptidStrLen →
  (∃ rest, GetPidStr c ptidStrLen = String "["%char rest) ∧
  strlen (GetPidStr c ptidStrLen) <= ptidStrLen - 1 ∧
  (Z.land (flags (info c)) kPmLogFlag_LogProcessIds = 0 →
   Z.land (flags (info c)) kPmLogFlag_LogThreadIds = 0 →
   GetPidStr c ptidStrLen = "[]").
Proof.
  intros Hlen.
  assert (Hcut : ∀ t, ∃ rest, c_truncate ptidStrLen (String "["%char t) = String "["%char rest).
  { intros t. unfold c_truncate.
    replace (Z.to_nat (ptidStrLen - 1)) with (S (Z.to_nat (ptidStrLen - 2))) by lia.
    rewrite substring_0_String. by eexists. }
  split_and!.
  - unfold GetPidStr. repeat case_decide; apply Hcut.
  - unfold GetPidStr. repeat case_decide; rewrite strlen_c_truncate by lia; lia.
  - intros Hp Ht. unfold GetPidStr. case_decide as Hflags; [by destruct Hflags|].
    unfold c_truncate. rewrite substring_all; [done|simpl; lia].
Qed.

(** X21. No two error codes share the text [PmLogGetErrDbgString] gives for
    them. *)
Theorem PmLogGetErrDbgString_injective a b :
  PmLogGetErrDbgString a = PmLogGetErrDbgString b → a = b.
Proof. destruct a, b; (reflexivity || discriminate). Qed.

(** ** The checks of a structured message *)

(** X22. [validate_keys] accepts only a key list with a count other than
    zero whose characters are all the separator or printable ASCII, and it
    accepts without writing anything; when it refuses a key list that is
    not NULL it has logged one error line. The count of keys that it keeps
    while it walks the list takes no part in the answer. *)
Theorem validate_keys_sound kv_count keys context_name msgid w :
  ((validate_keys kv_count keys context_name msgid w).1 = true →
   kv_count ≠ 0 ∧
   (∃ k, keys = Some k ∧ Forall key_char (list_ascii_of_string k)) ∧
   (validate_keys kv_count keys context_name msgid w).2 = w) ∧
  ((validate_keys kv_count keys context_name msgid w).1 = false →
   keys = None ∧ (validate_keys kv_count keys context_name msgid w).2 = w ∨
   ∃ line, w_syslog (validate_keys kv_count keys context_name msgid w).2
           = (LOG_ERR, line) :: w_syslog w).
Proof.
  unfold validate_keys. destruct keys as [k|]; [|split; [done|by left]].
  case_decide as Hkv.
  - rewrite bind_run. cbn [ret fst snd]. split; [done|]. intros _. right.
    apply ErrPrint_run.
  - destruct (validate_keys_loop_sound context_name (show_ptr msgid)
                (String.length k) k 1 w) as [Hok Hbad]; [done|].
    split.
    + intros [? ?]%Hok. split_and!; [done| |done]. by exists k.
    + intros ?%Hbad. by right.
Qed.

Lemma has_prefix_length pre s :
  has_prefix pre s = true → (String.length pre <= String.length s)%nat.
Proof.
  revert s. induction pre as [|a pre IH]; intros [|b s] Hp; simpl in *; try done; try lia.
  case_decide; [|done]. apply IH in Hp. lia.
Qed.

Lemma validate_json_loop_sound search_str kvpairs ptr :
  ∀ off skip logErr,
  (off + String.length ptr = String.length kvpairs)%nat →
  let r := validate_json_loop search_str (String.length search_str) kvpairs ptr off skip
             logErr in
  (r.1 = true →
   r.2 = logErr ∧
   ∃ n, (n <= 1023)%nat ∧ (n <= String.length kvpairs)%nat ∧
        jsax_parse (String.substring 0 n kvpairs) = true) ∧
  (r.2 = logErr ∨
   r.2 = kPmLogErr_TooMuchData ∧ r.1 = false ∧ (1023 < String.length kvpairs)%nat).
Proof.
  induction ptr as [|c rest IH]; intros off skip logErr Hoff; [by split; [|left]|].
  cbn [validate_json_loop]. simpl in Hoff.
  destruct skip as [|skip']; [|apply IH; lia].
  destruct (has_prefix search_str (String c rest)) eqn:Hp; [|apply IH; lia].
  apply has_prefix_length in Hp. simpl in Hp.
  case_decide as Hbig.
  { cbv zeta. cbn [fst snd]. split; [done|]. right.
    unfold BUFFER_LEN in Hbig. split_and!; [done..|lia]. }
  destruct (jsax_parse _) eqn:Hparse; [|apply IH; lia].
  cbv zeta. cbn [fst snd]. split; [|by left]. intros _. split; [done|].
  eexists. split_and!; [| |exact Hparse]; unfold BUFFER_LEN in Hbig; lia.
Qed.

Lemma validate_json_loop_no_brace search_str move_index kvpairs ptr :
  ∀ off skip logErr,
  Forall (fun c => c ≠ "}"%char) (list_ascii_of_string ptr) →
  validate_json_loop (String "}"%char search_str) move_index kvpairs ptr off skip logErr
  = (false, logErr).
Proof.
  induction ptr as [|c rest IH]; intros off skip logErr Hno; [done|].
  simpl in Hno. apply Forall_cons in Hno as [Hc Hrest].
  cbn [validate_json_loop has_prefix].
  destruct skip as [|skip']; [|by apply IH].
  rewrite decide_False by done. by apply IH.
Qed.

(** X23. [validate_json_string] accepts a text only when one of its
    prefixes of at most 1023 bytes parses, and then leaves the error code
    as it was; a text without a closing brace is refused; and the error
    code becomes TooMuchData only together with a refusal, for a text of
    more than 1023 bytes. *)
Theorem validate_json_string_sound kvpairs logErr with_tailing :
  let r := validate_json_string kvpairs logErr with_tailing in
  (r.1 = true →
   r.2 = logErr ∧
   ∃ n, (n <= 1023)%nat ∧ (n <= String.length kvpairs)%nat ∧
        jsax_parse (String.substring 0 n kvpairs) = true) ∧
  (r.2 = logErr ∨ r.2 = kPmLogErr_TooMuchData ∧ r.1 = false ∧ 1023 < strlen kvpairs) ∧
  (Forall (fun c => c ≠ "}"%char) (list_ascii_of_string kvpairs) →
   r = (false, logErr)).
Proof.
  intros r. subst r. unfold validate_json_string.
  split_and!.
  - destruct with_tailing.
    + apply (validate_json_loop_sound "} " kvpairs kvpairs 0 0 logErr). done.
    + apply (validate_json_loop_sound "}" kvpairs kvpairs 0 0 logErr). done.
  - unfold strlen.
    destruct with_tailing.
    + destruct (validate_json_loop_sound "} " kvpairs kvpairs 0 0 logErr) as [_ [?|(? & ? & ?)]];
        [done|by left|right; split_and!; [done..|lia]].
    + destruct (validate_json_loop_sound "}" kvpairs kvpairs 0 0 logErr) as [_ [?|(? & ? & ?)]];
        [done|by left|right; split_and!; [done..|lia]].
  - intros Hno. destruct with_tailing; by apply validate_json_loop_no_brace.
Qed.

Lemma count_conversions_bounds n :
  ∀ f c, (String.length f <= n)%nat →
  c <= count_conversions f c <= c + strlen f.
Proof.
  induction n as [|n IH]; intros [|a rest] c Hlen; simpl in Hlen; try lia;
    try (unfold strlen; simpl; lia).
  cbn [count_conversions]. rewrite strlen_String. pose proof (strlen_nonneg rest).
  case_decide.
  - destruct rest as [|d rest'].
    + unfold strlen. simpl. lia.
    + case_decide.
      * rewrite strlen_String. pose proof (strlen_nonneg rest').
        specialize (IH rest' c). simpl in Hlen. lia.
      * specialize (IH (String d rest') (c + 1)). lia.
  - specialize (IH rest c). lia.
Qed.

(** X24. [validate_format], for a count of pairs that is a [size_t]:
    it accepts only a format that is not NULL and a count other than zero;
    the number of conversions of a format it accepts is the count of
    pairs, and with the clock flag the count plus one in [size_t]
    arithmetic; and it is at most the number of characters of the format.
    Below [SIZE_MAX] the count plus one is just that. At [SIZE_MAX] it
    wraps to zero: with the clock flag an accepted format then has no
    conversion, and the empty format is accepted. *)
Theorem validate_format_accepts flags kv_count format :
  0 <= kv_count < 2 ^ 64 →
  (validate_format flags kv_count format = true →
   ∃ f, format = Some f ∧ 0 < kv_count ∧
        (if decide (Z.land flags kPmLogValidateFormatFlag_LogWithClock ≠ 0)
         then size_t_wrap (kv_count + 1) else kv_count) = count_conversions f 0 ∧
        count_conversions f 0 <= strlen f ∧
        (kv_count < 2 ^ 64 - 1 →
         (if decide (Z.land flags kPmLogValidateFormatFlag_LogWithClock ≠ 0)
          then kv_count + 1 else kv_count) = count_conversions f 0) ∧
        (kv_count = 2 ^ 64 - 1 →
         Z.land flags kPmLogValidateFormatFlag_LogWithClock ≠ 0 →
         count_conversions f 0 = 0)) ∧
  (Z.land flags kPmLogValidateFormatFlag_LogWithClock ≠ 0 →
   validate_format flags (2 ^ 64 - 1) (Some "") = true).
Proof.
  intros Hkv. split.
  - intros Hok. unfold validate_format in Hok.
    destruct format as [f|]; [|done]. exists f.
    case_decide; [done|].
    pose proof (count_conversions_bounds (String.length f) f 0 (le_n _)) as Hb.
    assert ((if decide (Z.land flags kPmLogValidateFormatFlag_LogWithClock ≠ 0)
             then size_t_wrap (kv_count + 1) else kv_count) = count_conversions f 0)
      as Hcount.
    { case_decide; by apply bool_decide_eq_true in Hok. }
    split_and!; [done|lia|done|lia| |].
    + intros Hbelow. rewrite <- Hcount. case_decide; [|done].
      unfold size_t_wrap. by rewrite Z.mod_small by lia.
    + intros -> Hclock. rewrite <- Hcount. rewrite decide_True by done.
      by vm_compute.
  - intros Hclock. unfold validate_format.
    rewrite decide_False by done. rewrite decide_True by done.
    by apply bool_decide_eq_true.
Qed.

(** ** The data dump *)

Lemma hex_char_digit n : hex_char n ∈ kHexChars.
Proof.
  unfold hex_char. destruct (decide (Z.to_nat n < length kHexChars)%nat) as [Hlt|Hge].
  - apply list_elem_of_lookup. exists (Z.to_nat n).
    destruct (lookup_lt_is_Some_2 _ _ Hlt) as [c Hc].
    rewrite Hc. f_equal. symmetry. by apply nth_lookup_Some.
  - rewrite nth_overflow by lia. by left.
Qed.

Lemma hex_char_printable n : 32 <= char_code (hex_char n) <= 126.
Proof.
  pose proof (hex_char_digit n) as Hin. unfold kHexChars in Hin.
  repeat (apply elem_of_cons in Hin as [->|Hin]; [by vm_compute|]).
  by apply elem_of_nil in Hin.
Qed.

Lemma length_string_of_list_ascii l :
  String.length (string_of_list_ascii l) = length l.
Proof. induction l as [|c l IH]; simpl; [done|by rewrite IH]. Qed.

Lemma list_ascii_of_string_append a b :
  list_ascii_of_string (a +:+ b) = list_ascii_of_string a ++ list_ascii_of_string b.
Proof. induction a as [|c a IH]; [done|]. rewrite append_String. simpl. by rewrite IH. Qed.

Lemma length_concat_empty l :
  String.length (String.concat "" l) = sum_list (map String.length l).
Proof.
  induction l as [|x [|y l] IH]; [done|simpl; lia|].
  change (String.concat "" (x :: y :: l)) with (x +:+ "" +:+ String.concat "" (y :: l)).
  rewrite !length_append, IH. simpl. lia.
Qed.

Lemma chars_concat_empty (P : ascii → Prop) l :
  Forall (fun s => Forall P (list_ascii_of_string s)) l →
  Forall P (list_ascii_of_string (String.concat "" l)).
Proof.
  induction l as [|x [|y l] IH]; intros Hl; [done|by apply Forall_cons in Hl as [? _]|].
  change (String.concat "" (x :: y :: l)) with (x +:+ "" +:+ String.concat "" (y :: l)).
  apply Forall_cons in Hl as [Hx Hl].
  rewrite !list_ascii_of_string_append. simpl. apply Forall_app. split; [done|by apply IH].
Qed.

Lemma hex_cell_length srcP lineBytes i :
  String.length (hex_cell srcP lineBytes i) = if decide (i = 8%nat) then 4%nat else 3%nat.
Proof. unfold hex_cell. by repeat case_decide. Qed.

Lemma hex_cell_printable srcP lineBytes i :
  Forall (fun c => 32 <= char_code c <= 126) (list_ascii_of_string (hex_cell srcP lineBytes i)).
Proof.
  unfold hex_cell. rewrite !list_ascii_of_string_append.
  repeat apply Forall_app_2.
  - case_decide; [|done]. by apply Forall_singleton.
  - case_decide; simpl; repeat (apply Forall_cons; split);
      try apply hex_char_printable; by vm_compute.
  - by apply Forall_singleton.
Qed.

Lemma offset_hex8_shape n :
  String.length (offset_hex8 n) = 8%nat ∧
  Forall (fun c => 32 <= char_code c <= 126) (list_ascii_of_string (offset_hex8 n)) ∧
  ∃ rest, offset_hex8 n = String (hex_char ((n / 16 ^ (Z.max 8 (Z.log2 n / 4 + 1) - 1 - 0)) mod 16)) rest.
Proof.
  unfold offset_hex8. cbv zeta. split_and!.
  - by rewrite length_string_of_list_ascii, length_map.
  - rewrite list_ascii_of_string_of_list_ascii. apply Forall_map, Forall_forall.
    intros j _. apply hex_char_printable.
  - cbn [seq map string_of_list_ascii]. by eexists.
Qed.

Lemma ascii_cell_printable srcP i : 32 <= char_code (ascii_cell srcP i) <= 126.
Proof. unfold ascii_cell. cbv zeta. case_decide; [lia|by vm_compute]. Qed.

Lemma dump_line_not_command srcP srcOffset lineBytes :
  has_prefix "!loglib " (dump_line srcP srcOffset lineBytes) = false.
Proof.
  destruct (offset_hex8_shape srcOffset) as (_ & _ & first & Hfirst).
  unfold dump_line. rewrite Hfirst, append_String. cbn [has_prefix].
  case_decide as Hbang; [|done].
  pose proof (hex_char_digit
    ((srcOffset / 16 ^ (Z.max 8 (Z.log2 srcOffset / 4 + 1) - 1 - 0)) mod 16)) as Hin.
  rewrite <- Hbang in Hin. unfold kHexChars in Hin.
  repeat (apply elem_of_cons in Hin as [?|Hin]; [done|]).
  by apply elem_of_nil in Hin.
Qed.

(** X25. A line of the dump for [lineBytes] bytes has 62 characters and one
    more for every byte, which for a full line of 16 bytes is the
    [kMaxLineLen] the code asserts; every character of it is printable
    ASCII; and, as it starts with a hexadecimal digit, it is never taken
    for a command. *)
Theorem dump_line_shape srcP srcOffset lineBytes :
  0 <= lineBytes →
  strlen (dump_line srcP srcOffset lineBytes) = 62 + lineBytes ∧
  (lineBytes = kMaxBytesPerLine → strlen (dump_line srcP srcOffset lineBytes) = kMaxLineLen) ∧
  Forall (fun c => 32 <= char_code c <= 126)
         (list_ascii_of_string (dump_line srcP srcOffset lineBytes)) ∧
  has_prefix "!loglib " (dump_line srcP srcOffset lineBytes) = false.
Proof.
  intros Hbytes.
  destruct (offset_hex8_shape srcOffset) as (Hlen8 & Hprint8 & first & Hfirst).
  assert (strlen (dump_line srcP srcOffset lineBytes) = 62 + lineBytes) as Hlen.
  { unfold strlen, dump_line.
    rewrite !length_append, Hlen8, length_concat_empty, length_string_of_list_ascii,
      length_map, length_seq.
    change (Z.to_nat kMaxBytesPerLine) with 16%nat. cbn [seq map].
    rewrite !hex_cell_length. simpl. lia. }
  split_and!; [done|by intros ->| |].
  - unfold dump_line. rewrite !list_ascii_of_string_append.
    repeat apply Forall_app_2; try done.
    + repeat (apply Forall_cons; split); by vm_compute.
    + apply chars_concat_empty, Forall_map, Forall_forall.
      intros i _. apply hex_cell_printable.
    + repeat (apply Forall_cons; split); by vm_compute.
    + rewrite list_ascii_of_string_of_list_ascii. apply Forall_map, Forall_forall.
      intros i _. apply ascii_cell_printable.
    + repeat (apply Forall_cons; split); by vm_compute.
  - apply dump_line_not_command.
Qed.

(** What [PrvLogWrite] does with a message that is not a command. *)
Lemma PrvLogWrite_plain contextP level msgid s w g :
  w_globals w = Some g →
  has_prefix "!loglib " s = false →
  ∃ w' line, PrvLogWrite contextP level msgid s w = (kPmLogErr_None, w') ∧
             w_globals w' = Some g ∧
             w_syslog w' = (level, line) :: w_syslog w ∧
             w_errno w' = w_errno w.
Proof.
  intros Hg Hcmd. destruct w as [e g0 conn mask sl se so mem]. simpl in Hg. subst g0.
  unfold PrvLogWrite, HandleLogLibCommand. rewrite Hcmd. cbn [negb].
  unfold block_signals, unblock_signals, syslog, PrvLogToConsole, fprintf, libc,
    deref, bind, gets, modify, ret.
  repeat first
    [ progress cbn -[GetPidStr c_truncate String.append Z.land mystrcpy]
    | case_decide ];
    eexists _, _; split_and!; reflexivity.
Qed.

Lemma DumpData_loop_lines contextP level dataSize g turns :
  ∀ srcP srcOffset logErr w,
  w_globals w = Some g →
  0 <= srcOffset <= dataSize →
  dataSize - srcOffset <= Z.of_nat turns →
  ∃ w' lines,
    DumpData_loop turns contextP level srcP srcOffset dataSize logErr w
      = (if decide (srcOffset < dataSize) then kPmLogErr_None else logErr, w') ∧
    w_globals w' = Some g ∧
    w_syslog w' = lines ++ w_syslog w ∧
    Z.of_nat (length lines) = (dataSize - srcOffset + 15) / 16 ∧
    Forall (fun e => e.1 = level) lines ∧
    w_errno w' = w_errno w.
Proof.
  induction turns as [|turns IH]; intros srcP srcOffset logErr w Hg Hoff Hturns.
  - exists w, []. rewrite decide_False by lia.
    replace srcOffset with dataSize by lia. rewrite Z.sub_diag. by split_and!.
  - cbn [DumpData_loop]. case_decide as Hmore.
    + cbv zeta.
      set (lineBytes := if decide (dataSize - srcOffset > kMaxBytesPerLine)
                        then kMaxBytesPerLine else dataSize - srcOffset).
      assert (1 <= lineBytes <= 16 ∧ lineBytes <= dataSize - srcOffset ∧
              (dataSize - srcOffset + 15) / 16
              = 1 + (dataSize - (srcOffset + lineBytes) + 15) / 16) as (Hlb & Hle & Hdiv).
      { unfold lineBytes, kMaxBytesPerLine.
        case_decide; split_and!; try lia; Z.div_mod_to_equations; lia. }
      assert (has_prefix "!loglib " (dump_line srcP srcOffset lineBytes) = false) as Hplain
        by (apply dump_line_not_command).
      destruct (PrvLogWrite_plain contextP level None
                  (dump_line srcP srcOffset lineBytes) w g Hg Hplain)
        as (w1 & line & Hwrite & Hg1 & Hlog1 & Herr1).
      rewrite bind_run, Hwrite. cbn [fst snd].
      rewrite decide_False by (by intros []).
      destruct (IH (drop (Z.to_nat lineBytes) srcP) (srcOffset + lineBytes)
                  kPmLogErr_None w1 Hg1) as (w' & lines & Hrest & Hg' & Hlog & Hcount & Hlev & Herr);
        [lia|lia|].
      exists w', (lines ++ [(level, line)]). split_and!.
      * rewrite Hrest. by case_decide.
      * done.
      * by rewrite Hlog, Hlog1, <- app_assoc.
      * rewrite length_app. simpl. lia.
      * apply Forall_app. split; [done|]. by apply Forall_singleton.
      * congruence.
    + exists w, []. replace srcOffset with dataSize by lia. rewrite Z.sub_diag.
      by split_and!.
Qed.

(** X26. [PmLogDumpData_] on a usable registry, for a level the context
    lets through, data that is not NULL, a count of bytes above zero and
    the default format: the call succeeds, hands one line for every 16
    bytes or part of them to syslog, all at the level of the call, and
    leaves the registry and [errno] as they were. *)
Theorem PmLogDumpData_writes_lines context level data numBytes w g :
  w_globals w = Some g →
  level_enabled g (handle_ptr context) level →
  0 < numBytes →
  ∃ w' lines,
    PmLogDumpData_ context level (Some data) numBytes kPmLogDumpFormatDefault w
      = (kPmLogErr_None, w') ∧
    w_syslog w' = lines ++ w_syslog w ∧
    Z.of_nat (length lines) = (numBytes + 15) / 16 ∧
    Forall (fun e => e.1 = level) lines ∧
    w_globals w' = Some g ∧
    w_errno w' = w_errno w.
Proof.
  intros Hg Hen Hbytes.
  destruct (DumpData_loop_lines (handle_ptr context) level numBytes g (Z.to_nat numBytes)
              data 0 kPmLogErr_NoData w Hg) as (w' & lines & Hrun & Hg' & Hlog & Hcount & Hlev & Herr);
    [lia..|].
  exists w', lines. split_and!; try done.
  - unfold PmLogDumpData_.
    rewrite bind_run, (PrvResolveContext_usable _ _ g) by done. cbn [fst snd].
    rewrite bind_run, (PrvCheckContext_enabled _ _ _ _ Hg Hen). cbn [fst snd].
    rewrite decide_False by (by intros []).
    rewrite (decide_False (P := numBytes = 0)) by lia.
    rewrite decide_False by (by intros []).
    unfold DumpData_OffsetHexAscii. rewrite Hrun. by rewrite decide_True by lia.
  - by rewrite Z.sub_0_r in Hcount.
Qed.

Lemma PrvCheckContext_disabled p level w g :
  w_globals w = Some g → ¬ level_enabled g p level →
  ∃ err, err ≠ kPmLogErr_None ∧ PrvCheckContext p level w = (err, w).
Proof.
  intros Hg Hdis. unfold PrvCheckContext.
  destruct (PrvIsValidLevel level) eqn:Hvalid; cbn [negb];
    [|by exists kPmLogErr_InvalidLevel].
  unfold bind, deref, gets, ret. rewrite Hg.
  case_decide as Hgt; [by exists kPmLogErr_LevelDisabled|].
  destruct Hdis. unfold PrvIsValidLevel in Hvalid.
  apply andb_true_iff in Hvalid as [?%bool_decide_eq_true ?%bool_decide_eq_true].
  split; lia.
Qed.

(** X27. The order of the checks of [PmLogDumpData_] for a level the
    context lets through: no bytes is NoData whatever the data pointer and
    the format are, a NULL data pointer is InvalidData whatever the format
    is, and a format other than the default one is InvalidFormat. A level
    the context does not let through is refused before all of them. In
    none of these cases is anything written. *)
Theorem PmLogDumpData_rejects context level data numBytes format w g :
  w_globals w = Some g →
  (level_enabled g (handle_ptr context) level →
   PmLogDumpData_ context level data 0 format w = (kPmLogErr_NoData, w) ∧
   (numBytes ≠ 0 →
    PmLogDumpData_ context level None numBytes format w = (kPmLogErr_InvalidData, w)) ∧
   (numBytes ≠ 0 → format ≠ kPmLogDumpFormatDefault → ∀ d,
    PmLogDumpData_ context level (Some d) numBytes format w = (kPmLogErr_InvalidFormat, w))) ∧
  (¬ level_enabled g (handle_ptr context) level →
   ∃ err, err ≠ kPmLogErr_None ∧
          PmLogDumpData_ context level data numBytes format w = (err, w)).
Proof.
  intros Hg. split.
  - intros Hen. split_and!; [|intros Hn|intros Hn Hf d];
      unfold PmLogDumpData_;
      rewrite bind_run, (PrvResolveContext_usable _ _ g) by done; cbn [fst snd];
      rewrite bind_run, (PrvCheckContext_enabled _ _ _ _ Hg Hen); cbn [fst snd];
      by repeat case_decide.
  - intros Hdis.
    destruct (PrvCheckContext_disabled _ _ _ _ Hg Hdis) as (err & Herr & Hchk).
    exists err. split; [done|]. unfold PmLogDumpData_.
    rewrite bind_run, (PrvResolveContext_usable _ _ g) by done. cbn [fst snd].
    rewrite bind_run, Hchk. cbn [fst snd]. by case_decide.
Qed.

(** ** The console *)

Lemma append_empty s : s +:+ "" = s.
Proof. induction s as [|c s IH]; [done|]. by rewrite append_String, IH. Qed.

Lemma ends_with_newline_append a b :
  ends_with_newline b = true → ends_with_newline (a +:+ b) = true.
Proof.
  unfold ends_with_newline, strlen.
  intros [Hlen%bool_decide_eq_true Hget%bool_decide_eq_true]%andb_true_iff.
  apply andb_true_iff. split; apply bool_decide_eq_true.
  - rewrite length_append. lia.
  - rewrite (String.append_correct2 a) in Hget. rewrite length_append, <- Hget.
    f_equal. lia.
Qed.

Lemma ends_with_newline_completed s :
  ends_with_newline (s +:+ (if ends_with_newline s then "" else String "010"%char ""))
  = true.
Proof.
  destruct (ends_with_newline s) eqn:Hs; [by rewrite append_empty|].
  by apply ends_with_newline_append.
Qed.

Lemma GetPidStr_bracket c ptidStrLen :
  3 <= ptidStrLen → ∃ rest, GetPidStr c ptidStrLen = String "["%char rest.
Proof.
  intros Hlen.
  assert (Hcut : ∀ t, ∃ rest, c_truncate ptidStrLen (String "["%char t) = String "["%char rest).
  { intros t. unfold c_truncate.
    replace (Z.to_nat (ptidStrLen - 1)) with (S (Z.to_nat (ptidStrLen - 2))) by lia.
    rewrite substring_0_String. by eexists. }
  unfold GetPidStr. repeat case_decide; apply Hcut.
Qed.

(** X28. The console echo of [PrvLogWrite] for a message that is not a
    command, on a usable registry: a context without the LogToConsole flag
    writes nothing to the console; one with the flag writes the line to
    stderr exactly when the level is within the stderr range of the console
    configuration and to stdout exactly when it is within the stdout range,
    so that a level in both ranges is echoed twice. The line is the program
    name, the ids, the context name and the message, and it always ends
    with one line feed: one is added only when the message has none. *)
Theorem PrvLogWrite_console contextP level msgid s w g :
  w_globals w = Some g →
  has_prefix "!loglib " s = false →
  let c := load_ctx g contextP in
  let conf := consoleConf g in
  let w' := (PrvLogWrite contextP level msgid s w).2 in
  let line :=
    progname +:+ GetPidStr c PIDSTR_LEN +:+
    c_truncate (1 + PMLOG_MAX_CONTEXT_NAME_LEN + 3 + 1) (component c) +:+ s +:+
    (if ends_with_newline s then "" else String "010"%char "") in
  w_stderr w' =
    (if decide (Z.land (flags (info c)) kPmLogFlag_LogToConsole ≠ 0 ∧
                stdErrMinLevel conf <= level <= stdErrMaxLevel conf)
     then [line] else []) ++ w_stderr w ∧
  w_stdout w' =
    (if decide (Z.land (flags (info c)) kPmLogFlag_LogToConsole ≠ 0 ∧
                stdOutMinLevel conf <= level <= stdOutMaxLevel conf)
     then [line] else []) ++ w_stdout w ∧
  ends_with_newline line = true.
Proof.
  intros Hg Hcmd c conf w' line. subst w' conf.
  split_and!; [| |by do 3 apply ends_with_newline_append; apply ends_with_newline_completed].
  all: destruct (GetPidStr_bracket c PIDSTR_LEN) as [rest Hpid]; [by vm_compute|].
  all: subst line; fold c.
  all: destruct w as [e g0 conn mask sl se so mem]; simpl in Hg; subst g0.
  all: unfold PrvLogWrite, HandleLogLibCommand; rewrite Hcmd; cbn [negb].
  all: unfold block_signals, unblock_signals, syslog, PrvLogToConsole, fprintf, libc,
         deref, bind, gets, modify, ret.
  all: cbn -[GetPidStr c_truncate String.append Z.land mystrcpy ends_with_newline].
  all: fold c; rewrite Hpid.
  all: destruct (decide (Z.land (flags (info c)) kPmLogFlag_LogToConsole ≠ 0)) as [Hon|Hoff];
         [|rewrite decide_False by tauto; reflexivity].
  all: cbn -[GetPidStr c_truncate String.append Z.land mystrcpy ends_with_newline].
  all: rewrite (decide_False (P := String "["%char rest = "")) by done.
  all: repeat first
         [ progress cbn -[GetPidStr c_truncate String.append Z.land mystrcpy ends_with_newline]
         | case_decide ];
         first [reflexivity | exfalso; lia | exfalso; tauto].
Qed.

(** ** Developer mode *)

(** X29. [PmLogSetDevMode] changes the developer mode of the registry and
    nothing else: every context, the count and the syslog output are as
    before. With the mode off, [PmLogSetContextLevel] with an acceptable
    level makes no system call: the one thing it changes is the level of
    the context, and [errno] is as it was. *)
Theorem PmLogSetDevMode_only_devMode isDevMode context level w g :
  w_globals w = Some g →
  level = kPmLogLevel_None ∨ kPmLogLevel_Emergency <= level <= kPmLogLevel_Debug →
  let w1 := (PmLogSetDevMode isDevMode w).2 in
  w_globals w1 = Some (set_devMode isDevMode g) ∧
  devMode (set_devMode isDevMode g) = isDevMode ∧
  (∀ p, load_ctx (set_devMode isDevMode g) p = load_ctx g p) ∧
  numUserContexts (set_devMode isDevMode g) = numUserContexts g ∧
  w_syslog w1 = w_syslog w ∧
  (isDevMode = false →
   PmLogSetContextLevel context level w1
     = (kPmLogErr_None,
        set_globals (Some (update_ctx (handle_ptr context) (set_enabledLevel level)
                             (set_devMode false g))) w1)).
Proof.
  intros Hg Hlevel w1. subst w1.
  destruct w as [e g0 conn mask sl se so mem]. simpl in Hg. subst g0.
  split_and!; try done.
  intros ->.
  unfold PmLogSetContextLevel.
  rewrite bind_run, (PrvResolveContext_usable _ _ (set_devMode false g)) by done.
  cbn [fst snd].
  assert (bool_decide (level ≠ kPmLogLevel_None) && negb (PrvIsValidLevel level) = false)
    as ->.
  { destruct Hlevel as [->|Hin].
    - by rewrite bool_decide_eq_false_2 by (by intros []).
    - unfold PrvIsValidLevel.
      rewrite (bool_decide_eq_true_2 (level >= _)), (bool_decide_eq_true_2 (level <= _))
        by lia.
      by rewrite andb_false_r. }
  reflexivity.
Qed.

(** ** The name of the process *)

Lemma nul_to_space_length s : String.length (nul_to_space s) = String.length s.
Proof. induction s as [|c s IH]; simpl; [done|by rewrite IH]. Qed.

Lemma nul_to_space_no_nul s :
  Forall (fun c => c ≠ "000"%char) (list_ascii_of_string (nul_to_space s)).
Proof.
  induction s as [|c s IH]; simpl; [done|].
  apply Forall_cons. split; [|done]. by case_decide.
Qed.

Lemma get_nul_to_space i s :
  String.get i (nul_to_space s)
  = (fun c => if decide (c = "000"%char) then " "%char else c) <$> String.get i s.
Proof.
  revert i. induction s as [|c s IH]; intros i; [done|].
  destruct i as [|i]; simpl; [done|apply IH].
Qed.

(** X30. [GetCurrentProcessName] with a buffer of at least one byte: when
    the command line can be read, the buffer holds its first [size - 1]
    bytes at most, byte for byte, except that every NUL byte has become a
    space, and the value returned is the length of that text; when it
    cannot be opened, the buffer is untouched and the value is zero. The
    registry and the syslog output are not touched. *)
Theorem GetCurrentProcessName_result dst size w :
  1 <= size →
  let r := GetCurrentProcessName dst size w in
  (∀ bytes, proc_cmdline = Some bytes →
     r.1.2 = strlen r.1.1 ∧
     strlen r.1.1 = Z.min (size - 1) (strlen bytes) ∧
     Forall (fun c => c ≠ "000"%char) (list_ascii_of_string r.1.1) ∧
     (∀ i c, String.get i bytes = Some c → Z.of_nat i < size - 1 →
        String.get i r.1.1 = Some (if decide (c = "000"%char) then " "%char else c))) ∧
  (proc_cmdline = None → r.1 = (dst, 0)) ∧
  w_globals r.2 = w_globals w ∧
  w_syslog r.2 = w_syslog w.
Proof.
  intros Hsize r. subst r.
  unfold GetCurrentProcessName, sys, bind, modify, ret.
  destruct proc_cmdline as [bytes|]; cbn [fst snd].
  - split_and!; [|done|by destruct w..].
    intros ? [= <-]. split_and!; [done| |apply nul_to_space_no_nul|].
    + unfold strlen. rewrite nul_to_space_length, length_substring_0. lia.
    + intros i c Hget Hi.
      rewrite get_nul_to_space, String.substring_correct1 by lia.
      by rewrite Nat.add_0_r, Hget.
  - by split_and!.
Qed.

End MoreProperties.

(** * The properties of the rest of the library on the sample platform *)

#[local] Existing Instance sample_header.
#[local] Existing Instance sample_externals.
#[local] Existing Instance sample_more_header.
#[local] Existing Instance sample_os.

Lemma sample_error_enabled : level_enabled sample_globals GlobalCtx kPmLogLevel_Error.
Proof.
  split; simpl; unfold kPmLogLevel_Emergency, kPmLogLevel_Debug, kPmLogLevel_Error,
    kPmLogLevel_Warning; lia.
Qed.

(** The level table: code 3 and the label err. *)
Lemma label_table_round_trip_witness :
  PrvGetIntLabel kLogLevelLabels 3 = Some "err" ↔
  PrvLabelToInt kLogLevelLabels "err" = Some 3.
Proof.
  destruct (label_table_round_trip kLogLevelLabels) as (Hrt & _ & _);
    [apply kLogLevelLabels_distinct..|apply Hrt].
Defined.

(** Setting the console flag of ["A"] marks it as overridden. *)
Lemma PrvSetContextFlag_witness :
  ∃ g', PrvSetContextFlag (Some (UserCtx 0)) 4 true (sample_world (Some sample_globals))
        = (kPmLogErr_None, set_globals (Some g') (sample_world (Some sample_globals))) ∧
        Z.land (flags (info (load_ctx g' (UserCtx 0)))) 8 = 8.
Proof.
  destruct (PrvSetContextFlag_marks_overridden (UserCtx 0) 4 true
              (sample_world (Some sample_globals)) sample_globals)
    as (g' & Hrun & Hov & _); [reflexivity|simpl; lia|].
  by exists g'.
Defined.

(** The global context set to debug and read back. *)
Lemma PmLogSetContextLevel_witness :
  ∃ w', PmLogSetContextLevel None kPmLogLevel_Debug (sample_world (Some sample_globals))
        = (kPmLogErr_None, w') ∧
        PmLogGetContextLevel None (Some 0) w' = ((kPmLogErr_None, Some kPmLogLevel_Debug), w').
Proof.
  destruct (PmLogSetContextLevel_then_get None kPmLogLevel_Debug 0
              (sample_world (Some sample_globals)) sample_globals)
    as (w' & g' & Hset & _ & Hget & _);
    [reflexivity|exact I|
     right; unfold kPmLogLevel_Emergency, kPmLogLevel_Debug; lia|].
  by exists w'.
Defined.

(** The name of ["A"] in a buffer of 32 bytes. *)
Lemma PmLogGetContextName_witness :
  PmLogGetContextName (Some (UserCtx 0)) (Some "") 32 (sample_world (Some sample_globals))
  = ((kPmLogErr_None, Some "A"), sample_world (Some sample_globals)).
Proof.
  pose proof (PmLogGetContextName_buffer (Some (UserCtx 0)) "" 32
                (sample_world (Some sample_globals)) sample_globals) as Hname.
  cbv zeta in Hname. destruct Hname as (Hfits & _); [reflexivity|lia|].
  apply Hfits; reflexivity.
Defined.

(** ["B"] created and its name read back. *)
Lemma PmLogGetContext_then_name_witness :
  ∃ h w1,
    PmLogGetContext (Some "B") (Some None) (sample_world (Some sample_globals))
      = ((kPmLogErr_None, Some (Some h)), w1) ∧
    PmLogGetContextName (Some h) (Some "") (PMLOG_MAX_CONTEXT_NAME_LEN + 1) w1
      = ((kPmLogErr_None, Some "B"), w1).
Proof.
  apply (PmLogGetContext_then_name "B" None "" (sample_world (Some sample_globals))
           sample_globals);
    [reflexivity|exact sample_globals_ok|by apply valid_name_check|left; simpl; lia].
Defined.

(** ["B"] created: the registry still satisfies its invariant. *)
Lemma PmLogGetContext_append_only_witness :
  ∃ h w' g',
    PmLogGetContext (Some "B") (Some None) (sample_world (Some sample_globals))
      = ((kPmLogErr_None, Some (Some h)), w') ∧
    w_globals w' = Some g' ∧ registry_ok g'.
Proof.
  destruct (PmLogGetContext_append_only "B" None (sample_world (Some sample_globals))
              sample_globals) as (h & w' & g' & Hrun & Hg' & Hok & _);
    [reflexivity|exact sample_globals_ok|by apply valid_name_check|].
  by exists h, w', g'.
Defined.

(** Without a registry the lookup answers Unknown. *)
Lemma unusable_registry_witness :
  PmLogGetContext (Some "A") (Some None) (sample_world None)
  = ((kPmLogErr_Unknown, Some None), sample_world None).
Proof.
  destruct (unusable_registry_fails_fast (Some "A") None 0 0 None None None 0 0 None None
              "" (@None string : @va_list sample_externals) None 0 None (sample_world None)) as (Hget & _);
    [reflexivity|exact Hget].
Defined.

(** The handle of ["A"] is taken as the library context. *)
Lemma PmLogSetLibContext_witness :
  (PmLogSetLibContext (Some (UserCtx 0)) None (sample_world (Some sample_globals))).1
  = Some (UserCtx 0).
Proof.
  pose proof (PmLogSetLibContext_validates (Some (UserCtx 0)) None
                (sample_world (Some sample_globals)) sample_globals eq_refl) as Hlib.
  cbv zeta in Hlib. destruct Hlib as (Hknown & _).
  apply Hknown. exists (UserCtx 0). split; [reflexivity|].
  right. exists 0%nat. split; [reflexivity|simpl; lia].
Defined.

(** The start-up on a segment that is all zero. *)
Lemma init_function_witness :
  ∃ w0,
    (init_function
       (mkAttach true true true
          (Some (mkGlobals 0 0 0 0 (mkConsole 0 0 0 0) false null_context [])))
       (sample_world None)).2 = PmLogPrvReadConfigs w0 ∧
    w_globals w0 = Some init_segment.
Proof.
  pose proof (init_function_cases
                (mkAttach true true true
                   (Some (mkGlobals 0 0 0 0 (mkConsole 0 0 0 0) false null_context [])))
                (sample_world None)) as Hinit.
  cbv zeta in Hinit. destruct Hinit as (Hseg & _); [by simpl|by simpl|by vm_compute|].
  destruct (Hseg _ eq_refl eq_refl eq_refl eq_refl) as (Hfresh & _).
  destruct (Hfresh eq_refl) as (w0 & Hrun & Hg & _).
  by exists w0.
Defined.

(** The entry of the configuration for ["B"] at debug. *)
Lemma PrvInitContext_witness :
  ∃ w', PrvInitContext "B" "debug" 64 (sample_world (Some sample_globals))
        = ((true, ""), w').
Proof.
  destruct (PrvInitContext_configures "B" "debug" kPmLogLevel_Debug 64
              (sample_world (Some sample_globals)) sample_globals)
    as (p & w' & g' & Hrun & _);
    [reflexivity|exact sample_globals_ok|by apply valid_name_check|reflexivity|].
  by exists w'.
Defined.

(** An ordinary message is not a command. *)
Lemma HandleLogLibCommand_witness :
  HandleLogLibCommand "hello" (sample_world (Some sample_globals))
  = (false, sample_world (Some sample_globals)).
Proof. apply (HandleLogLibCommand_only_loadconf "hello"). discriminate. Defined.


(** Five characters into a buffer of four bytes. *)
Lemma mystrcpy_witness : strlen (mystrcpy "" 4 (Some "hello")) = 3.
Proof.
  destruct (mystrcpy_bounded "" 4 "hello") as (Hlen & _); [lia|exact Hlen].
Defined.

(** A diagnostic of the library. *)
Lemma CallSysLog_witness :
  w_syslog (CallSysLog "A" LOG_ERR "[]" "text" (sample_world (Some sample_globals))).2
  = [(LOG_ERR, "[] pmlog A text")].
Proof.
  pose proof (CallSysLog_line "A" LOG_ERR "[]" "text"
                (sample_world (Some sample_globals))) as Hline.
  cbv zeta in Hline. destruct Hline as (Hline & _); [reflexivity|exact Hline].
Defined.

(** The ids of a context without flags. *)
Lemma GetPidStr_witness : GetPidStr (sample_context "A" kPmLogLevel_Info) PIDSTR_LEN = "[]".
Proof.
  destruct (GetPidStr_shape (sample_context "A" kPmLogLevel_Info) PIDSTR_LEN)
    as (_ & _ & Hplain); [unfold PIDSTR_LEN; lia|].
  apply Hplain; reflexivity.
Defined.

(** The texts of NoData and InvalidData differ, so the codes do. *)
Lemma PmLogGetErrDbgString_witness :
  PmLogGetErrDbgString kPmLogErr_NoData = "NoData" ∧ kPmLogErr_NoData = kPmLogErr_NoData.
Proof.
  split; [reflexivity|].
  apply (PmLogGetErrDbgString_injective kPmLogErr_NoData kPmLogErr_NoData). reflexivity.
Defined.

(** A format of two conversions for two pairs, and the empty format at
    [SIZE_MAX] with the clock flag. *)
Lemma validate_format_witness :
  (∃ f, Some "%s=%d" = Some f ∧ count_conversions f 0 = 2) ∧
  validate_format 1 (2 ^ 64 - 1) (Some "") = true.
Proof.
  split.
  - destruct (validate_format_accepts 0 2 (Some "%s=%d")) as [Haccepted _]; [lia|].
    destruct (Haccepted eq_refl) as (f & Hf & _ & _ & _ & Hcount & _).
    exists f. split; [done|]. symmetry. apply Hcount. lia.
  - destruct (validate_format_accepts 1 2 (Some "%s=%d")) as [_ Hmax]; [lia|].
    apply Hmax. by vm_compute.
Defined.

(** A line of two bytes. *)
Lemma dump_line_witness : strlen (dump_line ["A"; "B"]%char 0 2) = 64.
Proof.
  destruct (dump_line_shape ["A"; "B"]%char 0 2) as (Hlen & _); [lia|exact Hlen].
Defined.

(** One byte dumped on the global context at level error. *)
Lemma PmLogDumpData_witness :
  ∃ w', PmLogDumpData_ None kPmLogLevel_Error (Some ["A"%char]) 1 kPmLogDumpFormatDefault
          (sample_world (Some sample_globals)) = (kPmLogErr_None, w') ∧
        w_errno w' = 0.
Proof.
  destruct (PmLogDumpData_writes_lines None kPmLogLevel_Error ["A"%char] 1
              (sample_world (Some sample_globals)) sample_globals)
    as (w' & lines & Hrun & _ & _ & _ & _ & Herr);
    [reflexivity|exact sample_error_enabled|lia|].
  by exists w'.
Defined.

(** No bytes to dump. *)
Lemma PmLogDumpData_rejects_witness :
  PmLogDumpData_ None kPmLogLevel_Error None 0 None (sample_world (Some sample_globals))
  = (kPmLogErr_NoData, sample_world (Some sample_globals)).
Proof.
  destruct (PmLogDumpData_rejects None kPmLogLevel_Error None 1 None
              (sample_world (Some sample_globals)) sample_globals eq_refl) as (Hen & _).
  destruct (Hen sample_error_enabled) as (Hnodata & _). exact Hnodata.
Defined.

(** The global context has no console flag: nothing on stderr. *)
Lemma PrvLogWrite_console_witness :
  w_stderr (PrvLogWrite GlobalCtx kPmLogLevel_Error None "text"
              (sample_world (Some sample_globals))).2 = [].
Proof.
  pose proof (PrvLogWrite_console GlobalCtx kPmLogLevel_Error None "text"
                (sample_world (Some sample_globals)) sample_globals eq_refl eq_refl)
    as Hconsole.
  cbv zeta in Hconsole. destruct Hconsole as (Herr & _). exact Herr.
Defined.

(** Developer mode switched off. *)
Lemma PmLogSetDevMode_witness :
  w_globals (PmLogSetDevMode false (sample_world (Some sample_globals))).2
  = Some (set_devMode false sample_globals).
Proof.
  pose proof (PmLogSetDevMode_only_devMode false None kPmLogLevel_None
                (sample_world (Some sample_globals)) sample_globals eq_refl
                (or_introl eq_refl)) as Hdev.
  cbv zeta in Hdev. destruct Hdev as (Hg & _). exact Hg.
Defined.

(** The command line of [a] and [b] in a buffer of three bytes: the first
    argument and a space for the NUL that ends it. *)
Lemma GetCurrentProcessName_witness :
  let r := GetCurrentProcessName (os := sample_os_args) "" 3
             (sample_world (Some sample_globals)) in
  String.get 0 r.1.1 = Some "a"%char ∧
  String.get 1 r.1.1 = Some " "%char ∧
  r.1.2 = 2.
Proof.
  pose proof (GetCurrentProcessName_result (os := sample_os_args) "" 3
                (sample_world (Some sample_globals))) as Hname.
  cbv zeta in *. destruct Hname as (Hread & _); [lia|].
  destruct (Hread _ eq_refl) as (Hret & Hlen & _ & Hbytes).
  split_and!.
  - apply (Hbytes 0%nat "a"%char); [reflexivity|lia].
  - apply (Hbytes 1%nat "000"%char); [reflexivity|lia].
  - rewrite Hret, Hlen. reflexivity.
Defined.

(** The label of level error. *)
Lemma level_labels_witness :
  PmLogLevelToString kPmLogLevel_Error = Some "err" ↔
  PmLogStringToLevel "err" = Some kPmLogLevel_Error.
Proof. destruct level_labels_round_trip as (_ & Hrt & _). apply Hrt. Defined.

(** The facility user. *)
Lemma facility_labels_witness :
  PmLogFacilityToString LOG_USER = Some "user" ↔
  PmLogStringToFacility "user" = Some LOG_USER.
Proof. destruct facility_labels_round_trip as (Hrt & _). apply Hrt. Defined.



(** A level that is no label. *)
Lemma PrvInitContext_failures_witness :
  PrvInitContext "B" "loud" 64 (sample_world (Some sample_globals))
  = ((false, "Failed to parse level"), sample_world (Some sample_globals)).
Proof.
  destruct (PrvInitContext_failures "B" "loud" 64 (sample_world (Some sample_globals)))
    as (Hlevel & _).
  exact (Hlevel eq_refl).
Defined.

(** A key list of one key is accepted in silence. *)
Lemma validate_keys_witness :
  (validate_keys 1 (Some "k1") "A" None (sample_world (Some sample_globals))).2
  = sample_world (Some sample_globals).
Proof.
  destruct (validate_keys_sound 1 (Some "k1") "A" None (sample_world (Some sample_globals)))
    as (Hok & _).
  destruct (Hok eq_refl) as (_ & _ & Hsilent). exact Hsilent.
Defined.

(** The empty object parses and the error code stays. *)
Lemma validate_json_string_witness :
  (validate_json_string "{}" kPmLogErr_None false).2 = kPmLogErr_None.
Proof.
  pose proof (validate_json_string_sound "{}" kPmLogErr_None false) as Hjson.
  cbv zeta in Hjson. destruct Hjson as (Hok & _).
  destruct (Hok eq_refl) as (Hcode & _). exact Hcode.
Defined.
